(** * Geometry-to-text alignment (client/src/Utility.ts)

    A shallow embedding of the selection/citation utilities of the viewer:
    the reading-order comparator, the two binary searches, the column
    partitioner, the forward mapper (text to bounds) and the reverse mapper
    (selection to text), together with the properties the design document
    states about them.

    Conventions of the embedding.
    - A JavaScript number is a rational ([Q]): every finite double is a
      rational and the order on doubles is the order on [Q].  The arithmetic
      operators give the exact result rounded to the nearest double
      ([to_double]: 53 significant bits, ties to even), as IEEE 754 defines
      them; the exponent is not bounded, so the embedding follows the code
      on every number that stays within the normal range of the doubles
      (no overflow to Infinity, no underflow).  [Math.round], [Math.max],
      [Math.min] and the comparisons are exact, as they are on doubles.
    - Reading an array out of range yields [undefined]; a comparison that
      involves [undefined] is [false] (it is a comparison with NaN).  An
      array read is therefore an [option Q] and [None] is [undefined].
    - Indices and page numbers are natural numbers.
    - A computation that may raise a TypeError returns a [result]; loops that
      are not structurally recursive take fuel and report [OutOfFuel] when it
      runs out.
    - Decimal literals of the source ([0.9], [-0.05], ...) are written as
      the decimals they spell; they only travel to the collaborators of
      [./di].
    - A character of a string is a code unit below 256.
    - [console.log] calls are dropped, except that a property read inside
      their argument may still raise. *)

From Stdlib Require Import List ZArith QArith Qround Qabs Qpower Lqa String Ascii Bool Arith Lia Permutation.
Import ListNotations.

Local Open Scope Q_scope.

(** ** Numbers and arrays *)

Definition jsnum := option Q.

Definition Qltb (x y : Q) : bool := negb (Qle_bool y x).

(** [a < b] on values that may be [undefined]. *)
Definition js_lt (a b : jsnum) : bool :=
  match a, b with
  | Some x, Some y => Qltb x y
  | _, _ => false
  end.

(** [a > b]. *)
Definition js_gt (a b : jsnum) : bool := js_lt b a.

(** [Math.max(a, b)] and [Math.min(a, b)]; NaN as soon as one side is not a
    number. *)
Definition qmax (x y : Q) : Q := if Qltb x y then y else x.
Definition qmin (x y : Q) : Q := if Qltb y x then y else x.

Definition Math_max (a b : jsnum) : jsnum :=
  match a, b with
  | Some x, Some y => Some (qmax x y)
  | _, _ => None
  end.

Definition Math_min (a b : jsnum) : jsnum :=
  match a, b with
  | Some x, Some y => Some (qmin x y)
  | _, _ => None
  end.

(** [Math.round]: the nearest integer, ties towards plus infinity. *)
Definition Math_round (v : Q) : Q := inject_Z (Qfloor (v + (1 # 2))).

(** *** Double-precision arithmetic *)

Definition pow2 (e : Z) : Q := 2 ^ e.

(** [floor (log2 x)] for a positive [x]: the exponent of its binade. *)
Definition ilog2 (x : Q) : Z :=
  let k := (Z.log2 (Qnum x) - Z.log2 (Zpos (Qden x)))%Z in
  if Qle_bool (pow2 k) x then k else (k - 1)%Z.

(** The nearest integer, ties to the even one. *)
Definition nearest_even (q : Q) : Z :=
  let f := Qfloor q in
  match Qcompare (q - inject_Z f) (1 # 2) with
  | Lt => f
  | Gt => (f + 1)%Z
  | Eq => if Z.even f then f else (f + 1)%Z
  end.

(** A positive number rounded to 53 significant bits: the nearest multiple
    of [2 ^ (e - 52)], where [2 ^ e] is the power of two at or below it. *)
Definition nearest53 (x : Q) : Q :=
  let e := (ilog2 x - 52)%Z in
  inject_Z (nearest_even (x / pow2 e)) * pow2 e.

(** The double nearest to a rational (round to nearest, ties to even). *)
Definition to_double (x : Q) : Q :=
  match Qnum x with
  | Z0 => 0
  | Zpos _ => Qred (nearest53 x)
  | Zneg _ => Qred (- nearest53 (- x))
  end.

(** [a + b], [a - b], [a * b] and [a / b] on doubles; the divisors of the
    code are 72 and powers of ten, never zero. *)
Definition js_add (a b : Q) : Q := to_double (a + b).
Definition js_sub (a b : Q) : Q := to_double (a - b).
Definition js_mul (a b : Q) : Q := to_double (a * b).
Definition js_div (a b : Q) : Q := to_double (a / b).

(** [Math.pow(10, precision)] for a natural precision: the double nearest
    to the power, which is the power itself up to [10 ^ 22]. *)
Definition pow10 (precision : nat) : Q :=
  to_double (inject_Z (10 ^ Z.of_nat precision)).

(** Rounds a number to the given precision. *)
Definition round (value : Q) (precision : nat) : Q :=
  let multiplier := pow10 precision in
  js_div (Math_round (js_mul value multiplier)) multiplier.

Definition Polygon := list Q.

(** [arr[i]] *)
Definition at_ {A : Type} (arr : list A) (i : nat) : option A := nth_error arr i.

(** [arr[i] = v] for an index inside the array. *)
Fixpoint set_at {A : Type} (arr : list A) (i : nat) (v : A) : list A :=
  match arr, i with
  | [], _ => []
  | _ :: t, O => v :: t
  | h :: t, S j => h :: set_at t j v
  end.

(** [arr.slice(start, end)] for natural indices. *)
Definition slice {A : Type} (arr : list A) (start stop : nat) : list A :=
  firstn (stop - start) (skipn start arr).

(** from x(x0, x1) and y(y0, y1) create an 8 value polygon *)
Definition polygonize (x y : Q * Q) : Polygon :=
  [fst x; fst y; snd x; fst y; snd x; snd y; fst x; snd y].

(** ** Results of computations that may throw *)

Inductive result (A : Type) : Type :=
| Ok (a : A)
| Throw
| OutOfFuel.

Arguments Ok {A} a.
Arguments Throw {A}.
Arguments OutOfFuel {A}.

Definition bind {A B : Type} (r : result A) (k : A -> result B) : result B :=
  match r with
  | Ok a => k a
  | Throw => Throw
  | OutOfFuel => OutOfFuel
  end.

Notation "'let*' x ':=' r 'in' k" := (bind r (fun x => k))
  (at level 10, x pattern, r at level 100, k at level 200).

(** A property read [o.f] where [o] may be [undefined]. *)
Definition get {A : Type} (o : option A) : result A :=
  match o with
  | Some a => Ok a
  | None => Throw
  end.

(** ** Geometry: the reading-order comparator *)

(** compares a bounding regions polygon to a reference polygon;
    negative if poly is situated earlier in the page than refPoly,
    0 if poly is situated within/about refPoly,
    positive if poly is situated later in the page than refPoly *)
Definition comparePolygons (poly refPoly : Polygon) : Z :=
  let x := (at_ poly 0, at_ poly 2) in
  let y := (at_ poly 1, at_ poly 5) in
  let refX := (at_ refPoly 0, at_ refPoly 2) in
  let refY := (at_ refPoly 1, at_ refPoly 5) in
  if js_lt (snd y) (fst refY) then (-1)%Z
  else if js_gt (fst y) (snd refY) then 1%Z
  else if js_lt (snd x) (fst refX) then (-2)%Z
  else if js_gt (fst x) (snd refX) then 2%Z
  else 0%Z.

(** ** The document structure (consumed from Document Intelligence) *)

Record Span := { offset : Z; length : Z }.

Record Word := {
  word_content : string;
  word_polygon : Polygon;
  word_span : Span
}.

Record Line := {
  line_content : string;
  line_polygon : Polygon;
  line_spans : list Span
}.

(** One paragraph's footprint on one page; both index pairs are inclusive. *)
Record Region := {
  region_polygon : Polygon;
  lineIndices : nat * nat;
  wordIndices : nat * nat;
  paragraphIndex : nat
}.

Record Page := {
  pageNumber : nat;
  lines : list Line;
  words : list Word;
  regions : option (list Region)
}.

Record AnalyzeResult := { pages : list Page }.

Record DocIntResponse := { analyzeResult : AnalyzeResult }.

(** [pages[pageNumber - 1]]: page numbers are 1-indexed. *)
Definition page_at (response : DocIntResponse) (number : nat) : option Page :=
  match number with
  | O => None
  | S k => at_ (pages (analyzeResult response)) k
  end.

(** ** Complex polygons, bounds and columns *)

Record PolygonC := {
  head : option Polygon;
  body : option Polygon;
  tail : option Polygon
}.

Record PolygonOnPage := {
  polygon : PolygonC;
  page : nat
}.

Record Bounds := {
  bounds_pageNumber : nat;
  bounds_polygon : Polygon
}.

Record CitationRegionsPerPage := {
  crp_page : nat;
  citationRegions : list (list PolygonC)
}.

(** A value found where [convertCitationRegionsToBounds] iterates a
    region ([for (const polyC of region)]): an array of complex polygons,
    as the type [CitationRegionsPerPage] has it, or a complex polygon
    itself, as [returnTextPolygonsFromDI] hands them over. *)
Inductive RegionValue : Type :=
| RegionArray (region : list PolygonC)
| RegionObject (polyC : PolygonC).

(** The argument of [convertCitationRegionsToBounds] as a caller may build
    it. *)
Record CitationRegionsGiven := {
  given_page : nat;
  given_citationRegions : list RegionValue
}.

(** An entry of [results] in [returnTextPolygonsFromDI]: the page and the
    array the [Map<number, PolygonC[]>] holds for it. *)
Record PolygonsPerPage := {
  ppp_page : nat;
  ppp_citationRegions : list PolygonC
}.

(** A located excerpt: the text and its fragments, each a complex polygon
    on a page ([PolygonOnPage]). *)
Record Summary := {
  excerpt : string;
  polygons : list PolygonOnPage
}.

Record Column := {
  column_polygon : Polygon;
  column_lines : list Line
}.

(** A rectangle of [range.getClientRects()]. *)
Record DOMRect := {
  rect_x : Q;
  rect_y : Q;
  rect_width : Q;
  rect_height : Q
}.

(** What [findUserSelection] reads from the document and the window: the
    vertical scroll of the window, the heights of the answer container, the
    navbar and the breadcrumbs, the scroll of the viewer, the width of the
    sidebar and the scroll of the review panel.  The elements are taken to
    exist, so every reading is a number; when one of the first three or the
    sidebar is missing, the code computes with [undefined] and every
    coordinate of the selection becomes NaN, a case the embedding leaves
    out. *)
Record Viewport := {
  scrollY : Q;
  topDiv : Q;
  midDiv : Q;
  lowerDiv : Q;
  viewScrollTop : Q;
  sideDiv : Q;
  scrollLeft : Q
}.

(** ** Strings *)

(** [arr.join(sep)] *)
Definition join (sep : string) (arr : list string) : string :=
  String.concat sep arr.

(** A character of a string is a code unit below 256.  The white space
    and line terminators [trim] removes among them: tab, line feed,
    vertical tab, form feed, carriage return, space and no-break space
    (U+00A0). *)
Definition is_whitespace (c : ascii) : bool :=
  let n := nat_of_ascii c in
  ((9 <=? n) && (n <=? 13))%nat || (n =? 32)%nat || (n =? 160)%nat.

Fixpoint trimStart (s : string) : string :=
  match s with
  | EmptyString => EmptyString
  | String c s' => if is_whitespace c then trimStart s' else s
  end.

Fixpoint trimEnd (s : string) : string :=
  match s with
  | EmptyString => EmptyString
  | String c s' =>
      match trimEnd s' with
      | EmptyString => if is_whitespace c then EmptyString else String c EmptyString
      | t => String c t
      end
  end.

(** [s.trim()] *)
Definition trim (s : string) : string := trimEnd (trimStart s).

Definition string_eqb (a b : string) : bool := String.eqb a b.

(** ** The collaborators of the [./di] module

    The functions below are imported from [./di]; the utilities are
    parametric in them.  [adjacent] takes its tolerance as an optional
    argument ([None] when the call omits it).  [combinePolygons] is used at
    two types: a column's polygon and the complex polygons of a selection. *)

Section Utility.

Variable adjacent : Polygon -> Polygon -> option Q -> bool.
Variable onSameLine : Polygon -> Polygon -> Q -> bool.
Variable flattenPolygon4 : Polygon -> Polygon.
Variable combinePolygons : list Polygon -> Polygon.
Variable combinePolygonsC : list Polygon -> list PolygonC.
Variable toPolygon4 : list Q -> Polygon.
Variable excerptToSummary : string -> DocIntResponse -> Summary.

(** ** Forward mapper: citation regions to bounds *)

Definition is_some {A : Type} (o : option A) : bool :=
  match o with Some _ => true | None => false end.

(** The body of the inner loop of [convertCitationRegionsToBounds]: processes
    one complex polygon and pushes its bounds. *)
Definition convertPolyC (forceOverlap : bool) (page : nat) (polyC : PolygonC)
    (bounds : list Bounds) : list Bounds :=
  let head := head polyC in
  let body := body polyC in
  let tail := tail polyC in
  (* Process head. *)
  let bounds :=
    match head with
    | Some head =>
        let modifiedHead := head in
        let modifiedHead :=
          match tail with
          | Some tail =>
              if forceOverlap && negb (is_some body) then
                let headBottom := Math_max (at_ modifiedHead 5) (at_ modifiedHead 7) in
                let tailTop := Math_min (at_ tail 1) (at_ tail 3) in
                match tailTop with
                | Some tailTop' =>
                    if js_lt headBottom tailTop
                    then set_at (set_at modifiedHead 5 tailTop') 7 tailTop'
                    else modifiedHead
                | None => modifiedHead
                end
              else modifiedHead
          | None => modifiedHead
          end in
        bounds ++ [{| bounds_pageNumber := page; bounds_polygon := modifiedHead |}]
    | None => bounds
    end in
  (* Process body. *)
  let bounds :=
    match body with
    | Some body =>
        let modifiedBody := body in
        let modifiedBody :=
          if forceOverlap then
            let modifiedBody :=
              match head with
              | Some head =>
                  let headBottom := Math_max (at_ head 5) (at_ head 7) in
                  let bodyTop := Math_min (at_ modifiedBody 1) (at_ modifiedBody 3) in
                  match headBottom with
                  | Some headBottom' =>
                      if js_lt headBottom bodyTop
                      then set_at (set_at modifiedBody 1 headBottom') 3 headBottom'
                      else modifiedBody
                  | None => modifiedBody
                  end
              | None => modifiedBody
              end in
            match tail with
            | Some tail =>
                let tailTop := Math_min (at_ tail 1) (at_ tail 3) in
                let bodyBottom := Math_max (at_ modifiedBody 5) (at_ modifiedBody 7) in
                match tailTop with
                | Some tailTop' =>
                    if js_lt bodyBottom tailTop
                    then set_at (set_at modifiedBody 5 tailTop') 7 tailTop'
                    else modifiedBody
                | None => modifiedBody
                end
            | None => modifiedBody
            end
          else modifiedBody in
        bounds ++ [{| bounds_pageNumber := page; bounds_polygon := modifiedBody |}]
    | None => bounds
    end in
  (* Process tail. *)
  match tail with
  | Some tail =>
      bounds ++ [{| bounds_pageNumber := page; bounds_polygon := flattenPolygon4 tail |}]
  | None => bounds
  end.

(** Converts citation regions per page into bounds: three nested loops over
    the pages, the regions of a page and the complex polygons of a region. *)
Definition convertCitationRegionsToBounds
    (citationRegionsPerPage : list CitationRegionsPerPage)
    (forceOverlap : bool) : list Bounds :=
  fold_left
    (fun bounds entry =>
       fold_left
         (fun bounds region =>
            fold_left
              (fun bounds polyC => convertPolyC forceOverlap (crp_page entry) polyC bounds)
              region bounds)
         (citationRegions entry) bounds)
    citationRegionsPerPage [].

(** [for (const polyC of region)]: a complex polygon is an object with the
    properties head, body and tail; it is not iterable and the loop throws
    a TypeError before its first iteration. *)
Definition iterate (region : RegionValue) : result (list PolygonC) :=
  match region with
  | RegionArray region => Ok region
  | RegionObject _ => Throw
  end.

(** [convertCitationRegionsToBounds] on regions of either shape; on arrays
    it is the conversion above.  The bounds pushed before a throw are lost
    with the local array. *)
Definition convertCitationRegionsToBounds_given
    (citationRegionsPerPage : list CitationRegionsGiven)
    (forceOverlap : bool) : result (list Bounds) :=
  fold_left
    (fun acc entry =>
       let* bounds := acc in
       fold_left
         (fun acc region =>
            let* bounds := acc in
            let* region := iterate region in
            Ok (fold_left
                  (fun bounds polyC =>
                     convertPolyC forceOverlap (given_page entry) polyC bounds)
                  region bounds))
         (given_citationRegions entry) (Ok bounds))
    citationRegionsPerPage (Ok []).

(** ** Forward mapper: text to bounds *)

(** [map.get(page)!.push(polygon)] on a [Map] kept in insertion order,
    after [map.set(page, [])] when the key is new. *)
Fixpoint map_push (map : list (nat * list PolygonC)) (page : nat)
    (polygon : PolygonC) : list (nat * list PolygonC) :=
  match map with
  | [] => [(page, [polygon])]
  | (k, v) :: rest =>
      if (k =? page)%nat then (k, v ++ [polygon]) :: rest
      else (k, v) :: map_push rest page polygon
  end.

(** Insertion into a list sorted by page; an entry goes after the entries
    of the same page already there, so the sort is stable. *)
Fixpoint insert_by_page (e : PolygonsPerPage)
    (sorted : list PolygonsPerPage) : list PolygonsPerPage :=
  match sorted with
  | [] => [e]
  | h :: t =>
      if (ppp_page e <? ppp_page h)%nat then e :: h :: t
      else h :: insert_by_page e t
  end.

(** [results.sort((a, b) => a.page - b.page)] *)
Definition sort_by_page (results : list PolygonsPerPage)
  : list PolygonsPerPage :=
  fold_left (fun sorted e => insert_by_page e sorted) results [].

(** The call [convertCitationRegionsToBounds(results, false)]: each entry
    of [results] goes as it is, its [citationRegions] being the complex
    polygons of the [Map]. *)
Definition handOver (entry : PolygonsPerPage) : CitationRegionsGiven :=
  {| given_page := ppp_page entry;
     given_citationRegions := map RegionObject (ppp_citationRegions entry) |}.

Definition returnTextPolygonsFromDI (text : string) (di : DocIntResponse)
  : result (list Bounds) :=
  (* Attempt to find the excerpt in the document *)
  let summary := excerptToSummary text di in
  (* If no excerpt or empty excerpt was found, return an empty array *)
  if string_eqb (excerpt summary) "" ||
     (String.length (trim (excerpt summary)) =? 0)%nat
  then Ok []
  else
    (* Group polygons by page *)
    let map :=
      fold_left
        (fun map fragment => map_push map (page fragment) (polygon fragment))
        (polygons summary) [] in
    (* Transform into the CitationRegionsPerPage structure *)
    let results :=
      fold_left
        (fun results entry =>
           results ++ [{| ppp_page := fst entry;
                          ppp_citationRegions := snd entry |}])
        map [] in
    (* Sort by page ascending *)
    let results := sort_by_page results in
    convertCitationRegionsToBounds_given (List.map handOver results) false.

(** ** Spatial binary search over lines *)

(** starting from lines[axis] and working backward, find the first entry
    in lines that intersects with poly.  The loop decrements [axis] before
    each test and stops below index 0. *)
Fixpoint getFirstPolyIntersectionIndex (lines : list Line) (poly : Polygon)
    (axis : nat) : result nat :=
  match axis with
  | O => Ok O
  | S axis' =>
      let* line := get (at_ lines axis') in
      if (comparePolygons poly (line_polygon line) =? 0)%Z
      then getFirstPolyIntersectionIndex lines poly axis'
      else Ok (S axis')
  end.

(** The forward loop over the entries that follow [lines[axis]]: [rest] is
    [lines.slice(axis + 1)], so the test [axis < lines.length] is the test
    that [rest] is not empty. *)
Fixpoint lastPolyIntersectionFrom (rest : list Line) (poly : Polygon)
    (axis : nat) : nat :=
  match rest with
  | [] => axis
  | line :: rest' =>
      if (comparePolygons poly (line_polygon line) =? 0)%Z
      then lastPolyIntersectionFrom rest' poly (S axis)
      else axis
  end.

(** starting from lines[axis] and working forward, find the last entry in
    lines that intersects with poly *)
Definition getLastPolyIntersectionIndex (lines : list Line) (poly : Polygon)
    (axis : nat) : nat :=
  lastPolyIntersectionFrom (skipn (S axis) lines) poly axis.

(** [Math.floor((end - start) / 2) + start]; computed on integers because
    [end - start] is negative when the window is inverted. *)
Definition midpoint (start end_ : nat) : nat :=
  Z.to_nat ((Z.of_nat end_ - Z.of_nat start) / 2 + Z.of_nat start).

(** searches lines[start, end) (that is, inclusive of start and exclusive of
    end) for poly, in a binary search.  The result is [None] when the
    [switch] falls through and the function returns [undefined]. *)
Fixpoint polygonBinarySearch (fuel : nat) (lines : list Line)
    (start end_ : nat) (poly : Polygon) : result (option (list Line)) :=
  match fuel with
  | O => OutOfFuel
  | S fuel' =>
      (* no data whatsoever *)
      if (end_ =? 0)%nat then Ok (Some [])
      (* no intersections *)
      else if (start =? end_)%nat then Ok (Some [])
      else
        let axis := midpoint start end_ in
        let* line := get (at_ lines axis) in
        let c := comparePolygons poly (line_polygon line) in
        if (c =? -2)%Z || (c =? -1)%Z then
          polygonBinarySearch fuel' lines start axis poly
        else if (c =? 0)%Z then
          let* first := getFirstPolyIntersectionIndex lines poly axis in
          Ok (Some (slice lines first
                      (getLastPolyIntersectionIndex lines poly axis + 1)))
        else if (c =? 1)%Z || (c =? 2)%Z then
          polygonBinarySearch fuel' lines (axis + 1) end_ poly
        else Ok None
  end.

(** ** Offset search over words *)

(** compares offsetRange against refOffset: negative if offsetRange is
    earlier than refOffset, 0 if it contains it, positive if later *)
Definition compareOffsets (offsetRange : Z * Z) (refOffset : Z) : Z :=
  if (snd offsetRange <? refOffset)%Z then (-1)%Z
  else if (fst offsetRange >? refOffset)%Z then 1%Z
  else 0%Z.

Fixpoint getFirstOffsetIntersectionIndex (words : list Word) (axis : nat)
    (offsetRange : Z * Z) : result nat :=
  match axis with
  | O => Ok O
  | S axis' =>
      let* word := get (at_ words axis') in
      if (compareOffsets offsetRange (offset (word_span word)) =? 0)%Z
      then getFirstOffsetIntersectionIndex words axis' offsetRange
      else Ok (S axis')
  end.

Fixpoint lastOffsetIntersectionFrom (rest : list Word) (axis : nat)
    (offsetRange : Z * Z) : nat :=
  match rest with
  | [] => axis
  | word :: rest' =>
      if (compareOffsets offsetRange (offset (word_span word)) =? 0)%Z
      then lastOffsetIntersectionFrom rest' (S axis) offsetRange
      else axis
  end.

Definition getLastOffsetIntersectionIndex (words : list Word) (axis : nat)
    (offsetRange : Z * Z) : nat :=
  lastOffsetIntersectionFrom (skipn (S axis) words) axis offsetRange.

(** searches words[start, end) for the words contained within the offset
    range *)
Fixpoint offsetBinarySearch (fuel : nat) (words : list Word)
    (start end_ : nat) (offsetRange : Z * Z) : result (option (list Word)) :=
  match fuel with
  | O => OutOfFuel
  | S fuel' =>
      if (end_ =? 0)%nat then Ok (Some [])
      else if (start =? end_)%nat then Ok (Some [])
      else
        let axis := midpoint start end_ in
        let* word := get (at_ words axis) in
        let c := compareOffsets offsetRange (offset (word_span word)) in
        if (c =? -1)%Z then
          offsetBinarySearch fuel' words start axis offsetRange
        else if (c =? 0)%Z then
          let* first := getFirstOffsetIntersectionIndex words axis offsetRange in
          Ok (Some (slice words first
                      (getLastOffsetIntersectionIndex words axis offsetRange + 1)))
        else if (c =? 1)%Z then
          offsetBinarySearch fuel' words (axis + 1) end_ offsetRange
        else Ok None
  end.

(** ** Column partitioner *)

(** One iteration of the loop of [splitIntoColumns]; the state is the
    columns pushed so far and [firstLineOfCol]. *)
Definition splitStep (lines : list Line) (state : list Column * nat)
    (currentLine : nat) : result (list Column * nat) :=
  let '(cols, firstLineOfCol) := state in
  let* boundary :=
    if (currentLine =? List.length lines - 1)%nat then Ok true
    else
      let* next := get (at_ lines (currentLine + 1)) in
      let* current := get (at_ lines currentLine) in
      Ok (negb (adjacent (line_polygon next) (line_polygon current) None)) in
  if boundary : bool then
    (* let's wrap up the current column. *)
    let colLines := slice lines firstLineOfCol (currentLine + 1) in
    let polygon := combinePolygons (map line_polygon colLines) in
    Ok (cols ++ [{| column_polygon := polygon; column_lines := colLines |}],
        (currentLine + 1)%nat)
  else Ok (cols, firstLineOfCol).

(** [for (let currentLine = from; currentLine < from + count; currentLine++)] *)
Fixpoint splitLoop (lines : list Line) (count : nat) (currentLine : nat)
    (state : list Column * nat) : result (list Column * nat) :=
  match count with
  | O => Ok state
  | S count' =>
      let* state' := splitStep lines state currentLine in
      splitLoop lines count' (S currentLine) state'
  end.

(** Takes an array of lines and returns an array of Column items, each of
    which is a polygon and an array of lines *)
Definition splitIntoColumns (lines : list Line) : result (list Column) :=
  match lines with
  | [] => Ok [{| column_polygon := []; column_lines := [] |}]
  | [line] => Ok [{| column_polygon := line_polygon line; column_lines := lines |}]
  | _ =>
      let* state := splitLoop lines (List.length lines) 0 ([], O) in
      Ok (fst state)
  end.

(** from an array of Columns, find any where col.polygon intersects with
    poly *)
Definition getRelevantColumns (columns : list Column) (poly : Polygon)
  : list Column :=
  filter (fun col => (comparePolygons (column_polygon col) poly =? 0)%Z) columns.

(** ** Reverse mapper: bounds to text *)

(** [arr.push(...searchResult)]: spreading [undefined] throws. *)
Definition spread {A : Type} (r : option (list A)) : result (list A) := get r.

Definition not_found_text : string := "could not find matching line(s)".

(** The words one bound contributes to the excerpt. *)
Definition wordsOfBound (response : DocIntResponse) (bound : Bounds)
  : result (list Word) :=
  (* page numbers are 1-indexed, thus the subtraction *)
  let* page := get (page_at response (bounds_pageNumber bound)) in
  let lines := lines page in
  let words := words page in
  let* columns := splitIntoColumns lines in
  let relevantColumns := getRelevantColumns columns (bounds_polygon bound) in
  let* intersectingLines :=
    fold_left
      (fun acc col =>
         let* intersectingLines := acc in
         let* found :=
           polygonBinarySearch (S (List.length (column_lines col)))
             (column_lines col) 0 (List.length (column_lines col))
             (bounds_polygon bound) in
         let* found := spread found in
         Ok (intersectingLines ++ found))
      relevantColumns (Ok []) in
  match intersectingLines with
  | [] => Ok []
  | firstLine :: _ =>
      let* firstSpan := get (at_ (line_spans firstLine) 0) in
      let offsetStart := offset firstSpan in
      let* lastLine := get (at_ intersectingLines (List.length intersectingLines - 1)) in
      let* lastSpan := get (at_ (line_spans lastLine) 0) in
      let offsetEnd := (offset lastSpan + length lastSpan)%Z in
      let* intersectingWords :=
        offsetBinarySearch (S (List.length words)) words 0 (List.length words)
          (offsetStart, offsetEnd) in
      let* intersectingWords := spread intersectingWords in
      Ok (filter
            (fun word =>
               (comparePolygons (word_polygon word) (bounds_polygon bound) =? 0)%Z)
            intersectingWords)
  end.

(** Given bounds and a doc int response, find the most likely excerpt text *)
Definition findTextFromBoundingRegions (response : DocIntResponse)
    (bounds : list Bounds) : result string :=
  let* excerptWords :=
    fold_left
      (fun acc bound =>
         let* excerptWords := acc in
         let* found := wordsOfBound response bound in
         Ok (excerptWords ++ found))
      bounds (Ok []) in
  let excerpts := map word_content excerptWords in
  let excerpt := join " " excerpts in
  Ok (if string_eqb excerpt "" then not_found_text else excerpt).

(** ** Reverse mapper: complex polygon to text *)

(** The test of [findTextFromPolygonC] on one candidate word. *)
Definition wordInPolygonC (word : Word) (polygon : PolygonC) : bool :=
  match head polygon with
  | Some head =>
      adjacent (word_polygon word) head (Some (- (5 # 100))) &&
      onSameLine (word_polygon word) head (9 # 10)
  | None => false
  end
  ||
  match body polygon with
  | Some body =>
      adjacent (word_polygon word) body (Some (- (1 # 10))) &&
      onSameLine (word_polygon word) body (9 # 10)
  | None => false
  end
  ||
  match tail polygon with
  | Some tail =>
      adjacent (word_polygon word) tail (Some (- (5 # 100))) &&
      onSameLine (word_polygon word) tail (9 # 10)
  | None => false
  end.

(** [for (const word of regionPossibleWords)] with [excerptWords.push] *)
Fixpoint collectWords (regionPossibleWords : list Word) (polygon : PolygonC)
    (excerptWords : list Word) : list Word :=
  match regionPossibleWords with
  | [] => excerptWords
  | word :: rest =>
      if wordInPolygonC word polygon
      then collectWords rest polygon (excerptWords ++ [word])
      else collectWords rest polygon excerptWords
  end.

(** [incomingPolygonCParagraph] is [None] when the caller passes
    [undefined]; [regions[undefined]] is then [undefined]. *)
Definition findTextFromPolygonC (response : DocIntResponse)
    (incomingPolygonC : PolygonOnPage)
    (incomingPolygonCParagraph : option nat) : result string :=
  let regionPage := page_at response (page incomingPolygonC) in
  let* regionPage := get regionPage in
  let* pageRegions := get (regions regionPage) in
  let polygonRegion :=
    match incomingPolygonCParagraph with
    | Some index => at_ pageRegions index
    | None => None
    end in
  let* polygonRegion := get polygonRegion in
  let regionPossibleWords :=
    slice (words regionPage) (fst (wordIndices polygonRegion))
      (snd (wordIndices polygonRegion) + 1) in
  let excerptWords :=
    collectWords regionPossibleWords (polygon incomingPolygonC) [] in
  let excerpts := map word_content excerptWords in
  Ok (join " " excerpts).

(** [found_paragraphs.add(index)] on a [Set], which keeps insertion order
    and ignores a value it already holds. *)
Definition Set_add (set : list nat) (index : nat) : list nat :=
  if existsb (Nat.eqb index) set then set else set ++ [index].

(** The callback of [pg.regions?.map] in
    [findParagraphFromBoundingPolygonC]. *)
Definition paragraphStep (polyC : PolygonOnPage) (found_paragraphs : list nat)
    (region : Region) (index : nat) : list nat :=
  if match head (polygon polyC) with
     | Some head =>
         onSameLine head (region_polygon region) (9 # 10) &&
         adjacent head (region_polygon region) (Some (1 # 10))
     | None => false
     end
  then Set_add found_paragraphs index
  else if match body (polygon polyC) with
          | Some body =>
              onSameLine (region_polygon region) body (9 # 10) &&
              adjacent body (region_polygon region) (Some (1 # 10))
          | None => false
          end
  then Set_add found_paragraphs index
  else if match tail (polygon polyC) with
          | Some tail =>
              onSameLine (region_polygon region) tail (9 # 10) &&
              adjacent tail (region_polygon region) (Some (1 # 10))
          | None => false
          end
  then Set_add found_paragraphs index
  else found_paragraphs.

(** [regions.map((region, index) => ...)] from position [index] on. *)
Fixpoint paragraphsOfRegions (polyC : PolygonOnPage) (pageRegions : list Region)
    (index : nat) (found_paragraphs : list nat) : list nat :=
  match pageRegions with
  | [] => found_paragraphs
  | region :: rest =>
      paragraphsOfRegions polyC rest (S index)
        (paragraphStep polyC found_paragraphs region index)
  end.

(** The set [found_paragraphs] once the loop over the pages is over. *)
Definition foundParagraphs (response : DocIntResponse) (polyC : PolygonOnPage)
  : list nat :=
  fold_left
    (fun found_paragraphs pg =>
       if negb (pageNumber pg =? page polyC)%nat then found_paragraphs
       else
         match regions pg with
         | Some pageRegions => paragraphsOfRegions polyC pageRegions 0 found_paragraphs
         | None => found_paragraphs
         end)
    (pages (analyzeResult response)) [].

(** The result is [None] when the function ends without a [return]. *)
Definition findParagraphFromBoundingPolygonC (response : DocIntResponse)
    (polyC : PolygonOnPage) : option nat :=
  let found_paragraphs := foundParagraphs response polyC in
  if (1 <? List.length found_paragraphs)%nat then None
  else if (List.length found_paragraphs <=? 0)%nat then None
  else hd_error found_paragraphs.

(** ** Selection pipeline *)

(** The first loop of [findUserSelection]: one polygon per rectangle of
    positive width. *)
Fixpoint selectionPolygonsOf (selectionRects : list DOMRect) : list Polygon :=
  match selectionRects with
  | [] => []
  | rect :: rest =>
      if Qltb 0 (rect_width rect) then
        let rectCoords :=
          [ rect_x rect; rect_y rect;
            js_add (rect_x rect) (rect_width rect); rect_y rect;
            js_add (rect_x rect) (rect_width rect);
            js_add (rect_y rect) (rect_height rect);
            rect_x rect; js_add (rect_y rect) (rect_height rect) ] in
        toPolygon4 rectCoords :: selectionPolygonsOf rest
      else selectionPolygonsOf rest
  end.

(** convert the pixel locations to inches for document intelligence *)
Definition multiplier : Q := 72.

(** [poly[i] = f(poly[i])] on a [Polygon4], whose eight entries exist. *)
Definition update_at (poly : Polygon) (i : nat) (f : Q -> Q) : Polygon :=
  match at_ poly i with
  | Some v => set_at poly i (f v)
  | None => poly
  end.

(** The body of the second loop of [findUserSelection], in the order of the
    assignments. *)
Definition toInches (dx dy : Q) (poly : Polygon) : Polygon :=
  let poly := update_at poly 1 (fun v => round (js_div (js_sub v dy) multiplier) 4) in
  let poly := update_at poly 3 (fun v => round (js_div (js_sub v dy) multiplier) 4) in
  let poly := update_at poly 0 (fun v => round (js_div (js_sub v dx) multiplier) 4) in
  let poly := update_at poly 2 (fun v => round (js_div (js_sub v dx) multiplier) 4) in
  let poly := update_at poly 5 (fun v => round (js_div (js_sub v dy) multiplier) 4) in
  let poly := update_at poly 7 (fun v => round (js_div (js_sub v dy) multiplier) 4) in
  let poly := update_at poly 4 (fun v => round (js_div (js_sub v dx) multiplier) 4) in
  let poly := update_at poly 6 (fun v => round (js_div (js_sub v dx) multiplier) 4) in
  poly.

Definition viewport_dy (view : Viewport) : Q :=
  js_sub
    (js_add (Math_round (scrollY view))
       (js_add (js_add (topDiv view) (midDiv view)) (lowerDiv view)))
    (viewScrollTop view).

Definition viewport_dx (view : Viewport) : Q :=
  js_sub (js_add (Math_round (scrollY view)) (sideDiv view)) (scrollLeft view).

(** The polygons of the selection, in inches. *)
Definition selectionInInches (selectionRects : list DOMRect) (view : Viewport)
  : list Polygon :=
  let selectionPolygons := selectionPolygonsOf selectionRects in
  let dy := viewport_dy view in
  let dx := viewport_dx view in
  map (toInches dx dy) selectionPolygons.

(** Takes in user selection information and a doc int response, creates
    bounds from selection info and finds the most likely excerpt text.
    [selectionRects] is [range.getClientRects()]. *)
Definition findUserSelection (pageNumber : nat) (selectionRects : list DOMRect)
    (view : Viewport) (response : DocIntResponse)
  : result (string * list Bounds) :=
  let selectionPolygons := selectionInInches selectionRects view in
  let complexSelection := combinePolygonsC selectionPolygons in
  let* excerpt :=
    fold_left
      (fun acc c =>
         let* excerpt := acc in
         let complexSelectionOnPage := {| page := pageNumber; polygon := c |} in
         let paragraphId :=
           findParagraphFromBoundingPolygonC response complexSelectionOnPage in
         let* text := findTextFromPolygonC response complexSelectionOnPage paragraphId in
         Ok (excerpt ++ text)%string)
      complexSelection (Ok ""%string) in
  let* bounds := returnTextPolygonsFromDI excerpt response in
  Ok (excerpt, bounds).

(** ** The debug rectangle (client/src/debugUtils.ts) and its overlay *)

(** The rectangle of [range.getBoundingClientRect()]. *)
Record ClientRect := {
  client_top : Q;
  client_left : Q;
  client_bottom : Q;
  client_right : Q
}.

(** What [computeDebugPolygon] reads from the document and the window; an
    element that is missing reads [undefined]. *)
Record DebugReadings := {
  debug_scrollY : Q;
  debug_topDiv : option Q;
  debug_midDiv : option Q;
  debug_lowerDiv : option Q;
  debug_sideDiv : option Q;
  debug_viewScrollTop : option Q;
  debug_scrollLeft : option Q
}.

(** [reading || 0] *)
Definition orZero (reading : option Q) : Q :=
  match reading with
  | Some q => q
  | None => 0
  end.

Definition debug_dy (view : DebugReadings) : Q :=
  js_sub
    (js_add (Math_round (debug_scrollY view))
       (js_add (js_add (orZero (debug_topDiv view)) (orZero (debug_midDiv view)))
          (orZero (debug_lowerDiv view))))
    (orZero (debug_viewScrollTop view)).

Definition debug_dx (view : DebugReadings) : Q :=
  js_sub (js_add (Math_round (debug_scrollY view)) (orZero (debug_sideDiv view)))
    (orZero (debug_scrollLeft view)).

(** The polygon of the bounding rectangle of a range in page space;
    [None] is [undefined].  [pageNumber] is not used. *)
Definition computeDebugPolygon (rect : ClientRect) (pageNumber : nat)
    (view : DebugReadings) : option Polygon :=
  let top := client_top rect in
  let left := client_left rect in
  let bottom := client_bottom rect in
  let right := client_right rect in
  let multiplier := 72 in
  let dy := debug_dy view in
  let dx := debug_dx view in
  let top := js_div (js_sub top dy) multiplier in
  let bottom := js_div (js_sub bottom dy) multiplier in
  let left := js_div (js_sub left dx) multiplier in
  let right := js_div (js_sub right dx) multiplier in
  if Qltb top 0 && Qltb bottom 0 then None
  else if Qltb left 0 && Qltb right 0 then None
  else Some [left; top; right; top; right; bottom; left; bottom].

Record DebugSelection := {
  debug_pageNumber : nat;
  debug_polygon : Polygon
}.

(** The range of the document selection as [selectionChange] looks at it. *)
Record SelectionRange := {
  collapsed : bool;
  insideViewer : bool;
  boundingRect : ClientRect
}.

(** The [selectionChange] callback of the viewer.  [selection] is [None]
    when there is no selection or no range; [pageNumber] is [None] when
    [ux.pageNumber] is undefined.  The result is the [debugSelection] it
    dispatches, [None] when it returns without a dispatch. *)
Definition selectionChange (selection : option SelectionRange)
    (pageNumber : option nat) (view : DebugReadings)
  : option (option DebugSelection) :=
  match selection with
  | None => Some None
  | Some selectionRange =>
      if collapsed selectionRange || negb (insideViewer selectionRange)
      then Some None
      else
        match pageNumber with
        | None => None
        | Some O => None
        | Some pageNumber =>
            match computeDebugPolygon (boundingRect selectionRange) pageNumber view with
            | None => Some None
            | Some debugPolygon =>
                Some (Some {| debug_pageNumber := pageNumber;
                              debug_polygon := debugPolygon |})
            end
        end
  end.

(** [v * multiple] on a value that may be [undefined]. *)
Definition js_times (v : jsnum) (k : Q) : jsnum := option_map (fun q => js_mul q k) v.

(** The [DebugOverlay] component: the four points of its path
    ([M p1 L p2 L p3 L p4 Z]), [None] when it renders nothing. *)
Definition DebugOverlay (debugSelection : option DebugSelection)
    (pageNumber : option nat) : option (list (jsnum * jsnum)) :=
  match debugSelection with
  | None => None
  | Some debugSelection =>
      match pageNumber with
      | None => None
      | Some O => None
      | Some pageNumber =>
          if negb (debug_pageNumber debugSelection =? pageNumber)%nat then None
          else
            let polygon := debug_polygon debugSelection in
            let multiple := 72 in
            Some [ (js_times (at_ polygon 0) multiple, js_times (at_ polygon 1) multiple);
                   (js_times (at_ polygon 2) multiple, js_times (at_ polygon 3) multiple);
                   (js_times (at_ polygon 4) multiple, js_times (at_ polygon 5) multiple);
                   (js_times (at_ polygon 6) multiple, js_times (at_ polygon 7) multiple) ]
      end
  end.

(** ** Vocabulary of the properties *)

(** Edges of a quadrilateral given as eight numbers in reading order
    (top-left, top-right, bottom-right, bottom-left). *)
Definition left_x (p : Polygon) : Q := nth 0 p 0.
Definition top_y (p : Polygon) : Q := nth 1 p 0.
Definition right_x (p : Polygon) : Q := nth 2 p 0.
Definition bottom_y (p : Polygon) : Q := nth 5 p 0.

(** An axis-aligned quadrilateral: eight numbers whose top edge is not below
    the bottom edge and whose left edge is not right of the right edge. *)
Definition axis_aligned (p : Polygon) : Prop :=
  List.length p = 8%nat /\ top_y p <= bottom_y p /\ left_x p <= right_x p.

(** *** The search scheme shared by the two binary searches

    [cmp entry] stands for the comparator applied to the query and the
    entry, in this order, as both searches call it: it is negative when the
    query lies before the entry. *)

Fixpoint firstIntersectionIndex {A : Type} (cmp : A -> Z) (entries : list A)
    (axis : nat) : result nat :=
  match axis with
  | O => Ok O
  | S axis' =>
      let* entry := get (at_ entries axis') in
      if (cmp entry =? 0)%Z then firstIntersectionIndex cmp entries axis'
      else Ok (S axis')
  end.

Fixpoint lastIntersectionFrom {A : Type} (cmp : A -> Z) (rest : list A)
    (axis : nat) : nat :=
  match rest with
  | [] => axis
  | entry :: rest' =>
      if (cmp entry =? 0)%Z then lastIntersectionFrom cmp rest' (S axis)
      else axis
  end.

Definition lastIntersectionIndex {A : Type} (cmp : A -> Z) (entries : list A)
    (axis : nat) : nat :=
  lastIntersectionFrom cmp (skipn (S axis) entries) axis.

Fixpoint binarySearch {A : Type} (cmp : A -> Z) (fuel : nat) (entries : list A)
    (start end_ : nat) : result (option (list A)) :=
  match fuel with
  | O => OutOfFuel
  | S fuel' =>
      if (end_ =? 0)%nat then Ok (Some [])
      else if (start =? end_)%nat then Ok (Some [])
      else
        let axis := midpoint start end_ in
        let* entry := get (at_ entries axis) in
        if (cmp entry <? 0)%Z then binarySearch cmp fuel' entries start axis
        else if (cmp entry =? 0)%Z then
          let* first := firstIntersectionIndex cmp entries axis in
          Ok (Some (slice entries first (lastIntersectionIndex cmp entries axis + 1)))
        else binarySearch cmp fuel' entries (axis + 1) end_
  end.

(** The position of an entry relative to the query: negative when the entry
    lies before the query, zero when they intersect, positive when the entry
    lies after the query.  The comparators take the query first, so this is
    the opposite of the sign they return. *)
Definition entryVsQuery {A : Type} (cmp : A -> Z) (entry : A) : Z :=
  Z.sgn (- cmp entry).

(** All entries that compare negative relative to the query precede all
    entries that compare 0, which precede all entries that compare
    positive. *)
Definition partitionedAround {A : Type} (cmp : A -> Z) (entries : list A) : Prop :=
  forall a b x y,
    (a < b)%nat -> at_ entries a = Some x -> at_ entries b = Some y ->
    (entryVsQuery cmp x <= entryVsQuery cmp y)%Z.

(** [i] and [j] delimit the entries that intersect the query: entries
    before [i] lie before the query, entries from [j] on lie after it. *)
Definition delimits {A : Type} (cmp : A -> Z) (entries : list A) (i j : nat) : Prop :=
  (i <= j <= List.length entries)%nat /\
  forall k x, at_ entries k = Some x ->
    ((k < i)%nat -> (0 < cmp x)%Z) /\
    ((i <= k < j)%nat -> cmp x = 0%Z) /\
    ((j <= k)%nat -> (cmp x < 0)%Z).

(** The comparators as the searches apply them to an entry. *)
Definition lineCmp (poly : Polygon) (line : Line) : Z :=
  comparePolygons poly (line_polygon line).

Definition wordCmp (offsetRange : Z * Z) (word : Word) : Z :=
  compareOffsets offsetRange (offset (word_span word)).

(** Words sorted by span offset, ascending. *)
Definition sortedByOffset (words : list Word) : Prop :=
  forall a b x y,
    (a < b)%nat -> at_ words a = Some x -> at_ words b = Some y ->
    (offset (word_span x) <= offset (word_span y))%Z.

(** *** Collaborators used to run the utilities on concrete documents *)

(** [adjacent] as the comment block at the head of Utility.ts has it (the
    function has since moved to [./di]): true if the polygons overlap or
    are at most [delta] apart on both axes, edges rounded to one decimal;
    [delta] is 0.2 when omitted. *)
Definition adjacent_di (poly0 poly1 : Polygon) (delta : option Q) : bool :=
  let delta := match delta with Some d => d | None => 2 # 10 end in
  let r (v : jsnum) : jsnum := option_map (fun q => round q 1) v in
  let plus (v : jsnum) : jsnum := option_map (fun q => js_add q delta) v in
  let x0 := (r (at_ poly0 0), r (at_ poly0 2)) in
  let y0 := (r (at_ poly0 1), r (at_ poly0 5)) in
  let x1 := (r (at_ poly1 0), r (at_ poly1 2)) in
  let y1 := (r (at_ poly1 1), r (at_ poly1 5)) in
  let noOverlap :=
    js_gt (fst x0) (plus (snd x1)) ||
    js_gt (fst x1) (plus (snd x0)) ||
    js_gt (fst y0) (plus (snd y1)) ||
    js_gt (fst y1) (plus (snd y0)) in
  negb noOverlap.

(** Modelled from the spec: [onSameLine] of [./di], which is not among the
    sources; true if the vertical extents of the two rectangles overlap by
    at least [minOverlapFraction] of the smaller rectangle's height. *)
Definition onSameLine_di (polyA polyB : Polygon) (minOverlapFraction : Q) : bool :=
  let overlap := qmin (bottom_y polyA) (bottom_y polyB)
                 - qmax (top_y polyA) (top_y polyB) in
  let smaller := qmin (bottom_y polyA - top_y polyA) (bottom_y polyB - top_y polyB) in
  Qle_bool (minOverlapFraction * smaller) overlap.

(** Modelled from the spec: [combinePolygons] of [./di] on the lines of a
    column, the union bounding box of the member lines. *)
Definition combinePolygons_di (polys : list Polygon) : Polygon :=
  match polys with
  | [] => []
  | p :: rest =>
      let l := fold_left (fun acc q => qmin acc (left_x q)) rest (left_x p) in
      let t := fold_left (fun acc q => qmin acc (top_y q)) rest (top_y p) in
      let r := fold_left (fun acc q => qmax acc (right_x q)) rest (right_x p) in
      let b := fold_left (fun acc q => qmax acc (bottom_y q)) rest (bottom_y p) in
      polygonize (l, r) (t, b)
  end.

(** Modelled from the spec: [flattenPolygon4] of [./di], flattening to a
    simple rectangle. *)
Definition flattenPolygon4_di (p : Polygon) : Polygon :=
  polygonize (left_x p, right_x p) (top_y p, bottom_y p).

(** Modelled from the spec: [combinePolygons] of [./di] on the rectangles
    of a selection; this stand-in makes each rectangle a complex polygon
    with a head only. *)
Definition combinePolygonsC_di (polys : list Polygon) : list PolygonC :=
  map (fun p => {| head := Some p; body := None; tail := None |}) polys.

(** [toPolygon4] of [./di] is a cast of eight numbers to [Polygon4]. *)
Definition toPolygon4_di (coords : list Q) : Polygon := coords.

(** A text-locate collaborator that finds nothing. *)
Definition excerptToSummary_none (text : string) (di : DocIntResponse) : Summary :=
  {| excerpt := ""; polygons := [] |}.

(** A text-locate collaborator that finds every text in one fragment, a
    head over the first line of page 1. *)
Definition excerptToSummary_first_line (text : string) (di : DocIntResponse)
  : Summary :=
  {| excerpt := text;
     polygons :=
       [ {| polygon := {| head := Some [1; 1; 19 # 10; 1; 19 # 10; 12 # 10; 1; 12 # 10];
                          body := None; tail := None |};
            page := 1 |} ] |}.

(** *** Vocabulary of the mappers *)

(** The lower edge of a quadrilateral as the stitching reads it: the larger
    of its two bottom y-values; and its upper edge, the smaller of its two
    top y-values. *)
Definition bottomOf (p : Polygon) : Q := qmax (nth 5 p 0) (nth 7 p 0).
Definition topOf (p : Polygon) : Q := qmin (nth 1 p 0) (nth 3 p 0).

(** The bounds of one part of a complex polygon, none when it is absent. *)
Definition partBounds (page : nat) (part : option Polygon) : list Bounds :=
  match part with
  | Some p => [{| bounds_pageNumber := page; bounds_polygon := p |}]
  | None => []
  end.

(** Some non-empty part of the complex polygon is on the same line as the
    region polygon (overlap 0.9) and adjacent to it (tolerance 0.1). *)
Definition regionMatches (polyC : PolygonOnPage) (region : Region) : bool :=
  match head (polygon polyC) with
  | Some head =>
      onSameLine head (region_polygon region) (9 # 10) &&
      adjacent head (region_polygon region) (Some (1 # 10))
  | None => false
  end
  ||
  match body (polygon polyC) with
  | Some body =>
      onSameLine (region_polygon region) body (9 # 10) &&
      adjacent body (region_polygon region) (Some (1 # 10))
  | None => false
  end
  ||
  match tail (polygon polyC) with
  | Some tail =>
      onSameLine (region_polygon region) tail (9 # 10) &&
      adjacent tail (region_polygon region) (Some (1 # 10))
  | None => false
  end.

(** A candidate word is accepted by a part of the complex polygon: it is
    adjacent to it with the tolerance of the part and on the same line. *)
Definition acceptedBy (word : Word) (polygon : PolygonC) : Prop :=
  exists part delta,
    ((head polygon = Some part /\ delta = - (5 # 100)) \/
     (body polygon = Some part /\ delta = - (1 # 10)) \/
     (tail polygon = Some part /\ delta = - (5 # 100))) /\
    adjacent (word_polygon word) part (Some delta) = true /\
    onSameLine (word_polygon word) part (9 # 10) = true.

(** An argument of [convertCitationRegionsToBounds] of the declared
    shape, as the function receives it. *)
Definition asGiven (entry : CitationRegionsPerPage) : CitationRegionsGiven :=
  {| given_page := crp_page entry;
     given_citationRegions := map RegionArray (citationRegions entry) |}.

(** The eight coordinates of a screen rectangle, corner by corner from
    the top left clockwise, moved to page space and not yet rounded: every
    x-coordinate loses [dx], every y-coordinate loses [dy], and the
    difference is divided by 72. *)
Definition inPageSpace (dx dy : Q) (rect : DOMRect) : list Q :=
  let px v := js_div (js_sub v dx) 72 in
  let py v := js_div (js_sub v dy) 72 in
  let right := js_add (rect_x rect) (rect_width rect) in
  let bottom := js_add (rect_y rect) (rect_height rect) in
  [ px (rect_x rect); py (rect_y rect); px right; py (rect_y rect);
    px right; py bottom; px (rect_x rect); py bottom ].

(** The polygon [findUserSelection] stores for a screen rectangle. *)
Definition pageSpacePolygon (dx dy : Q) (rect : DOMRect) : Polygon :=
  map (fun v => round v 4) (inPageSpace dx dy rect).

(** [r] is [v] rounded to [places] decimals, as far as doubles allow: [r]
    is the double nearest to a decimal [k / 10 ^ places], and the integer
    [k] is within one half of [v * 10 ^ places], up to the rounding of this
    product to a double (at most [2 ^ -53] of its magnitude). *)
Definition roundedTo (places : nat) (v r : Q) : Prop :=
  exists k : Z,
    r == to_double (inject_Z k / inject_Z (10 ^ Z.of_nat places)) /\
    Qabs (inject_Z k - v * inject_Z (10 ^ Z.of_nat places))
    <= (1 # 2) + Qabs (v * inject_Z (10 ^ Z.of_nat places)) / inject_Z (2 ^ 53).

(** [x] is [a] up to the rounding of two operations on doubles: the two
    differ by at most [2 ^ -51] of the magnitude of [a]. *)
Definition closeTo (a x : Q) : Prop :=
  Qabs (x - a) <= Qabs a / inject_Z (2 ^ 51).


(** A bound finds nothing on its page: the page exists and no column of
    the page intersects the bound, or no line does, or every line has a
    span and no word does. *)
Definition nothingFound (response : DocIntResponse) (bound : Bounds) : Prop :=
  exists pg,
    page_at response (bounds_pageNumber bound) = Some pg /\
    ((forall columns, splitIntoColumns (lines pg) = Ok columns ->
        getRelevantColumns columns (bounds_polygon bound) = []) \/
     (forall line, In line (lines pg) ->
        comparePolygons (bounds_polygon bound) (line_polygon line) <> 0%Z) \/
     ((forall line, In line (lines pg) -> line_spans line <> []) /\
      (forall word, In word (words pg) ->
         comparePolygons (word_polygon word) (bounds_polygon bound) <> 0%Z))).

(** The excerpt is blank: [!excerpt || excerpt.trim().length === 0]. *)
Definition blank (s : string) : bool :=
  string_eqb s "" || (String.length (trim s) =? 0)%nat.

(** *** A sample document

    One page with three lines of two words each and two paragraph regions
    whose polygons overlap on the second line. *)

Definition rectangle (l t r b : Q) : Polygon := polygonize (l, r) (t, b).

Definition mkWord (content : string) (poly : Polygon) (start len : Z) : Word :=
  {| word_content := content; word_polygon := poly;
     word_span := {| offset := start; length := len |} |}.

Definition mkLine (content : string) (poly : Polygon) (start len : Z) : Line :=
  {| line_content := content; line_polygon := poly;
     line_spans := [{| offset := start; length := len |}] |}.

Definition sampleWords : list Word :=
  [ mkWord "First" (rectangle 1 1 (14 # 10) (12 # 10)) 0 5;
    mkWord "line" (rectangle (15 # 10) 1 (19 # 10) (12 # 10)) 6 4;
    mkWord "second" (rectangle 1 (13 # 10) (15 # 10) (15 # 10)) 11 6;
    mkWord "row" (rectangle (16 # 10) (13 # 10) (19 # 10) (15 # 10)) 18 3;
    mkWord "third" (rectangle 1 (16 # 10) (14 # 10) (18 # 10)) 22 5;
    mkWord "one" (rectangle (15 # 10) (16 # 10) (18 # 10) (18 # 10)) 28 3 ].

Definition sampleLines : list Line :=
  [ mkLine "First line" (rectangle 1 1 (19 # 10) (12 # 10)) 0 10;
    mkLine "second row" (rectangle 1 (13 # 10) (19 # 10) (15 # 10)) 11 10;
    mkLine "third one" (rectangle 1 (16 # 10) (18 # 10) (18 # 10)) 22 9 ].

Definition sampleRegions : list Region :=
  [ {| region_polygon := rectangle 1 1 (19 # 10) (15 # 10);
       lineIndices := (0, 1)%nat; wordIndices := (0, 3)%nat;
       paragraphIndex := 0 |};
    {| region_polygon := rectangle 1 (13 # 10) (19 # 10) (18 # 10);
       lineIndices := (1, 2)%nat; wordIndices := (2, 5)%nat;
       paragraphIndex := 1 |} ].

Definition samplePage : Page :=
  {| pageNumber := 1; lines := sampleLines; words := sampleWords;
     regions := Some sampleRegions |}.

Definition sampleResponse : DocIntResponse :=
  {| analyzeResult := {| pages := [samplePage] |} |}.

(** A selection over the second line, which both regions cover. *)
Definition secondLineSelection : PolygonOnPage :=
  {| polygon := {| head := Some (rectangle 1 (13 # 10) (19 # 10) (15 # 10));
                   body := None; tail := None |};
     page := 1 |}.

(** A selection over the first line, which only the first region covers. *)
Definition firstLineSelection : PolygonOnPage :=
  {| polygon := {| head := Some (rectangle 1 1 (19 # 10) (12 # 10));
                   body := None; tail := None |};
     page := 1 |}.

(** Bounds in the empty lower half of the page. *)
Definition emptyAreaBounds : Bounds :=
  {| bounds_pageNumber := 1; bounds_polygon := rectangle 1 5 3 6 |}.

(** A screen rectangle below all the text, and a viewport without chrome
    or scroll. *)
Definition emptyAreaRect : DOMRect :=
  {| rect_x := 72; rect_y := 360; rect_width := 144; rect_height := 72 |}.

Definition plainViewport : Viewport :=
  {| scrollY := 0; topDiv := 0; midDiv := 0; lowerDiv := 0;
     viewScrollTop := 0; sideDiv := 0; scrollLeft := 0 |}.

(** A checker for sequences of integers that never decrease. *)
Fixpoint nondecreasing (l : list Z) : bool :=
  match l with
  | [] => true
  | a :: rest => forallb (Z.leb a) rest && nondecreasing rest
  end.

(** The polygon of the second line of the sample page, and the polygons of
    a head on the first line and a tail on the second. *)
Definition secondLinePolygon : Polygon := rectangle 1 (13 # 10) (19 # 10) (15 # 10).
Definition headOnFirstLine : Polygon := rectangle (15 # 10) 1 (19 # 10) (12 # 10).
Definition tailOnSecondLine : Polygon := rectangle 1 (13 # 10) (15 # 10) (15 # 10).

(** A screen rectangle of width 0, as the browser reports for an empty
    line of a selection. *)
Definition collapsedRect : DOMRect :=
  {| rect_x := 72; rect_y := 72; rect_width := 0; rect_height := 14 |}.

(** A screen rectangle whose top edge is at 52.11 pixels: 52.11 / 72 is
    0.72375 inches, up to the rounding of the doubles. *)
Definition decimalRect : DOMRect :=
  {| rect_x := 72; rect_y := to_double (5211 # 100);
     rect_width := 144; rect_height := 72 |}.

(** The number of lines that are not adjacent (default delta) to the line
    before them. *)
Fixpoint columnBreaks (lines : list Line) : nat :=
  match lines with
  | current :: (next :: _) as rest =>
      (if adjacent (line_polygon next) (line_polygon current) None
       then 0 else 1) + columnBreaks rest
  | _ => O
  end.

(** The words a string of [findTextFromBoundingRegions] is made of come
    from the page of one of the bounds and compare 0 with its polygon. *)
Definition foundUnder (response : DocIntResponse) (bounds : list Bounds)
    (word : Word) : Prop :=
  exists bound pg,
    In bound bounds /\
    page_at response (bounds_pageNumber bound) = Some pg /\
    In word (words pg) /\
    comparePolygons (word_polygon word) (bounds_polygon bound) = 0%Z.






(** The texts of the complex polygons of a selection, one after the other
    without a separator, as [excerpt += ...] builds them. *)
Definition glued (texts : list string) : string :=
  fold_right String.append ""%string texts.

(** The readings of [computeDebugPolygon] when every element exists. *)
Definition readingsOf (view : Viewport) : DebugReadings :=
  {| debug_scrollY := scrollY view;
     debug_topDiv := Some (topDiv view);
     debug_midDiv := Some (midDiv view);
     debug_lowerDiv := Some (lowerDiv view);
     debug_sideDiv := Some (sideDiv view);
     debug_viewScrollTop := Some (viewScrollTop view);
     debug_scrollLeft := Some (scrollLeft view) |}.

(** The bounding rectangle of a single screen rectangle of non-negative
    width and height. *)
Definition clientRectOf (rect : DOMRect) : ClientRect :=
  {| client_top := rect_y rect;
     client_left := rect_x rect;
     client_bottom := js_add (rect_y rect) (rect_height rect);
     client_right := js_add (rect_x rect) (rect_width rect) |}.

(** More of the sample document: the same page before its regions are
    computed, a screen rectangle over the first line, and a range whose
    bounding rectangle is the rectangle below the text. *)
Definition unprocessedResponse : DocIntResponse :=
  {| analyzeResult :=
       {| pages := [{| pageNumber := 1; lines := sampleLines;
                       words := sampleWords; regions := None |}] |} |}.

Definition firstLineRect : DOMRect :=
  {| rect_x := 72; rect_y := 72; rect_width := 65; rect_height := 14 |}.

Definition sampleRange : SelectionRange :=
  {| collapsed := false; insideViewer := true;
     boundingRect := clientRectOf emptyAreaRect |}.

Definition missingPageBounds : Bounds :=
  {| bounds_pageNumber := 7; bounds_polygon := secondLinePolygon |}.

Definition secondLineBounds : Bounds :=
  {| bounds_pageNumber := 1; bounds_polygon := secondLinePolygon |}.

(** * Properties *)

(** ** Double-precision rounding *)

Lemma pow2_pos (e : Z) : 0 < pow2 e.
Proof. apply Qpower_0_lt. reflexivity. Qed.

Lemma pow2_le (a b : Z) : (a <= b)%Z -> pow2 a <= pow2 b.
Proof. intros H. apply Qpower_le_compat_l; [exact H | discriminate]. Qed.

Lemma pow2_plus (a b : Z) : pow2 (a + b) == pow2 a * pow2 b.
Proof. apply Qpower_plus. discriminate. Qed.

Lemma pow2_Z (a : Z) : (0 <= a)%Z -> pow2 a == inject_Z (2 ^ a).
Proof. intros H. unfold pow2. now rewrite Zpower_Qpower. Qed.

(** [floor (log2 x)] for a positive [x]. *)
Lemma ilog2_spec (x : Q) :
  0 < x -> pow2 (ilog2 x) <= x /\ x < pow2 (ilog2 x + 1).
Proof.
  intros Hx. destruct x as [n d]. unfold ilog2. cbn [Qnum Qden].
  assert (Hn : (0 < n)%Z).
  { unfold Qlt in Hx. simpl in Hx. lia. }
  set (a := Z.log2 n). set (b := Z.log2 (Z.pos d)).
  assert (Ha : (0 <= a)%Z) by apply Z.log2_nonneg.
  assert (Hb : (0 <= b)%Z) by apply Z.log2_nonneg.
  destruct (Z.log2_spec n Hn) as [Ha1 Ha2]. fold a in Ha1, Ha2.
  destruct (Z.log2_spec (Z.pos d) (Pos2Z.is_pos d)) as [Hb1 Hb2].
  fold b in Hb1, Hb2.
  assert (Hup : n # d < pow2 (a - b + 1)).
  { assert (E : pow2 (a + 1) == pow2 (a - b + 1) * pow2 b).
    { rewrite <- pow2_plus. now replace (a - b + 1 + b)%Z with (a + 1)%Z by lia. }
    apply Qlt_le_trans with (pow2 (a + 1) / inject_Z (Z.pos d)).
    - rewrite (Qmake_Qdiv n d). apply Qmult_lt_compat_r.
      + apply Qinv_lt_0_compat. reflexivity.
      + rewrite pow2_Z by lia. rewrite <- Zlt_Qlt.
        replace (a + 1)%Z with (Z.succ a) by lia. exact Ha2.
    - apply Qle_shift_div_r; [reflexivity|].
      rewrite E. apply Qmult_le_l; [apply pow2_pos|].
      rewrite pow2_Z by lia. rewrite <- Zle_Qle. exact Hb1. }
  assert (Hlo : pow2 (a - b - 1) < n # d).
  { assert (E : pow2 a == pow2 (a - b - 1) * pow2 (b + 1)).
    { rewrite <- pow2_plus. now replace (a - b - 1 + (b + 1))%Z with a by lia. }
    apply Qlt_le_trans with (pow2 a / inject_Z (Z.pos d)).
    - apply Qlt_shift_div_l; [reflexivity|].
      rewrite E. apply Qmult_lt_l; [apply pow2_pos|].
      rewrite pow2_Z by lia. rewrite <- Zlt_Qlt.
      replace (b + 1)%Z with (Z.succ b) by lia. exact Hb2.
    - rewrite (Qmake_Qdiv n d). apply Qmult_le_compat_r.
      + rewrite pow2_Z by lia. rewrite <- Zle_Qle. exact Ha1.
      + apply Qlt_le_weak, Qinv_lt_0_compat. reflexivity. }
  destruct (Qle_bool (pow2 (a - b)) (n # d)) eqn:E.
  - apply Qle_bool_iff in E. split; [exact E | exact Hup].
  - split; [apply Qlt_le_weak; exact Hlo|].
    replace (a - b - 1 + 1)%Z with (a - b)%Z by lia.
    apply Qnot_le_lt. intros L. apply Qle_bool_iff in L. congruence.
Qed.

Lemma ilog2_unique (x : Q) (e : Z) :
  pow2 e <= x -> x < pow2 (e + 1) -> ilog2 x = e.
Proof.
  intros H1 H2.
  assert (Hx : 0 < x) by (eapply Qlt_le_trans; [apply pow2_pos | exact H1]).
  destruct (ilog2_spec x Hx) as [L1 L2].
  destruct (Z.lt_trichotomy (ilog2 x) e) as [H | [H | H]]; [|exact H|].
  - exfalso. assert (pow2 (ilog2 x + 1) <= pow2 e) by (apply pow2_le; lia).
    lra.
  - exfalso. assert (pow2 (e + 1) <= pow2 (ilog2 x)) by (apply pow2_le; lia).
    lra.
Qed.

Lemma ilog2_comp (x y : Q) : 0 < x -> x == y -> ilog2 x = ilog2 y.
Proof.
  intros Hx E. destruct (ilog2_spec x Hx) as [L1 L2].
  symmetry. apply ilog2_unique; rewrite <- E; assumption.
Qed.

Lemma ilog2_mono (x y : Q) : 0 < x -> x <= y -> (ilog2 x <= ilog2 y)%Z.
Proof.
  intros Hx H.
  assert (Hy : 0 < y) by lra.
  destruct (ilog2_spec x Hx) as [X1 X2]. destruct (ilog2_spec y Hy) as [Y1 Y2].
  destruct (Z_le_gt_dec (ilog2 x) (ilog2 y)) as [L | G]; [exact L|].
  exfalso. assert (pow2 (ilog2 y + 1) <= pow2 (ilog2 x)) by (apply pow2_le; lia).
  lra.
Qed.

(** *** The nearest integer, ties to even *)

Lemma nearest_even_cases (q : Q) :
  let f := Qfloor q in
  (nearest_even q = f /\ q - inject_Z f <= 1 # 2) \/
  (nearest_even q = (f + 1)%Z /\ 1 # 2 <= q - inject_Z f).
Proof.
  intros f. unfold nearest_even. fold f.
  destruct (Qcompare (q - inject_Z f) (1 # 2)) eqn:E.
  - apply (proj2 (Qeq_alt _ _)) in E. destruct (Z.even f); [left | right]; split; auto; lra.
  - apply (proj2 (Qlt_alt _ _)) in E. left. split; [reflexivity | lra].
  - apply (proj2 (Qgt_alt _ _)) in E. right. split; [reflexivity | lra].
Qed.

Lemma nearest_even_error (q : Q) :
  Qabs (inject_Z (nearest_even q) - q) <= 1 # 2.
Proof.
  pose proof (Qfloor_le q) as H1. pose proof (Qlt_floor q) as H2.
  rewrite inject_Z_plus in H2. change (inject_Z 1) with 1 in H2.
  apply Qabs_Qle_condition.
  destruct (nearest_even_cases q) as [[-> H] | [-> H]];
    rewrite ?inject_Z_plus; change (inject_Z 1) with 1; split; lra.
Qed.

Lemma nearest_even_Z (z : Z) : nearest_even (inject_Z z) = z.
Proof.
  unfold nearest_even. rewrite Qfloor_Z.
  assert (E : Qcompare (inject_Z z - inject_Z z) (1 # 2) = Lt).
  { apply (proj1 (Qlt_alt _ _)). lra. }
  now rewrite E.
Qed.

Lemma nearest_even_mono (p q : Q) : p <= q -> (nearest_even p <= nearest_even q)%Z.
Proof.
  intros H. pose proof (Qfloor_resp_le _ _ H) as Hf.
  destruct (Z.eq_dec (Qfloor p) (Qfloor q)) as [E | N].
  - unfold nearest_even. rewrite <- E.
    destruct (Qcompare (p - inject_Z (Qfloor p)) (1 # 2)) eqn:Ep;
      destruct (Qcompare (q - inject_Z (Qfloor p)) (1 # 2)) eqn:Eq;
      try apply (proj2 (Qeq_alt _ _)) in Ep; try apply (proj2 (Qlt_alt _ _)) in Ep; try apply (proj2 (Qgt_alt _ _)) in Ep;
      try apply (proj2 (Qeq_alt _ _)) in Eq; try apply (proj2 (Qlt_alt _ _)) in Eq; try apply (proj2 (Qgt_alt _ _)) in Eq;
      try (exfalso; lra); destruct (Z.even (Qfloor p)); lia.
  - destruct (nearest_even_cases p) as [[-> _] | [-> _]];
      destruct (nearest_even_cases q) as [[-> _] | [-> _]]; lia.
Qed.

Lemma nearest_even_comp (p q : Q) : p == q -> nearest_even p = nearest_even q.
Proof.
  intros E. apply Z.le_antisymm; apply nearest_even_mono; rewrite E; apply Qle_refl.
Qed.

(** *** Rounding a positive number to 53 bits *)

Lemma nearest53_comp (x y : Q) : 0 < x -> x == y -> nearest53 x == nearest53 y.
Proof.
  intros Hx E. unfold nearest53. rewrite <- (ilog2_comp x y Hx E).
  rewrite (nearest_even_comp (x / pow2 (ilog2 x - 52)) (y / pow2 (ilog2 x - 52))).
  - reflexivity.
  - unfold Qdiv. apply Qmult_comp; [exact E | reflexivity].
Qed.

Lemma nearest53_bounds (x : Q) :
  0 < x -> pow2 (ilog2 x) <= nearest53 x <= pow2 (ilog2 x + 1).
Proof.
  intros Hx. destruct (ilog2_spec x Hx) as [L1 L2].
  unfold nearest53. set (e := (ilog2 x - 52)%Z).
  pose proof (pow2_pos e) as He.
  assert (E1 : pow2 (ilog2 x) == inject_Z (2 ^ 52) * pow2 e).
  { rewrite <- pow2_Z by lia. rewrite <- pow2_plus. unfold e.
    now replace (52 + (ilog2 x - 52))%Z with (ilog2 x) by lia. }
  assert (E2 : pow2 (ilog2 x + 1) == inject_Z (2 ^ 53) * pow2 e).
  { rewrite <- pow2_Z by lia. rewrite <- pow2_plus. unfold e.
    now replace (53 + (ilog2 x - 52))%Z with (ilog2 x + 1)%Z by lia. }
  split.
  - rewrite E1. apply Qmult_le_compat_r; [|lra].
    rewrite <- Zle_Qle. rewrite <- (nearest_even_Z (2 ^ 52)).
    apply nearest_even_mono. apply Qle_shift_div_l; [exact He|].
    rewrite <- E1. exact L1.
  - rewrite E2. apply Qmult_le_compat_r; [|lra].
    rewrite <- Zle_Qle. rewrite <- (nearest_even_Z (2 ^ 53)).
    apply nearest_even_mono. apply Qle_shift_div_r; [exact He|].
    rewrite <- E2. lra.
Qed.

Lemma nearest53_pos (x : Q) : 0 < x -> 0 < nearest53 x.
Proof.
  intros Hx. destruct (nearest53_bounds x Hx) as [H _].
  pose proof (pow2_pos (ilog2 x)). lra.
Qed.

Lemma nearest53_mono (x y : Q) : 0 < x -> x <= y -> nearest53 x <= nearest53 y.
Proof.
  intros Hx H. assert (Hy : 0 < y) by lra.
  pose proof (ilog2_mono x y Hx H) as Hl.
  destruct (Z.eq_dec (ilog2 x) (ilog2 y)) as [E | N].
  - unfold nearest53. rewrite <- E. set (e := (ilog2 x - 52)%Z).
    pose proof (pow2_pos e) as He.
    apply Qmult_le_compat_r; [|lra].
    rewrite <- Zle_Qle. apply nearest_even_mono.
    apply Qmult_le_compat_r; [exact H|].
    apply Qlt_le_weak, Qinv_lt_0_compat, He.
  - destruct (nearest53_bounds x Hx) as [_ X]. destruct (nearest53_bounds y Hy) as [Y _].
    assert (pow2 (ilog2 x + 1) <= pow2 (ilog2 y)) by (apply pow2_le; lia).
    lra.
Qed.

Lemma nearest53_error (x : Q) :
  0 < x -> Qabs (nearest53 x - x) <= x / inject_Z (2 ^ 53).
Proof.
  intros Hx. destruct (ilog2_spec x Hx) as [L1 _].
  unfold nearest53. set (e := (ilog2 x - 52)%Z).
  pose proof (pow2_pos e) as He.
  pose proof (nearest_even_error (x / pow2 e)) as Hr.
  set (m := inject_Z (nearest_even (x / pow2 e))) in *.
  assert (E1 : pow2 (ilog2 x) == inject_Z (2 ^ 52) * pow2 e).
  { rewrite <- pow2_Z by lia. rewrite <- pow2_plus. unfold e.
    now replace (52 + (ilog2 x - 52))%Z with (ilog2 x) by lia. }
  assert (Ex : m * pow2 e - x == (m - x / pow2 e) * pow2 e).
  { field. lra. }
  rewrite Ex, Qabs_Qmult, (Qabs_pos (pow2 e)) by lra.
  apply Qle_trans with ((1 # 2) * pow2 e).
  - apply Qmult_le_compat_r; [exact Hr | lra].
  - apply Qle_shift_div_l; [reflexivity|].
    rewrite E1 in L1. change (inject_Z (2 ^ 53)) with (2 * inject_Z (2 ^ 52)).
    lra.
Qed.

(** *** The double nearest to a rational *)

Lemma Qnum_sign (x : Q) :
  (Qnum x = 0%Z /\ x == 0) \/
  ((exists p, Qnum x = Zpos p) /\ 0 < x) \/
  ((exists p, Qnum x = Zneg p) /\ x < 0).
Proof.
  destruct x as [[|p|p] d]; cbn [Qnum].
  - left. split; reflexivity.
  - right. left. split; [now exists p | reflexivity].
  - right. right. split; [now exists p | reflexivity].
Qed.

Lemma to_double_zero (x : Q) : x == 0 -> to_double x == 0.
Proof.
  intros E. destruct (Qnum_sign x) as [[H _] | [[[p H] L] | [[p H] L]]];
    [|exfalso; lra|exfalso; lra].
  unfold to_double. now rewrite H.
Qed.

Lemma to_double_positive (x : Q) : 0 < x -> to_double x == nearest53 x.
Proof.
  intros L0. destruct (Qnum_sign x) as [[_ E] | [[[p H] L] | [[p H] L]]];
    [exfalso; lra| |exfalso; lra].
  unfold to_double. rewrite H. apply Qred_correct.
Qed.

Lemma to_double_negative (x : Q) : x < 0 -> to_double x == - nearest53 (- x).
Proof.
  intros L0. destruct (Qnum_sign x) as [[_ E] | [[[p H] L] | [[p H] L]]];
    [exfalso; lra|exfalso; lra|].
  unfold to_double. rewrite H. apply Qred_correct.
Qed.

Lemma to_double_cases (x : Q) :
  (x == 0 /\ to_double x == 0) \/
  (0 < x /\ to_double x == nearest53 x /\ 0 < to_double x) \/
  (x < 0 /\ to_double x == - nearest53 (- x) /\ to_double x < 0).
Proof.
  destruct (Qnum_sign x) as [[_ E] | [[_ L] | [_ L]]].
  - left. split; [exact E | now apply to_double_zero].
  - right. left. pose proof (to_double_positive x L) as E.
    pose proof (nearest53_pos x L). repeat split; [exact L | exact E | lra].
  - right. right. pose proof (to_double_negative x L) as E.
    assert (L' : 0 < - x) by lra. pose proof (nearest53_pos (- x) L').
    repeat split; [exact L | exact E | lra].
Qed.


Lemma to_double_pos_iff (x : Q) : 0 < to_double x <-> 0 < x.
Proof.
  destruct (to_double_cases x) as [[E H] | [[L [_ H]] | [L [_ H]]]]; split; lra.
Qed.

(** Rounding keeps the order. *)
Lemma to_double_mono (x y : Q) : x <= y -> to_double x <= to_double y.
Proof.
  intros H.
  destruct (to_double_cases x) as [[Ex Hx] | [[Lx [Ex Hx]] | [Lx [Ex Hx]]]];
    destruct (to_double_cases y) as [[Ey Hy] | [[Ly [Ey Hy]] | [Ly [Ey Hy]]]];
    try lra.
  - rewrite Ex, Ey. apply nearest53_mono; assumption.
  - rewrite Ex, Ey. apply Qopp_le_compat. apply nearest53_mono; lra.
Qed.

Lemma to_double_comp (x y : Q) : x == y -> to_double x == to_double y.
Proof.
  intros E. apply Qle_antisym; apply to_double_mono; rewrite E; apply Qle_refl.
Qed.

(** Rounding moves a number by at most [2^-53] of its magnitude. *)
Lemma to_double_error (x : Q) :
  Qabs (to_double x - x) <= Qabs x / inject_Z (2 ^ 53).
Proof.
  destruct (to_double_cases x) as [[Ex Hx] | [[Lx [Ex Hx]] | [Lx [Ex Hx]]]].
  - rewrite Hx, Ex. discriminate.
  - rewrite Ex, (Qabs_pos x) by lra. now apply nearest53_error.
  - rewrite Ex, (Qabs_neg x) by lra.
    assert (L : 0 < - x) by lra. pose proof (nearest53_error (- x) L) as H.
    assert (E : - nearest53 (- x) - x == - (nearest53 (- x) - - x)) by ring.
    rewrite E, Qabs_opp. exact H.
Qed.

(** ** Rounding to decimals *)

Lemma pow10_pos (precision : nat) : 0 < pow10 precision.
Proof.
  unfold pow10. apply to_double_pos_iff.
  replace 0 with (inject_Z 0) by reflexivity.
  rewrite <- Zlt_Qlt. apply Z.pow_pos_nonneg; lia.
Qed.

Lemma pow10_exact (precision : nat) :
  (precision <= 22)%nat ->
  pow10 precision == inject_Z (10 ^ Z.of_nat precision).
Proof.
  intros H.
  do 23 (destruct precision as [|precision]; [vm_compute; reflexivity|]).
  lia.
Qed.

Lemma Math_round_bounds (v : Q) :
  v - (1 # 2) < Math_round v /\ Math_round v <= v + (1 # 2).
Proof.
  unfold Math_round.
  pose proof (Qfloor_le (v + (1 # 2))) as Hle.
  pose proof (Qlt_floor (v + (1 # 2))) as Hlt.
  rewrite inject_Z_plus in Hlt. change (inject_Z 1) with 1 in Hlt.
  split; lra.
Qed.

Lemma Math_round_monotone (v w : Q) : v <= w -> Math_round v <= Math_round w.
Proof.
  intros H. unfold Math_round. rewrite <- Zle_Qle.
  apply Qfloor_resp_le. lra.
Qed.

Lemma scaled_round_le (v w m : Q) :
  0 < m -> v <= w ->
  js_div (Math_round (js_mul v m)) m <= js_div (Math_round (js_mul w m)) m.
Proof.
  intros Hm H. unfold js_div, js_mul.
  apply to_double_mono. apply Qmult_le_compat_r.
  - apply Math_round_monotone. apply to_double_mono.
    apply Qmult_le_compat_r; [exact H | lra].
  - apply Qlt_le_weak, Qinv_lt_0_compat, Hm.
Qed.

(** What [round] returns is the value rounded to the decimals asked for,
    in the sense of [roundedTo]. *)
Lemma round_roundedTo (value : Q) (precision : nat) :
  (precision <= 22)%nat -> roundedTo precision value (round value precision).
Proof.
  intros Hp. pose proof (pow10_exact precision Hp) as Em.
  unfold round, roundedTo, js_div, js_mul, Math_round. cbv zeta.
  set (m := pow10 precision) in *.
  set (M := inject_Z (10 ^ Z.of_nat precision)) in *.
  exists (Qfloor (to_double (value * m) + (1 # 2))). split.
  - apply to_double_comp. unfold Qdiv.
    apply Qmult_comp; [reflexivity | apply Qinv_comp; exact Em].
  - pose proof (Math_round_bounds (to_double (value * m))) as [B1 B2].
    unfold Math_round in B1, B2.
    pose proof (to_double_error (value * m)) as E.
    assert (Ev : value * M == value * m).
    { apply Qmult_comp; [reflexivity | symmetry; exact Em]. }
    rewrite Ev.
    set (k := inject_Z (Qfloor (to_double (value * m) + (1 # 2)))) in *.
    set (t := to_double (value * m)) in *.
    set (bound := Qabs (value * m) / inject_Z (2 ^ 53)) in *.
    apply (proj1 (Qabs_Qle_condition _ _)) in E.
    apply Qabs_Qle_condition. lra.
Qed.

(** ** The comparator *)

Lemma Qltb_lt (x y : Q) : Qltb x y = true <-> x < y.
Proof.
  unfold Qltb. rewrite negb_true_iff. split.
  - intros H. apply Qnot_le_lt. intros L. apply Qle_bool_iff in L. congruence.
  - intros H. destruct (Qle_bool y x) eqn:E; [|reflexivity].
    apply Qle_bool_iff in E. exfalso. exact (Qlt_not_le _ _ H E).
Qed.

Lemma Qltb_nlt (x y : Q) : Qltb x y = false <-> ~ x < y.
Proof.
  rewrite <- Qltb_lt. destruct (Qltb x y); split; congruence.
Qed.

Lemma at_nth (p : Polygon) (i : nat) :
  (i < List.length p)%nat -> at_ p i = Some (nth i p 0).
Proof.
  intros H. unfold at_. revert i H.
  induction p as [|a p IH]; intros [|i] H; simpl in *; try lia; auto.
  apply IH. lia.
Qed.

Lemma comparePolygons_unfold (poly refPoly : Polygon) :
  List.length poly = 8%nat -> List.length refPoly = 8%nat ->
  comparePolygons poly refPoly =
    if Qltb (bottom_y poly) (top_y refPoly) then (-1)%Z
    else if Qltb (bottom_y refPoly) (top_y poly) then 1%Z
    else if Qltb (right_x poly) (left_x refPoly) then (-2)%Z
    else if Qltb (right_x refPoly) (left_x poly) then 2%Z
    else 0%Z.
Proof.
  intros Hp Hr. unfold comparePolygons, js_gt, js_lt. cbn [fst snd].
  rewrite !at_nth by lia. reflexivity.
Qed.

Lemma comparePolygons_range (poly refPoly : Polygon) :
  In (comparePolygons poly refPoly) [-2; -1; 0; 1; 2]%Z.
Proof.
  unfold comparePolygons.
  repeat match goal with |- context [if ?b then _ else _] => destruct b end;
    simpl; auto 6.
Qed.

(** C7. For axis-aligned quadrilaterals, [comparePolygons poly refPoly] is
    [-1] when [poly] lies strictly above [refPoly] and [+1] when strictly
    below; when the vertical extents overlap it is [-2] when [poly] lies
    strictly left of [refPoly], [+2] when strictly right, and [0] when the
    extents overlap on both axes. *)
Theorem comparePolygons_reading_order (poly refPoly : Polygon) :
  axis_aligned poly -> axis_aligned refPoly ->
  let c := comparePolygons poly refPoly in
  let above := bottom_y poly < top_y refPoly in
  let below := bottom_y refPoly < top_y poly in
  let leftof := right_x poly < left_x refPoly in
  let rightof := right_x refPoly < left_x poly in
  (above -> c = (-1)%Z) /\
  (below -> c = 1%Z) /\
  (~ above -> ~ below -> leftof -> c = (-2)%Z) /\
  (~ above -> ~ below -> rightof -> c = 2%Z) /\
  (~ above -> ~ below -> ~ leftof -> ~ rightof -> c = 0%Z).
Proof.
  intros (Hp & Hpy & Hpx) (Hr & Hry & Hrx). cbv zeta.
  rewrite comparePolygons_unfold by assumption.
  destruct (Qltb (bottom_y poly) (top_y refPoly)) eqn:E1;
  destruct (Qltb (bottom_y refPoly) (top_y poly)) eqn:E2;
  destruct (Qltb (right_x poly) (left_x refPoly)) eqn:E3;
  destruct (Qltb (right_x refPoly) (left_x poly)) eqn:E4;
  repeat match goal with
  | H : Qltb _ _ = true |- _ => apply Qltb_lt in H
  | H : Qltb _ _ = false |- _ => apply Qltb_nlt in H
  end;
  repeat split; intros; try reflexivity; try contradiction;
  exfalso;
  repeat match goal with
  | H : ~ _ < _ |- _ => apply Qnot_lt_le in H
  end.
  all: try (apply (Qlt_irrefl (top_y poly));
            eapply Qle_lt_trans; [exact Hpy|];
            eapply Qlt_le_trans; [eassumption|];
            eapply Qle_trans; [exact Hry|]; apply Qlt_le_weak; assumption).
  all: try (apply (Qlt_irrefl (left_x poly));
            eapply Qle_lt_trans; [exact Hpx|];
            eapply Qlt_le_trans; [eassumption|];
            eapply Qle_trans; [exact Hrx|]; apply Qlt_le_weak; assumption).
Qed.

(** ** The search scheme *)

Section SearchProperties.

Context {A : Type} (cmp : A -> Z).

Lemma midpoint_bounds (start end_ : nat) :
  (start < end_)%nat -> (start <= midpoint start end_ < end_)%nat.
Proof.
  intros H. unfold midpoint.
  assert (D : (0 <= (Z.of_nat end_ - Z.of_nat start) / 2
               < Z.of_nat end_ - Z.of_nat start)%Z).
  { split; [apply Z.div_pos; lia | apply Z.div_lt; lia]. }
  lia.
Qed.

Lemma at_Some_lt {B : Type} (l : list B) (k : nat) (x : B) :
  at_ l k = Some x -> (k < List.length l)%nat.
Proof.
  intros H. apply nth_error_Some. unfold at_ in H. congruence.
Qed.

Lemma at_lt_Some {B : Type} (l : list B) (k : nat) :
  (k < List.length l)%nat -> exists x, at_ l k = Some x.
Proof.
  intros H. unfold at_. destruct (nth_error l k) eqn:E; eauto.
  apply nth_error_None in E. lia.
Qed.

(** An empty window, or [end == 0], ends the search at once. *)
Lemma binarySearch_empty_window (fuel : nat) (entries : list A) (start : nat) :
  binarySearch cmp (S fuel) entries start start = Ok (Some []).
Proof.
  simpl. destruct (start =? 0)%nat; [reflexivity|].
  now rewrite Nat.eqb_refl.
Qed.

Lemma binarySearch_end_zero (fuel : nat) (entries : list A) (start : nat) :
  binarySearch cmp (S fuel) entries start 0 = Ok (Some []).
Proof. reflexivity. Qed.

(** Without an intersecting entry in the window the search returns the
    empty list, whatever the order of the entries. *)
Lemma binarySearch_no_match (entries : list A) (fuel start end_ : nat) :
  (start <= end_ <= List.length entries)%nat ->
  (end_ - start < fuel)%nat ->
  (forall k x, (start <= k < end_)%nat -> at_ entries k = Some x -> cmp x <> 0%Z) ->
  binarySearch cmp fuel entries start end_ = Ok (Some []).
Proof.
  revert start end_.
  induction fuel as [|fuel IH]; intros start end_ Hw Hf Hn; [lia|].
  simpl.
  destruct (end_ =? 0)%nat eqn:E0; [reflexivity|].
  destruct (start =? end_)%nat eqn:Ese; [reflexivity|].
  apply Nat.eqb_neq in E0, Ese.
  pose proof (midpoint_bounds start end_ ltac:(lia)) as Hm.
  destruct (at_lt_Some entries (midpoint start end_) ltac:(lia)) as [x Hx].
  rewrite Hx. simpl.
  destruct (cmp x <? 0)%Z eqn:Elt.
  - apply IH; [lia | lia |]. intros k y Hk. apply Hn. lia.
  - destruct (cmp x =? 0)%Z eqn:Eeq.
    + apply Z.eqb_eq in Eeq. exfalso. exact (Hn _ _ Hm Hx Eeq).
    + apply IH; [lia | lia |]. intros k y Hk. apply Hn. lia.
Qed.

Lemma delimits_zero_iff (entries : list A) (i j k : nat) (x : A) :
  delimits cmp entries i j -> at_ entries k = Some x ->
  (cmp x = 0%Z <-> (i <= k < j)%nat).
Proof.
  intros [_ H] Hx. destruct (H k x Hx) as (H1 & H2 & H3).
  split; [|exact H2]. intros Hz.
  destruct (Nat.lt_ge_cases k i) as [L|L]; [specialize (H1 L); lia|].
  destruct (Nat.lt_ge_cases k j) as [L'|L']; [lia|specialize (H3 L'); lia].
Qed.

Lemma delimits_tail (x : A) (rest : list A) (i j : nat) :
  delimits cmp (x :: rest) (S i) (S j) -> delimits cmp rest i j.
Proof.
  intros [Hb H]. split; [simpl in Hb; lia|].
  intros k y Hy. destruct (H (S k) y Hy) as (H1 & H2 & H3).
  repeat split; intros; [apply H1 | apply H2 | apply H3]; lia.
Qed.

Lemma partitionedAround_tail (x : A) (rest : list A) :
  partitionedAround cmp (x :: rest) -> partitionedAround cmp rest.
Proof.
  intros H a b y z Hab Hy Hz. apply (H (S a) (S b)); [lia | exact Hy | exact Hz].
Qed.

(** A partitioned sequence has such delimiters. *)
Lemma partitionedAround_delimits (entries : list A) :
  partitionedAround cmp entries -> exists i j, delimits cmp entries i j.
Proof.
  induction entries as [|x rest IH]; intros Hp.
  - exists O, O. split; [simpl; lia|]. intros k y Hy. destruct k; discriminate.
  - destruct (IH (partitionedAround_tail _ _ Hp)) as (i & j & [Hb Hd]).
    assert (Hx : forall k y, at_ rest k = Some y ->
                   (entryVsQuery cmp x <= entryVsQuery cmp y)%Z).
    { intros k y Hy. apply (Hp O (S k)); [lia | reflexivity | exact Hy]. }
    unfold entryVsQuery in Hx.
    destruct (Z.lt_trichotomy (cmp x) 0) as [Lx | [Ex | Gx]].
    + (* the first entry already lies after the query *)
      exists O, O. split; [simpl; lia|].
      intros [|k] y Hy; repeat split; intros; try lia.
      * simpl in Hy. injection Hy as <-. exact Lx.
      * specialize (Hx k y Hy). lia.
    + (* the first entry intersects the query *)
      assert (i = O) as ->.
      { destruct i as [|i]; [reflexivity|]. exfalso.
        destruct (at_lt_Some rest O ltac:(lia)) as [y Hy].
        destruct (Hd O y Hy) as (H1 & _). specialize (H1 ltac:(lia)).
        specialize (Hx O y Hy). lia. }
      exists O, (S j). split; [simpl; lia|].
      intros [|k] y Hy.
      * simpl in Hy. injection Hy as <-. repeat split; intros; lia.
      * destruct (Hd k y Hy) as (H1 & H2 & H3).
        repeat split; intros; [lia | apply H2; lia | apply H3; lia].
    + (* the first entry lies before the query *)
      exists (S i), (S j). split; [simpl; lia|].
      intros [|k] y Hy.
      * simpl in Hy. injection Hy as <-. repeat split; intros; lia.
      * destruct (Hd k y Hy) as (H1 & H2 & H3).
        repeat split; intros; [apply H1; lia | apply H2; lia | apply H3; lia].
Qed.

(** The backward expansion from any intersecting index stops at [i]. *)
Lemma firstIntersectionIndex_delimits (entries : list A) (i j d : nat) :
  delimits cmp entries i j -> (i + d <= j)%nat ->
  firstIntersectionIndex cmp entries (i + d) = Ok i.
Proof.
  intros [Hb Hd]. induction d as [|d IH]; intros Hj.
  - rewrite Nat.add_0_r. destruct i as [|i]; [reflexivity|].
    simpl. destruct (at_lt_Some entries i ltac:(lia)) as [x Hx].
    rewrite Hx. simpl.
    destruct (Hd i x Hx) as (H1 & _). specialize (H1 ltac:(lia)).
    destruct (cmp x =? 0)%Z eqn:E; [apply Z.eqb_eq in E; lia | reflexivity].
  - replace (i + S d)%nat with (S (i + d)) by lia. simpl.
    destruct (at_lt_Some entries (i + d) ltac:(lia)) as [x Hx].
    rewrite Hx. simpl.
    destruct (Hd (i + d)%nat x Hx) as (_ & H2 & _). rewrite (H2 ltac:(lia)).
    simpl. apply IH. lia.
Qed.

Lemma lastIntersectionFrom_run (rest : list A) (axis m : nat) :
  (m <= List.length rest)%nat ->
  (forall k x, at_ rest k = Some x ->
     ((k < m)%nat -> cmp x = 0%Z) /\ (k = m -> cmp x <> 0%Z)) ->
  lastIntersectionFrom cmp rest axis = (axis + m)%nat.
Proof.
  revert axis m. induction rest as [|x rest IH]; intros axis m Hm H.
  - simpl in *. lia.
  - simpl. destruct (H O x eq_refl) as (H1 & H2).
    destruct m as [|m].
    + destruct (cmp x =? 0)%Z eqn:E; [apply Z.eqb_eq in E; now destruct H2 | lia].
    + rewrite (H1 ltac:(lia)). simpl.
      rewrite (IH (S axis) m); [lia | simpl in Hm; lia |].
      intros k y Hy. destruct (H (S k) y Hy) as (H3 & H4).
      split; intros; [apply H3 | apply H4]; lia.
Qed.

(** The forward expansion from any intersecting index stops at [j - 1]. *)
Lemma lastIntersectionIndex_delimits (entries : list A) (i j axis : nat) :
  delimits cmp entries i j -> (i <= axis < j)%nat ->
  lastIntersectionIndex cmp entries axis = (j - 1)%nat.
Proof.
  intros [Hb Hd] Ha. unfold lastIntersectionIndex.
  rewrite (lastIntersectionFrom_run _ axis (j - 1 - axis)).
  - lia.
  - rewrite length_skipn. lia.
  - intros k x Hx. unfold at_ in Hx. rewrite nth_error_skipn in Hx.
    destruct (Hd _ x Hx) as (_ & H2 & H3).
    split; intros; [apply H2; lia | specialize (H3 ltac:(lia)); lia].
Qed.

(** In a partitioned sequence, a window that holds an intersecting index
    yields the whole run of intersecting entries. *)
Lemma binarySearch_hit (entries : list A) (i j fuel start end_ : nat) :
  delimits cmp entries i j ->
  (start <= end_ <= List.length entries)%nat ->
  (end_ - start < fuel)%nat ->
  (exists k, (start <= k < end_)%nat /\ (i <= k < j)%nat) ->
  binarySearch cmp fuel entries start end_ = Ok (Some (slice entries i j)).
Proof.
  intros Hd. revert start end_.
  induction fuel as [|fuel IH]; intros start end_ Hw Hf (k & Hk & Hkm); [lia|].
  simpl.
  destruct (end_ =? 0)%nat eqn:E0; [apply Nat.eqb_eq in E0; lia|].
  destruct (start =? end_)%nat eqn:Ese; [apply Nat.eqb_eq in Ese; lia|].
  pose proof (midpoint_bounds start end_ ltac:(lia)) as Hm.
  destruct (at_lt_Some entries (midpoint start end_) ltac:(lia)) as [x Hx].
  rewrite Hx. simpl.
  pose proof (delimits_zero_iff _ _ _ _ _ Hd Hx) as Hz.
  pose proof Hd as [Hb Hd'].
  destruct (Hd' _ x Hx) as (H1 & H2 & H3).
  destruct (cmp x <? 0)%Z eqn:Elt.
  - apply Z.ltb_lt in Elt.
    apply IH; [lia | lia |]. exists k. split; [|lia].
    destruct (Nat.lt_ge_cases (midpoint start end_) i) as [L|L];
      [specialize (H1 L); lia|].
    destruct (Nat.lt_ge_cases (midpoint start end_) j) as [L'|L'];
      [specialize (H2 ltac:(lia)); lia | lia].
  - apply Z.ltb_ge in Elt.
    destruct (cmp x =? 0)%Z eqn:Eeq.
    + apply Z.eqb_eq in Eeq. apply Hz in Eeq.
      replace (midpoint start end_) with (i + (midpoint start end_ - i))%nat at 1
        by lia.
      rewrite (firstIntersectionIndex_delimits entries i j) by (assumption || lia).
      simpl.
      rewrite (lastIntersectionIndex_delimits entries i j) by (assumption || lia).
      do 3 f_equal. lia.
    + apply Z.eqb_neq in Eeq.
      apply IH; [lia | lia |]. exists k. split; [|lia].
      destruct (Nat.lt_ge_cases (midpoint start end_) i) as [L|L]; [lia|].
      destruct (Nat.lt_ge_cases (midpoint start end_) j) as [L'|L'];
        [specialize (H2 ltac:(lia)); lia | specialize (H3 L'); lia].
Qed.

(** The run of intersecting entries is what a filter would keep. *)
Lemma filter_delimits (entries : list A) (i j : nat) :
  delimits cmp entries i j ->
  filter (fun x => (cmp x =? 0)%Z) entries = slice entries i j.
Proof.
  revert i j. induction entries as [|x rest IH]; intros i j Hd.
  - unfold slice. now rewrite skipn_nil, firstn_nil.
  - pose proof Hd as [Hb H]. destruct (H O x eq_refl) as (H1 & H2 & H3).
    simpl. destruct i as [|i], j as [|j]; try lia.
    + specialize (H3 ltac:(lia)).
      destruct (cmp x =? 0)%Z eqn:E; [apply Z.eqb_eq in E; lia|].
      unfold slice. simpl.
      assert (Hr : delimits cmp rest O O).
      { split; [simpl; lia|]. intros k y Hy.
        destruct (H (S k) y Hy) as (_ & _ & H6).
        repeat split; intros; try lia; apply H6; lia. }
      now rewrite (IH _ _ Hr).
    + rewrite (H2 ltac:(lia)). simpl. unfold slice. simpl.
      assert (Hr : delimits cmp rest O j).
      { split; [simpl in Hb; lia|]. intros k y Hy.
        destruct (H (S k) y Hy) as (_ & H5 & H6).
        repeat split; intros; try lia; (apply H5 || apply H6); lia. }
      rewrite (IH _ _ Hr). unfold slice. simpl. now rewrite Nat.sub_0_r.
    + specialize (H1 ltac:(lia)).
      destruct (cmp x =? 0)%Z eqn:E; [apply Z.eqb_eq in E; lia|].
      rewrite (IH _ _ (delimits_tail _ _ _ _ Hd)). reflexivity.
Qed.

(** The whole sequence as window. *)
Lemma binarySearch_whole (entries : list A) (i j fuel : nat) :
  delimits cmp entries i j ->
  (List.length entries < fuel)%nat ->
  binarySearch cmp fuel entries 0 (List.length entries)
  = Ok (Some (slice entries i j)).
Proof.
  intros Hd Hf. destruct (Nat.eq_dec i j) as [->|Hij].
  - replace (slice entries j j) with (@nil A)
      by (unfold slice; now rewrite Nat.sub_diag).
    apply binarySearch_no_match; [lia | lia |].
    intros k x _ Hx Hz. apply (delimits_zero_iff _ _ _ _ _ Hd Hx) in Hz. lia.
  - pose proof Hd as [Hb _].
    apply (binarySearch_hit entries i j); [exact Hd | lia | lia |].
    exists i. lia.
Qed.

End SearchProperties.

(** ** The two binary searches follow the scheme *)

Lemma getFirstPolyIntersectionIndex_scheme (lines : list Line) (poly : Polygon)
    (axis : nat) :
  getFirstPolyIntersectionIndex lines poly axis
  = firstIntersectionIndex (lineCmp poly) lines axis.
Proof.
  induction axis as [|axis IH]; [reflexivity|].
  simpl. destruct (at_ lines axis); [|reflexivity].
  simpl. unfold lineCmp at 1. now rewrite IH.
Qed.

Lemma getLastPolyIntersectionIndex_scheme (lines : list Line) (poly : Polygon)
    (axis : nat) :
  getLastPolyIntersectionIndex lines poly axis
  = lastIntersectionIndex (lineCmp poly) lines axis.
Proof.
  unfold getLastPolyIntersectionIndex, lastIntersectionIndex.
  generalize (skipn (S axis) lines). intros rest. revert axis.
  induction rest as [|line rest IH]; intros axis; [reflexivity|].
  simpl. unfold lineCmp at 1. now rewrite IH.
Qed.

Lemma polygonBinarySearch_scheme (fuel : nat) (lines : list Line)
    (start end_ : nat) (poly : Polygon) :
  polygonBinarySearch fuel lines start end_ poly
  = binarySearch (lineCmp poly) fuel lines start end_.
Proof.
  revert start end_. induction fuel as [|fuel IH]; intros start end_;
    [reflexivity|].
  simpl. destruct (end_ =? 0)%nat; [reflexivity|].
  destruct (start =? end_)%nat; [reflexivity|].
  destruct (at_ lines (midpoint start end_)) as [line|]; [|reflexivity].
  simpl.
  rewrite getFirstPolyIntersectionIndex_scheme,
    getLastPolyIntersectionIndex_scheme, !IH.
  pose proof (comparePolygons_range poly (line_polygon line)) as Hr.
  change (lineCmp poly line) with (comparePolygons poly (line_polygon line)).
  simpl in Hr.
  destruct Hr as [<- | [<- | [<- | [<- | [<- | []]]]]]; reflexivity.
Qed.

Lemma compareOffsets_range (offsetRange : Z * Z) (refOffset : Z) :
  In (compareOffsets offsetRange refOffset) [-1; 0; 1]%Z.
Proof.
  unfold compareOffsets.
  destruct (snd offsetRange <? refOffset)%Z; [simpl; auto|].
  destruct (fst offsetRange >? refOffset)%Z; simpl; auto.
Qed.

Lemma getFirstOffsetIntersectionIndex_scheme (words : list Word) (axis : nat)
    (offsetRange : Z * Z) :
  getFirstOffsetIntersectionIndex words axis offsetRange
  = firstIntersectionIndex (wordCmp offsetRange) words axis.
Proof.
  induction axis as [|axis IH]; [reflexivity|].
  simpl. destruct (at_ words axis); [|reflexivity].
  simpl. unfold wordCmp at 1. now rewrite IH.
Qed.

Lemma getLastOffsetIntersectionIndex_scheme (words : list Word) (axis : nat)
    (offsetRange : Z * Z) :
  getLastOffsetIntersectionIndex words axis offsetRange
  = lastIntersectionIndex (wordCmp offsetRange) words axis.
Proof.
  unfold getLastOffsetIntersectionIndex, lastIntersectionIndex.
  generalize (skipn (S axis) words). intros rest. revert axis.
  induction rest as [|word rest IH]; intros axis; [reflexivity|].
  simpl. unfold wordCmp at 1. now rewrite IH.
Qed.

Lemma offsetBinarySearch_scheme (fuel : nat) (words : list Word)
    (start end_ : nat) (offsetRange : Z * Z) :
  offsetBinarySearch fuel words start end_ offsetRange
  = binarySearch (wordCmp offsetRange) fuel words start end_.
Proof.
  revert start end_. induction fuel as [|fuel IH]; intros start end_;
    [reflexivity|].
  simpl. destruct (end_ =? 0)%nat; [reflexivity|].
  destruct (start =? end_)%nat; [reflexivity|].
  destruct (at_ words (midpoint start end_)) as [word|]; [|reflexivity].
  simpl.
  rewrite getFirstOffsetIntersectionIndex_scheme,
    getLastOffsetIntersectionIndex_scheme, !IH.
  pose proof (compareOffsets_range offsetRange (offset (word_span word))) as Hr.
  change (wordCmp offsetRange word)
    with (compareOffsets offsetRange (offset (word_span word))).
  simpl in Hr.
  destruct Hr as [<- | [<- | [<- | []]]]; reflexivity.
Qed.

(** What the scheme guarantees, for any comparator. *)
Lemma binarySearch_contract {A : Type} (cmp : A -> Z) :
  (forall fuel start, binarySearch cmp (S fuel) [] start 0 = Ok (Some [])) /\
  (forall fuel entries start,
     binarySearch cmp (S fuel) entries start start = Ok (Some [])) /\
  (forall fuel entries start end_,
     (start <= end_ <= List.length entries)%nat -> (end_ - start < fuel)%nat ->
     (forall x, In x entries -> (cmp x < 0)%Z) \/
     (forall x, In x entries -> (0 < cmp x)%Z) ->
     binarySearch cmp fuel entries start end_ = Ok (Some [])) /\
  (forall entries, partitionedAround cmp entries ->
     exists i j,
       (forall k x, at_ entries k = Some x -> (cmp x = 0%Z <-> (i <= k < j)%nat)) /\
       forall fuel start end_,
         (start <= end_ <= List.length entries)%nat -> (end_ - start < fuel)%nat ->
         (start = 0%nat /\ end_ = List.length entries) \/
         (exists k, (start <= k < end_)%nat /\ (i <= k < j)%nat) ->
         binarySearch cmp fuel entries start end_ = Ok (Some (slice entries i j))).
Proof.
  split; [reflexivity|].
  split; [intros; apply binarySearch_empty_window|].
  split.
  - intros fuel entries start end_ Hw Hf Hside.
    apply binarySearch_no_match; [exact Hw | exact Hf |].
    intros k x _ Hx Hz. unfold at_ in Hx. apply nth_error_In in Hx.
    destruct Hside as [H | H]; specialize (H x Hx); lia.
  - intros entries Hp.
    destruct (partitionedAround_delimits cmp entries Hp) as (i & j & Hd).
    exists i, j. split.
    + intros k x Hx. exact (delimits_zero_iff cmp _ _ _ _ _ Hd Hx).
    + intros fuel start end_ Hw Hf [[-> ->] | Hk].
      * apply binarySearch_whole; [exact Hd | lia].
      * apply (binarySearch_hit cmp entries i j); assumption.
Qed.

(** C5. [polygonBinarySearch] and [offsetBinarySearch] return the empty list
    on an empty sequence and on an empty window, and when the query lies
    strictly before every entry or strictly after every entry.  When the
    entries that lie before the query precede those that intersect it, which
    precede those that lie after it, the searches return exactly the
    contiguous slice of the entries that compare 0, from the whole sequence
    and from any window that holds one of them, whichever index is probed
    first. *)
Theorem binary_searches_return_matching_slice :
  (forall poly : Polygon,
     let search fuel lines start end_ :=
       polygonBinarySearch fuel lines start end_ poly in
     (forall fuel start, search (S fuel) [] start 0%nat = Ok (Some [])) /\
     (forall fuel lines start, search (S fuel) lines start start = Ok (Some [])) /\
     (forall fuel lines start end_,
        (start <= end_ <= List.length lines)%nat -> (end_ - start < fuel)%nat ->
        (forall line, In line lines -> (lineCmp poly line < 0)%Z) \/
        (forall line, In line lines -> (0 < lineCmp poly line)%Z) ->
        search fuel lines start end_ = Ok (Some [])) /\
     (forall lines, partitionedAround (lineCmp poly) lines ->
        exists i j,
          (forall k line, at_ lines k = Some line ->
             (lineCmp poly line = 0%Z <-> (i <= k < j)%nat)) /\
          forall fuel start end_,
            (start <= end_ <= List.length lines)%nat -> (end_ - start < fuel)%nat ->
            (start = 0%nat /\ end_ = List.length lines) \/
            (exists k, (start <= k < end_)%nat /\ (i <= k < j)%nat) ->
            search fuel lines start end_ = Ok (Some (slice lines i j)))) /\
  (forall offsetRange : Z * Z,
     let search fuel words start end_ :=
       offsetBinarySearch fuel words start end_ offsetRange in
     (forall fuel start, search (S fuel) [] start 0%nat = Ok (Some [])) /\
     (forall fuel words start, search (S fuel) words start start = Ok (Some [])) /\
     (forall fuel words start end_,
        (start <= end_ <= List.length words)%nat -> (end_ - start < fuel)%nat ->
        (forall word, In word words -> (wordCmp offsetRange word < 0)%Z) \/
        (forall word, In word words -> (0 < wordCmp offsetRange word)%Z) ->
        search fuel words start end_ = Ok (Some [])) /\
     (forall words, partitionedAround (wordCmp offsetRange) words ->
        exists i j,
          (forall k word, at_ words k = Some word ->
             (wordCmp offsetRange word = 0%Z <-> (i <= k < j)%nat)) /\
          forall fuel start end_,
            (start <= end_ <= List.length words)%nat -> (end_ - start < fuel)%nat ->
            (start = 0%nat /\ end_ = List.length words) \/
            (exists k, (start <= k < end_)%nat /\ (i <= k < j)%nat) ->
            search fuel words start end_ = Ok (Some (slice words i j)))).
Proof.
  split.
  - intros poly search.
    destruct (binarySearch_contract (lineCmp poly)) as (H1 & H2 & H3 & H4).
    subst search. cbv beta.
    split; [|split; [|split]].
    + intros fuel start. rewrite polygonBinarySearch_scheme. apply H1.
    + intros fuel ls start. rewrite polygonBinarySearch_scheme. apply H2.
    + intros fuel ls start end_ Hw Hf Hside.
      rewrite polygonBinarySearch_scheme. now apply H3.
    + intros ls Hp. destruct (H4 ls Hp) as (i & j & Hz & Hs). exists i, j.
      split; [exact Hz|]. intros fuel start end_ Hw Hf Hk.
      rewrite polygonBinarySearch_scheme. now apply Hs.
  - intros offsetRange search.
    destruct (binarySearch_contract (wordCmp offsetRange)) as (H1 & H2 & H3 & H4).
    subst search. cbv beta.
    split; [|split; [|split]].
    + intros fuel start. rewrite offsetBinarySearch_scheme. apply H1.
    + intros fuel ws start. rewrite offsetBinarySearch_scheme. apply H2.
    + intros fuel ws start end_ Hw Hf Hside.
      rewrite offsetBinarySearch_scheme. now apply H3.
    + intros ws Hp. destruct (H4 ws Hp) as (i & j & Hz & Hs). exists i, j.
      split; [exact Hz|]. intros fuel start end_ Hw Hf Hk.
      rewrite offsetBinarySearch_scheme. now apply Hs.
Qed.

(** ** The word search of [findTextFromBoundingRegions] *)

Lemma sortedByOffset_partitioned (words : list Word) (offsetRange : Z * Z) :
  sortedByOffset words -> partitionedAround (wordCmp offsetRange) words.
Proof.
  intros Hs a b x y Hab Hx Hy. specialize (Hs a b x y Hab Hx Hy).
  unfold entryVsQuery, wordCmp, compareOffsets.
  rewrite !Z.gtb_ltb.
  repeat match goal with
  | |- context [(?u <? ?v)%Z] => destruct (Z.ltb_spec u v)
  end; simpl; lia.
Qed.

Lemma wordCmp_in_range (offsetStart offsetEnd : Z) (word : Word) :
  (wordCmp (offsetStart, offsetEnd) word =? 0)%Z
  = ((offsetStart <=? offset (word_span word))%Z
     && (offset (word_span word) <=? offsetEnd)%Z).
Proof.
  unfold wordCmp, compareOffsets. simpl. rewrite Z.gtb_ltb.
  destruct (Z.ltb_spec offsetEnd (offset (word_span word)));
  destruct (Z.ltb_spec (offset (word_span word)) offsetStart);
  destruct (Z.leb_spec offsetStart (offset (word_span word)));
  destruct (Z.leb_spec (offset (word_span word)) offsetEnd);
  simpl; try reflexivity; lia.
Qed.

(** C10. The word search compares the offset range only with the start of
    each word's span: on words sorted by span offset it returns exactly the
    words whose span starts inside the range, bounds included, so a word
    that starts before [offsetStart] is left out whatever its length. *)
Theorem offset_search_keeps_words_starting_in_range
    (words : list Word) (offsetStart offsetEnd : Z) :
  sortedByOffset words ->
  let startsInRange word :=
    (offsetStart <=? offset (word_span word))%Z
    && (offset (word_span word) <=? offsetEnd)%Z in
  let found := filter startsInRange words in
  offsetBinarySearch (S (List.length words)) words 0 (List.length words)
    (offsetStart, offsetEnd) = Ok (Some found) /\
  (forall word, In word found <->
     In word words /\
     (offsetStart <= offset (word_span word) <= offsetEnd)%Z) /\
  (forall word, In word words ->
     (offset (word_span word) < offsetStart)%Z -> ~ In word found).
Proof.
  intros Hs startsInRange found.
  assert (Hin : forall word, In word found <->
            In word words /\
            (offsetStart <= offset (word_span word) <= offsetEnd)%Z).
  { intros word. unfold found, startsInRange. rewrite filter_In.
    rewrite andb_true_iff, !Z.leb_le. tauto. }
  split; [|split; [exact Hin|]].
  - rewrite offsetBinarySearch_scheme.
    pose proof (sortedByOffset_partitioned words (offsetStart, offsetEnd) Hs) as Hp.
    destruct (partitionedAround_delimits _ _ Hp) as (i & j & Hd).
    rewrite (binarySearch_whole _ words i j) by (assumption || lia).
    rewrite <- (filter_delimits _ _ _ _ Hd).
    do 2 f_equal. unfold found. apply filter_ext.
    intros word. apply wordCmp_in_range.
  - intros word _ Hlt Hf. apply Hin in Hf. lia.
Qed.

(** ** The column partitioner *)

Lemma slice_all {B : Type} (l : list B) : slice l 0 (List.length l) = l.
Proof.
  unfold slice. rewrite Nat.sub_0_r. simpl. apply firstn_all.
Qed.

(** While every line is adjacent to the one before it, the loop pushes
    nothing until the last line, where it pushes all the lines. *)
Lemma splitLoop_adjacent (lines : list Line) (count currentLine : nat) :
  (forall k current next,
     at_ lines k = Some current -> at_ lines (S k) = Some next ->
     adjacent (line_polygon next) (line_polygon current) None = true) ->
  (currentLine + count = List.length lines)%nat -> (0 < count)%nat ->
  splitLoop lines count currentLine ([], O)
  = Ok ([{| column_polygon := combinePolygons (map line_polygon lines);
            column_lines := lines |}], List.length lines).
Proof.
  intros Hadj. revert currentLine.
  induction count as [|count IH]; intros currentLine Hn Hc; [lia|].
  simpl. unfold splitStep.
  destruct (currentLine =? List.length lines - 1)%nat eqn:E.
  - apply Nat.eqb_eq in E. simpl.
    assert (count = O) as -> by lia.
    replace (currentLine + 1)%nat with (List.length lines) by lia.
    rewrite slice_all. reflexivity.
  - apply Nat.eqb_neq in E.
    destruct (at_lt_Some lines (currentLine + 1) ltac:(lia)) as [next Hnext].
    destruct (at_lt_Some lines currentLine ltac:(lia)) as [current Hcur].
    rewrite Hnext, Hcur. simpl.
    replace (currentLine + 1)%nat with (S currentLine) in Hnext by lia.
    rewrite (Hadj _ _ _ Hcur Hnext). simpl.
    apply IH; lia.
Qed.

(** C6. [splitIntoColumns] on zero lines returns one column with an empty
    polygon and no lines; on one line it returns one column that contains
    the line; and when every line is adjacent (default delta) to the one
    before it, it returns exactly one column that contains all the lines in
    their original order. *)
Theorem splitIntoColumns_single_column :
  splitIntoColumns [] = Ok [{| column_polygon := []; column_lines := [] |}] /\
  (forall line,
     splitIntoColumns [line]
     = Ok [{| column_polygon := line_polygon line; column_lines := [line] |}]) /\
  (forall lines,
     (forall k current next,
        at_ lines k = Some current -> at_ lines (S k) = Some next ->
        adjacent (line_polygon next) (line_polygon current) None = true) ->
     exists polygon,
       splitIntoColumns lines
       = Ok [{| column_polygon := polygon; column_lines := lines |}]).
Proof.
  split; [reflexivity|]. split; [reflexivity|].
  intros ls Hadj. destruct ls as [|l1 [|l2 rest]].
  - eexists. reflexivity.
  - eexists. reflexivity.
  - eexists. unfold splitIntoColumns.
    rewrite (splitLoop_adjacent _ _ 0 Hadj); [reflexivity | reflexivity | simpl; lia].
Qed.

(** ** Reverse mapper: the words of a complex polygon *)

Lemma collectWords_filter (candidates : list Word) (polygon : PolygonC)
    (excerptWords : list Word) :
  collectWords candidates polygon excerptWords
  = excerptWords ++ filter (fun word => wordInPolygonC word polygon) candidates.
Proof.
  revert excerptWords.
  induction candidates as [|word rest IH]; intros excerptWords; simpl.
  - now rewrite app_nil_r.
  - destruct (wordInPolygonC word polygon); rewrite IH; [|reflexivity].
    now rewrite <- app_assoc.
Qed.

Lemma slice_inclusive {B : Type} (l : list B) (first last k : nat) :
  at_ (slice l first (last + 1)) k
  = if (first + k <=? last)%nat then at_ l (first + k) else None.
Proof.
  unfold slice, at_. rewrite nth_error_firstn, nth_error_skipn.
  destruct (Nat.ltb_spec k (last + 1 - first));
  destruct (Nat.leb_spec (first + k) last); try reflexivity; lia.
Qed.

Lemma wordInPolygonC_accepted (word : Word) (polygon : PolygonC) :
  wordInPolygonC word polygon = true <-> acceptedBy word polygon.
Proof.
  unfold wordInPolygonC, acceptedBy. rewrite !orb_true_iff. split.
  - intros [[H | H] | H].
    + destruct (head polygon) as [part|]; [|discriminate].
      apply andb_true_iff in H. exists part, (- (5 # 100)).
      split; [left; split; reflexivity | exact H].
    + destruct (body polygon) as [part|]; [|discriminate].
      apply andb_true_iff in H. exists part, (- (1 # 10)).
      split; [right; left; split; reflexivity | exact H].
    + destruct (tail polygon) as [part|]; [|discriminate].
      apply andb_true_iff in H. exists part, (- (5 # 100)).
      split; [right; right; split; reflexivity | exact H].
  - intros (part & delta & [[-> ->] | [[-> ->] | [-> ->]]] & Ha & Hl);
      rewrite Ha, Hl; auto.
Qed.

(** C3. [findTextFromPolygonC] takes as candidates exactly the words
    [page.words[wordIndices[0] .. wordIndices[1]]], bounds included; accepts
    a candidate if and only if it is adjacent to some non-empty part of the
    complex polygon (tolerance -0.05 for head and tail, -0.1 for body) and
    on the same line as that part (overlap 0.9); and returns the contents of
    the accepted words, in their original order, joined by single spaces. *)
Theorem findTextFromPolygonC_extracts_words
    (response : DocIntResponse) (polyC : PolygonOnPage) (index : nat)
    (regionPage : Page) (pageRegions : list Region) (region : Region) :
  page_at response (page polyC) = Some regionPage ->
  regions regionPage = Some pageRegions ->
  at_ pageRegions index = Some region ->
  let first := fst (wordIndices region) in
  let last := snd (wordIndices region) in
  exists candidates excerptWords,
    (forall k, at_ candidates k
               = if (first + k <=? last)%nat
                 then at_ (words regionPage) (first + k) else None) /\
    excerptWords = filter (fun word => wordInPolygonC word (polygon polyC)) candidates /\
    (forall word, wordInPolygonC word (polygon polyC) = true
                  <-> acceptedBy word (polygon polyC)) /\
    findTextFromPolygonC response polyC (Some index)
    = Ok (join " " (map word_content excerptWords)).
Proof.
  intros Hpage Hregions Hregion first last.
  exists (slice (words regionPage) first (last + 1)).
  eexists. split; [|split; [reflexivity|split]].
  - intros k. apply slice_inclusive.
  - intros word. apply wordInPolygonC_accepted.
  - unfold findTextFromPolygonC. rewrite Hpage. simpl.
    rewrite Hregions. simpl. rewrite Hregion. simpl.
    rewrite collectWords_filter. reflexivity.
Qed.

(** Without a paragraph index the read of [polygonRegion.wordIndices]
    throws. *)
Lemma findTextFromPolygonC_undefined_paragraph
    (response : DocIntResponse) (polyC : PolygonOnPage) :
  findTextFromPolygonC response polyC None = Throw.
Proof.
  unfold findTextFromPolygonC.
  destruct (page_at response (page polyC)) as [regionPage|]; [|reflexivity].
  simpl. destruct (regions regionPage); reflexivity.
Qed.

(** ** Forward mapper: stitching *)

Lemma fold_left_push {B C : Type} (g : list C -> B -> list C) (f : B -> list C)
    (l : list B) (init : list C) :
  (forall acc x, g acc x = acc ++ f x) ->
  fold_left g l init = init ++ flat_map f l.
Proof.
  intros Hg. revert init. induction l as [|x l IH]; intros init; simpl.
  - now rewrite app_nil_r.
  - rewrite IH, Hg. now rewrite <- app_assoc.
Qed.

(** Each complex polygon only pushes bounds. *)
Lemma convertPolyC_push (forceOverlap : bool) (page : nat) (polyC : PolygonC)
    (bounds : list Bounds) :
  convertPolyC forceOverlap page polyC bounds
  = bounds ++ convertPolyC forceOverlap page polyC [].
Proof.
  unfold convertPolyC.
  destruct (head polyC), (body polyC), (tail polyC); cbv zeta; simpl;
    rewrite <- ?app_assoc, ?app_nil_r; reflexivity.
Qed.

(** The three loops flatten into the bounds of each complex polygon, in
    order. *)
Lemma convertCitationRegionsToBounds_flat
    (citationRegionsPerPage : list CitationRegionsPerPage) (forceOverlap : bool) :
  convertCitationRegionsToBounds citationRegionsPerPage forceOverlap
  = flat_map
      (fun entry =>
         flat_map
           (fun region =>
              flat_map
                (fun polyC => convertPolyC forceOverlap (crp_page entry) polyC [])
                region)
           (citationRegions entry))
      citationRegionsPerPage.
Proof.
  unfold convertCitationRegionsToBounds.
  apply (fold_left_push _
           (fun entry =>
              flat_map
                (fun region =>
                   flat_map
                     (fun polyC => convertPolyC forceOverlap (crp_page entry) polyC [])
                     region)
                (citationRegions entry))).
  intros acc entry.
  apply (fold_left_push _
           (fun region =>
              flat_map
                (fun polyC => convertPolyC forceOverlap (crp_page entry) polyC [])
                region)).
  intros acc' region.
  apply (fold_left_push _
           (fun polyC => convertPolyC forceOverlap (crp_page entry) polyC [])).
  intros acc2 polyC. apply convertPolyC_push.
Qed.

Lemma eight {B : Type} (l : list B) :
  List.length l = 8%nat ->
  exists a0 a1 a2 a3 a4 a5 a6 a7, l = [a0; a1; a2; a3; a4; a5; a6; a7].
Proof.
  intros H.
  do 8 (destruct l as [|? l]; [discriminate|]).
  destruct l; [|discriminate]. repeat eexists.
Qed.

(** C4. With [forceOverlap], for a complex polygon whose parts have eight
    numbers each: when head and tail exist and body is absent, the two
    bottom y-values of head become the top of tail exactly when the bottom
    of head lies above the top of tail; when body exists, its two top
    y-values become the bottom of head, and its two bottom y-values the top
    of tail, only where there is a gap, and stay as they are otherwise; the
    tail is emitted as [flattenPolygon4 tail].  The bounds of the function
    are those of its complex polygons, in order. *)
Theorem convertCitationRegionsToBounds_forceOverlap :
  (forall citationRegionsPerPage,
     convertCitationRegionsToBounds citationRegionsPerPage true
     = flat_map
         (fun entry =>
            flat_map
              (fun region =>
                 flat_map (fun polyC => convertPolyC true (crp_page entry) polyC [])
                   region)
              (citationRegions entry))
         citationRegionsPerPage) /\
  (forall page head tail,
     List.length head = 8%nat -> List.length tail = 8%nat ->
     let extend := Qltb (bottomOf head) (topOf tail) in
     let y i := if extend then topOf tail else nth i head 0 in
     convertPolyC true page
       {| head := Some head; body := None; tail := Some tail |} []
     = [ {| bounds_pageNumber := page;
            bounds_polygon :=
              [nth 0 head 0; nth 1 head 0; nth 2 head 0; nth 3 head 0;
               nth 4 head 0; y 5%nat; nth 6 head 0; y 7%nat] |};
         {| bounds_pageNumber := page; bounds_polygon := flattenPolygon4 tail |} ]) /\
  (forall page head body tail,
     List.length body = 8%nat ->
     (forall h, head = Some h -> List.length h = 8%nat) ->
     (forall t, tail = Some t -> List.length t = 8%nat) ->
     let gapAbove :=
       match head with
       | Some h => Qltb (bottomOf h) (topOf body)
       | None => false
       end in
     let gapBelow :=
       match tail with
       | Some t => Qltb (bottomOf body) (topOf t)
       | None => false
       end in
     let top i :=
       match head with
       | Some h => if gapAbove then bottomOf h else nth i body 0
       | None => nth i body 0
       end in
     let bottom i :=
       match tail with
       | Some t => if gapBelow then topOf t else nth i body 0
       | None => nth i body 0
       end in
     convertPolyC true page {| head := head; body := Some body; tail := tail |} []
     = partBounds page head
       ++ [ {| bounds_pageNumber := page;
               bounds_polygon :=
                 [nth 0 body 0; top 1%nat; nth 2 body 0; top 3%nat;
                  nth 4 body 0; bottom 5%nat; nth 6 body 0; bottom 7%nat] |} ]
       ++ partBounds page (option_map flattenPolygon4 tail)).
Proof.
  split; [intros; apply convertCitationRegionsToBounds_flat|]. split.
  - intros pg h t Hh Ht.
    destruct (eight h Hh) as (h0 & h1 & h2 & h3 & h4 & h5 & h6 & h7 & ->).
    destruct (eight t Ht) as (t0 & t1 & t2 & t3 & t4 & t5 & t6 & t7 & ->).
    unfold convertPolyC, bottomOf, topOf. cbn.
    destruct (Qltb (qmax h5 h7) (qmin t1 t3)); reflexivity.
  - intros pg h b t Hb Hh Ht.
    destruct (eight b Hb) as (b0 & b1 & b2 & b3 & b4 & b5 & b6 & b7 & ->).
    destruct h as [h|], t as [t|].
    + destruct (eight h (Hh _ eq_refl)) as (h0 & h1 & h2 & h3 & h4 & h5 & h6 & h7 & ->).
      destruct (eight t (Ht _ eq_refl)) as (t0 & t1 & t2 & t3 & t4 & t5 & t6 & t7 & ->).
      unfold convertPolyC, bottomOf, topOf. cbn.
      destruct (Qltb (qmax h5 h7) (qmin b1 b3)); cbn;
      destruct (Qltb (qmax b5 b7) (qmin t1 t3)); reflexivity.
    + destruct (eight h (Hh _ eq_refl)) as (h0 & h1 & h2 & h3 & h4 & h5 & h6 & h7 & ->).
      unfold convertPolyC, bottomOf, topOf. cbn.
      destruct (Qltb (qmax h5 h7) (qmin b1 b3)); reflexivity.
    + destruct (eight t (Ht _ eq_refl)) as (t0 & t1 & t2 & t3 & t4 & t5 & t6 & t7 & ->).
      unfold convertPolyC, bottomOf, topOf. cbn.
      destruct (Qltb (qmax b5 b7) (qmin t1 t3)); reflexivity.
    + reflexivity.
Qed.

(** ** Forward mapper: text to bounds *)

(** Without [forceOverlap] a complex polygon contributes its head and its
    body as they are and its tail flattened: no stitching branch is taken. *)
Lemma convertPolyC_no_overlap (page : nat) (polyC : PolygonC) :
  convertPolyC false page polyC []
  = partBounds page (head polyC) ++ partBounds page (body polyC)
    ++ partBounds page (option_map flattenPolygon4 (tail polyC)).
Proof.
  unfold convertPolyC.
  destruct (head polyC), (body polyC), (tail polyC); reflexivity.
Qed.

(** ** Forward mapper: what reaches the converter *)

(** On regions of the declared shape the converter is the conversion that
    the stitching properties are about. *)
Lemma convertCitationRegionsToBounds_given_arrays
    (citationRegionsPerPage : list CitationRegionsPerPage) (forceOverlap : bool) :
  convertCitationRegionsToBounds_given (map asGiven citationRegionsPerPage)
    forceOverlap
  = Ok (convertCitationRegionsToBounds citationRegionsPerPage forceOverlap).
Proof.
  unfold convertCitationRegionsToBounds_given, convertCitationRegionsToBounds.
  generalize (@nil Bounds).
  induction citationRegionsPerPage as [|entry rest IH]; intros bounds;
    [reflexivity|].
  cbn [map fold_left bind]. rewrite <- IH. f_equal.
  cbn [asGiven given_citationRegions given_page]. revert bounds.
  induction (citationRegions entry) as [|region regions IHr]; intros bounds;
    [reflexivity|].
  cbn [map fold_left bind iterate]. apply IHr.
Qed.

Lemma regions_loop_throws (forceOverlap : bool) (page : nat)
    (regions : list RegionValue) :
  fold_left
    (fun acc region =>
       let* bounds := acc in
       let* region := iterate region in
       Ok (fold_left
             (fun bounds polyC => convertPolyC forceOverlap page polyC bounds)
             region bounds))
    regions Throw = Throw.
Proof. induction regions as [|region regions IH]; [reflexivity | exact IH]. Qed.

Lemma entries_loop_throws (forceOverlap : bool)
    (entries : list CitationRegionsGiven) :
  fold_left
    (fun acc entry =>
       let* bounds := acc in
       fold_left
         (fun acc region =>
            let* bounds := acc in
            let* region := iterate region in
            Ok (fold_left
                  (fun bounds polyC =>
                     convertPolyC forceOverlap (given_page entry) polyC bounds)
                  region bounds))
         (given_citationRegions entry) (Ok bounds))
    entries Throw = Throw.
Proof. induction entries as [|entry entries IH]; [reflexivity | exact IH]. Qed.

(** The converter throws at the first region when it is a complex polygon. *)
Lemma convertCitationRegionsToBounds_given_object (forceOverlap : bool)
    (entry : CitationRegionsGiven) (rest : list CitationRegionsGiven)
    (polyC : PolygonC) (more : list RegionValue) :
  given_citationRegions entry = RegionObject polyC :: more ->
  convertCitationRegionsToBounds_given (entry :: rest) forceOverlap = Throw.
Proof.
  intros H. unfold convertCitationRegionsToBounds_given.
  cbn [fold_left bind]. rewrite H. cbn [fold_left bind iterate].
  rewrite regions_loop_throws. apply entries_loop_throws.
Qed.

(** No group of the [Map] is empty, and the [Map] is not empty once a
    fragment has been pushed. *)
Lemma map_push_groups (map : list (nat * list PolygonC)) (page : nat)
    (polygon : PolygonC) :
  Forall (fun entry => snd entry <> []) map ->
  Forall (fun entry => snd entry <> []) (map_push map page polygon) /\
  map_push map page polygon <> [].
Proof.
  induction map as [|[k v] rest IH]; intros H; simpl.
  - split; [|discriminate]. constructor; [discriminate | constructor].
  - apply Forall_cons_iff in H. destruct H as [Hv Hrest].
    destruct (k =? page)%nat.
    + split; [|discriminate]. constructor; [|exact Hrest].
      simpl. now destruct v.
    + split; [|discriminate]. constructor; [exact Hv|]. now apply IH.
Qed.

Lemma grouping_groups (fragments : list PolygonOnPage)
    (map : list (nat * list PolygonC)) :
  Forall (fun entry => snd entry <> []) map ->
  Forall (fun entry => snd entry <> [])
    (fold_left (fun map fragment => map_push map (page fragment) (polygon fragment))
       fragments map) /\
  (fragments <> [] \/ map <> [] ->
   fold_left (fun map fragment => map_push map (page fragment) (polygon fragment))
     fragments map <> []).
Proof.
  revert map. induction fragments as [|fragment rest IH]; intros map H; simpl.
  - split; [exact H|]. intros [N | N]; [now elim N | exact N].
  - destruct (map_push_groups map (page fragment) (polygon fragment) H) as [H1 H2].
    destruct (IH _ H1) as [G1 G2]. split; [exact G1|].
    intros _. apply G2. now right.
Qed.

Lemma insert_by_page_perm (e : PolygonsPerPage) (sorted : list PolygonsPerPage) :
  Permutation (insert_by_page e sorted) (e :: sorted).
Proof.
  induction sorted as [|h t IH]; simpl; [reflexivity|].
  destruct (ppp_page e <? ppp_page h)%nat; [reflexivity|].
  rewrite IH. apply perm_swap.
Qed.

Lemma sort_by_page_perm (results : list PolygonsPerPage) :
  Permutation (sort_by_page results) results.
Proof.
  unfold sort_by_page.
  assert (G : forall sorted,
            Permutation
              (fold_left (fun sorted e => insert_by_page e sorted) results sorted)
              (sorted ++ results)).
  { induction results as [|e rest IH]; intros sorted; simpl.
    - now rewrite app_nil_r.
    - rewrite IH, insert_by_page_perm. apply Permutation_middle. }
  exact (G []).
Qed.

(** What [returnTextPolygonsFromDI] does, case by case. *)
Lemma returnTextPolygonsFromDI_outcome (text : string) (di : DocIntResponse) :
  returnTextPolygonsFromDI text di
  = if blank (excerpt (excerptToSummary text di)) then Ok []
    else
      match polygons (excerptToSummary text di) with
      | [] => Ok []
      | _ :: _ => Throw
      end.
Proof.
  unfold returnTextPolygonsFromDI, blank. cbv zeta.
  set (summary := excerptToSummary text di).
  destruct (string_eqb (excerpt summary) "" ||
            (String.length (trim (excerpt summary)) =? 0)%nat); [reflexivity|].
  destruct (polygons summary) as [|fragment rest] eqn:Hp; [reflexivity|].
  set (map := fold_left _ (fragment :: rest) []).
  destruct (grouping_groups (fragment :: rest) [] (Forall_nil _)) as [Hg Hn].
  fold map in Hg, Hn.
  assert (Hm : map <> []) by (apply Hn; left; discriminate).
  rewrite (fold_left_push _
             (fun entry => [{| ppp_page := fst entry;
                               ppp_citationRegions := snd entry |}]))
    by reflexivity.
  cbn [app].
  set (results := flat_map _ map).
  assert (Hr : Forall (fun entry => ppp_citationRegions entry <> []) results /\
               results <> []).
  { unfold results. clear - Hg Hm. induction map as [|entry more IH];
      [now elim Hm|].
    apply Forall_cons_iff in Hg. destruct Hg as [He Hmore].
    split; [|discriminate]. cbn [flat_map app]. constructor; [exact He|].
    destruct more as [|next more']; [constructor|].
    apply IH; [exact Hmore | discriminate]. }
  destruct Hr as [Hr Hne].
  pose proof (sort_by_page_perm results) as Hperm.
  assert (Hs : Forall (fun entry => ppp_citationRegions entry <> [])
                 (sort_by_page results)).
  { eapply Permutation_Forall; [apply Permutation_sym; exact Hperm | exact Hr]. }
  destruct (sort_by_page results) as [|entry sorted] eqn:Hsort.
  - apply Permutation_nil in Hperm. now elim Hne.
  - apply Forall_cons_iff in Hs. destruct Hs as [He _].
    destruct (ppp_citationRegions entry) as [|polyC more] eqn:Hc; [now elim He|].
    cbn [List.map]. eapply convertCitationRegionsToBounds_given_object.
    unfold handOver. cbn [given_citationRegions]. rewrite Hc. reflexivity.
Qed.


(** ** Selection pipeline: pixels to page space *)

Lemma toInches_eight (dx dy a0 a1 a2 a3 a4 a5 a6 a7 : Q) :
  let cx v := round (js_div (js_sub v dx) 72) 4 in
  let cy v := round (js_div (js_sub v dy) 72) 4 in
  toInches dx dy [a0; a1; a2; a3; a4; a5; a6; a7]
  = [cx a0; cy a1; cx a2; cy a3; cx a4; cy a5; cx a6; cy a7].
Proof. reflexivity. Qed.

Lemma selectionInInches_pageSpace (selectionRects : list DOMRect) (view : Viewport) :
  (forall coords, List.length coords = 8%nat -> toPolygon4 coords = coords) ->
  selectionInInches selectionRects view
  = map (pageSpacePolygon (viewport_dx view) (viewport_dy view))
      (filter (fun rect => Qltb 0 (rect_width rect)) selectionRects).
Proof.
  intros Hcast. unfold selectionInInches.
  induction selectionRects as [|rect rest IH]; [reflexivity|].
  simpl. destruct (Qltb 0 (rect_width rect)); [|exact IH].
  simpl. rewrite IH, Hcast by reflexivity.
  f_equal.
Qed.

Lemma Forall2_map_right {B C : Type} (P : B -> C -> Prop) (f : B -> C)
    (l : list B) :
  (forall x, In x l -> P x (f x)) -> Forall2 P l (map f l).
Proof.
  induction l as [|x l IH]; intros H; simpl; constructor.
  - apply H. now left.
  - apply IH. intros y Hy. apply H. now right.
Qed.

(** C8. In [findUserSelection] the rectangles of positive width, and only
    those, become 8-value polygons in page space, in their order; the other
    rectangles are dropped.  Each y-coordinate is
    [round((y - dy) / 72, 4)] and each x-coordinate [round((x - dx) / 72, 4)]
    (first part), and each of these numbers is the coordinate in page space
    rounded to four decimals in the sense of [roundedTo] (second part,
    stated without [round]).  [toPolygon4] hands back the eight numbers it
    is given, and the chrome elements exist. *)
Theorem selection_rectangles_to_page_space
    (selectionRects : list DOMRect) (view : Viewport) :
  (forall coords, List.length coords = 8%nat -> toPolygon4 coords = coords) ->
  selectionInInches selectionRects view
  = map (pageSpacePolygon (viewport_dx view) (viewport_dy view))
      (filter (fun rect => Qltb 0 (rect_width rect)) selectionRects) /\
  Forall2
    (fun rect polygon =>
       Forall2 (roundedTo 4)
         (inPageSpace (viewport_dx view) (viewport_dy view) rect) polygon)
    (filter (fun rect => Qltb 0 (rect_width rect)) selectionRects)
    (selectionInInches selectionRects view).
Proof.
  intros Hcast.
  pose proof (selectionInInches_pageSpace selectionRects view Hcast) as E.
  split; [exact E|].
  rewrite E. apply Forall2_map_right. intros rect _.
  unfold pageSpacePolygon. apply Forall2_map_right. intros v _.
  apply round_roundedTo. lia.
Qed.

(** ** Reverse mapper: the paragraph of a complex polygon *)

Lemma Set_add_In (set : list nat) (index i : nat) :
  In i (Set_add set index) <-> In i set \/ i = index.
Proof.
  unfold Set_add. destruct (existsb (Nat.eqb index) set) eqn:E.
  - split; [auto|]. intros [H | ->]; [exact H|].
    apply (proj1 (existsb_exists _ _)) in E. destruct E as (x & Hx & Hxe).
    apply Nat.eqb_eq in Hxe. now subst.
  - rewrite in_app_iff. simpl. intuition auto.
Qed.

Lemma Set_add_NoDup (set : list nat) (index : nat) :
  NoDup set -> NoDup (Set_add set index).
Proof.
  intros Hn. unfold Set_add. destruct (existsb (Nat.eqb index) set) eqn:E;
    [exact Hn|].
  apply NoDup_app; [exact Hn | repeat constructor; simpl; tauto |].
  intros x Hx [<- | []].
  assert (existsb (Nat.eqb index) set = true); [|congruence].
  apply existsb_exists. exists index. split; [exact Hx | apply Nat.eqb_refl].
Qed.

Lemma paragraphStep_spec (polyC : PolygonOnPage) (found : list nat)
    (region : Region) (index : nat) :
  paragraphStep polyC found region index
  = if regionMatches polyC region then Set_add found index else found.
Proof.
  unfold paragraphStep, regionMatches.
  repeat match goal with
  | |- context [match ?o with Some _ => _ | None => false end] =>
      destruct (match o with Some _ => _ | None => false end)
  end; reflexivity.
Qed.

Lemma paragraphsOfRegions_In (polyC : PolygonOnPage) (pageRegions : list Region)
    (index : nat) (found : list nat) (i : nat) :
  In i (paragraphsOfRegions polyC pageRegions index found)
  <-> In i found \/
      exists k region, i = (index + k)%nat /\ at_ pageRegions k = Some region /\
                       regionMatches polyC region = true.
Proof.
  revert index found. induction pageRegions as [|r rest IH]; intros index found.
  - simpl. split; [auto|]. intros [H | (k & region & _ & H & _)]; [exact H|].
    destruct k; discriminate.
  - simpl. rewrite IH, paragraphStep_spec. split.
    + intros [H | (k & region & -> & Hk & Hm)].
      * destruct (regionMatches polyC r) eqn:E; [|auto].
        apply Set_add_In in H. destruct H as [H | ->]; [auto|].
        right. exists O, r. rewrite Nat.add_0_r. auto.
      * right. exists (S k), region. split; [lia | auto].
    + intros [H | ([|k] & region & -> & Hk & Hm)].
      * left. destruct (regionMatches polyC r); [|exact H].
        apply Set_add_In. auto.
      * left. simpl in Hk. injection Hk as ->. rewrite Hm.
        apply Set_add_In. right. lia.
      * right. exists k, region. split; [lia | auto].
Qed.

Lemma paragraphsOfRegions_NoDup (polyC : PolygonOnPage) (pageRegions : list Region)
    (index : nat) (found : list nat) :
  NoDup found -> NoDup (paragraphsOfRegions polyC pageRegions index found).
Proof.
  revert index found. induction pageRegions as [|r rest IH];
    intros index found Hn; [exact Hn|].
  simpl. apply IH. rewrite paragraphStep_spec.
  destruct (regionMatches polyC r); [apply Set_add_NoDup|]; exact Hn.
Qed.

(** The set the loop over the pages collects, from any starting set. *)
Lemma foundParagraphs_fold (polyC : PolygonOnPage) (pgs : list Page)
    (found : list nat) :
  let result :=
    fold_left
      (fun found_paragraphs pg =>
         if negb (pageNumber pg =? page polyC)%nat then found_paragraphs
         else
           match regions pg with
           | Some pageRegions => paragraphsOfRegions polyC pageRegions 0 found_paragraphs
           | None => found_paragraphs
           end)
      pgs found in
  (NoDup found -> NoDup result) /\
  forall i, In i result <->
    In i found \/
    exists pg pageRegions region,
      In pg pgs /\ pageNumber pg = page polyC /\
      regions pg = Some pageRegions /\ at_ pageRegions i = Some region /\
      regionMatches polyC region = true.
Proof.
  revert found. induction pgs as [|pg rest IH]; intros found; simpl.
  - split; [auto|]. intros i. split; [auto|].
    intros [H | (pg & rs & r & [] & _)]. exact H.
  - destruct (IH (if negb (pageNumber pg =? page polyC)%nat then found
                  else match regions pg with
                       | Some pageRegions =>
                           paragraphsOfRegions polyC pageRegions 0 found
                       | None => found
                       end)) as [IHn IHi].
    split.
    + intros Hn. apply IHn.
      destruct (pageNumber pg =? page polyC)%nat; simpl; [|exact Hn].
      destruct (regions pg); [apply paragraphsOfRegions_NoDup|]; exact Hn.
    + intros i. rewrite IHi. clear IHn IHi.
      destruct (Nat.eqb_spec (pageNumber pg) (page polyC)) as [Hpg|Hpg]; simpl.
      * destruct (regions pg) as [rs|] eqn:Hrs.
        -- rewrite paragraphsOfRegions_In. simpl. split.
           ++ intros [[H | (k & r & -> & Hk & Hm)] | (pg' & rs' & r & Hin & H)].
              ** auto.
              ** right. exists pg, rs, r. auto 10.
              ** right. exists pg', rs', r. tauto.
           ++ intros [H | (pg' & rs' & r & [<- | Hin] & Hp & Hr & Hk & Hm)].
              ** auto.
              ** left. right. exists i, r. rewrite Hrs in Hr.
                 injection Hr as <-. auto.
              ** right. exists pg', rs', r. auto 10.
        -- split.
           ++ intros [H | (pg' & rs' & r & Hin & H)]; [auto|].
              right. exists pg', rs', r. tauto.
           ++ intros [H | (pg' & rs' & r & [<- | Hin] & Hp & Hr & Hk & Hm)];
                [auto | congruence |].
              right. exists pg', rs', r. auto 10.
      * split.
        -- intros [H | (pg' & rs' & r & Hin & H)]; [auto|].
           right. exists pg', rs', r. tauto.
        -- intros [H | (pg' & rs' & r & [<- | Hin] & Hp & Hr & Hk & Hm)];
             [auto | contradiction |].
           right. exists pg', rs', r. auto 10.
Qed.

(** C1, as the code has it.  [findParagraphFromBoundingPolygonC] collects
    into a set the indices of all regions of the named page for which some
    non-empty part of the complex polygon is on the same line as the region
    polygon (0.9) and adjacent to it (0.1).  It returns the index when the
    set holds exactly one; when the set is empty or holds more than one
    index, it returns nothing. *)
Theorem findParagraphFromBoundingPolygonC_unique_match
    (response : DocIntResponse) (polyC : PolygonOnPage) :
  let found := foundParagraphs response polyC in
  NoDup found /\
  (forall i, In i found <->
     exists pg pageRegions region,
       In pg (pages (analyzeResult response)) /\
       pageNumber pg = page polyC /\
       regions pg = Some pageRegions /\
       at_ pageRegions i = Some region /\
       regionMatches polyC region = true) /\
  findParagraphFromBoundingPolygonC response polyC
  = match found with
    | [index] => Some index
    | _ => None
    end.
Proof.
  intros found.
  destruct (foundParagraphs_fold polyC (pages (analyzeResult response)) [])
    as [Hn Hi].
  split; [apply Hn; constructor|]. split.
  - intros i. unfold found, foundParagraphs. rewrite Hi. simpl. tauto.
  - unfold findParagraphFromBoundingPolygonC. fold found.
    destruct found as [|a [|b rest]]; reflexivity.
Qed.

(** ** Reverse mapper: not found *)

Lemma in_slice {B : Type} (l : list B) (start stop : nat) (x : B) :
  In x (slice l start stop) -> In x l.
Proof.
  intros H. apply In_nth_error in H. destruct H as [k Hk].
  unfold slice in Hk. rewrite nth_error_firstn, nth_error_skipn in Hk.
  destruct (k <? stop - start)%nat; [|discriminate].
  exact (nth_error_In _ _ Hk).
Qed.

Lemma firstIntersectionIndex_total {B : Type} (cmp : B -> Z) (entries : list B)
    (axis : nat) :
  (axis <= List.length entries)%nat ->
  exists i, firstIntersectionIndex cmp entries axis = Ok i.
Proof.
  induction axis as [|axis IH]; intros H; [exists O; reflexivity|].
  simpl. destruct (at_lt_Some entries axis ltac:(lia)) as [x Hx].
  rewrite Hx. simpl.
  destruct (cmp x =? 0)%Z; [apply IH; lia | exists (S axis); reflexivity].
Qed.

(** On a window inside the sequence the search ends, does not throw, and
    returns entries of the sequence. *)
Lemma binarySearch_total {B : Type} (cmp : B -> Z) (entries : list B)
    (fuel start end_ : nat) :
  (start <= end_ <= List.length entries)%nat ->
  (end_ - start < fuel)%nat ->
  exists found,
    binarySearch cmp fuel entries start end_ = Ok (Some found) /\
    forall x, In x found -> In x entries.
Proof.
  revert start end_.
  induction fuel as [|fuel IH]; intros start end_ Hw Hf; [lia|].
  simpl.
  destruct (end_ =? 0)%nat eqn:E0;
    [exists []; split; [reflexivity | intros x []]|].
  destruct (start =? end_)%nat eqn:Ese;
    [exists []; split; [reflexivity | intros x []]|].
  apply Nat.eqb_neq in E0, Ese.
  pose proof (midpoint_bounds start end_ ltac:(lia)) as Hm.
  destruct (at_lt_Some entries (midpoint start end_) ltac:(lia)) as [x Hx].
  rewrite Hx. simpl.
  destruct (cmp x <? 0)%Z; [apply IH; lia|].
  destruct (cmp x =? 0)%Z; [|apply IH; lia].
  destruct (firstIntersectionIndex_total cmp entries (midpoint start end_)
              ltac:(lia)) as [i Hi].
  rewrite Hi. simpl. eexists. split; [reflexivity|].
  intros y Hy. exact (in_slice _ _ _ _ Hy).
Qed.

(** The column partitioner never throws, and the lines of its columns are
    lines of the page. *)
Lemma splitLoop_total (lines : list Line) (count currentLine : nat)
    (cols : list Column) (firstLineOfCol : nat) :
  (currentLine + count = List.length lines)%nat ->
  (forall col, In col cols -> forall line, In line (column_lines col) -> In line lines) ->
  exists cols' firstLineOfCol',
    splitLoop lines count currentLine (cols, firstLineOfCol)
    = Ok (cols', firstLineOfCol') /\
    forall col, In col cols' -> forall line, In line (column_lines col) -> In line lines.
Proof.
  revert currentLine cols firstLineOfCol.
  induction count as [|count IH]; intros currentLine cols firstLineOfCol Hn Hc.
  - exists cols, firstLineOfCol. split; [reflexivity | exact Hc].
  - simpl. unfold splitStep.
    assert (Hpush : forall col,
              In col (cols ++
                      [{| column_polygon :=
                            combinePolygons
                              (map line_polygon
                                 (slice lines firstLineOfCol (currentLine + 1)));
                          column_lines := slice lines firstLineOfCol (currentLine + 1) |}]) ->
              forall line, In line (column_lines col) -> In line lines).
    { intros col Hin line Hl. apply in_app_or in Hin.
      destruct Hin as [Hin | [<- | []]]; [exact (Hc col Hin line Hl)|].
      exact (in_slice _ _ _ _ Hl). }
    destruct (currentLine =? List.length lines - 1)%nat eqn:E.
    + simpl. apply IH; [lia | exact Hpush].
    + apply Nat.eqb_neq in E.
      destruct (at_lt_Some lines (currentLine + 1) ltac:(lia)) as [next Hnext].
      destruct (at_lt_Some lines currentLine ltac:(lia)) as [current Hcur].
      rewrite Hnext, Hcur. simpl.
      destruct (adjacent (line_polygon next) (line_polygon current) None); simpl.
      * apply IH; [lia | exact Hc].
      * apply IH; [lia | exact Hpush].
Qed.

Lemma splitIntoColumns_total (lines : list Line) :
  exists columns,
    splitIntoColumns lines = Ok columns /\
    forall col, In col columns ->
      forall line, In line (column_lines col) -> In line lines.
Proof.
  destruct lines as [|l1 [|l2 rest]].
  - eexists. split; [reflexivity|]. intros col [<- | []] line [].
  - eexists. split; [reflexivity|]. intros col [<- | []] line Hl. exact Hl.
  - unfold splitIntoColumns.
    destruct (splitLoop_total (l1 :: l2 :: rest) (List.length (l1 :: l2 :: rest))
                0 [] 0 eq_refl ltac:(intros col []))
      as (cols & first & Hs & Hin).
    rewrite Hs. simpl. exists cols. split; [reflexivity | exact Hin].
Qed.

(** The loop over the relevant columns, from any lines already found. *)
Lemma intersectingLines_total (columns : list Column) (poly : Polygon)
    (allLines acc : list Line) :
  (forall col, In col columns ->
     forall line, In line (column_lines col) -> In line allLines) ->
  (forall line, In line acc -> In line allLines) ->
  exists found,
    fold_left
      (fun acc col =>
         let* intersectingLines := acc in
         let* found :=
           polygonBinarySearch (S (List.length (column_lines col)))
             (column_lines col) 0 (List.length (column_lines col)) poly in
         let* found := spread found in
         Ok (intersectingLines ++ found))
      columns (Ok acc) = Ok found /\
    (forall line, In line found -> In line allLines) /\
    ((forall line, In line allLines ->
        comparePolygons poly (line_polygon line) <> 0%Z) ->
     found = acc).
Proof.
  revert acc. induction columns as [|col rest IH]; intros acc Hcols Hacc.
  - exists acc. split; [reflexivity|]. split; [exact Hacc | reflexivity].
  - cbn [fold_left bind]. rewrite polygonBinarySearch_scheme.
    destruct (binarySearch_total (lineCmp poly) (column_lines col)
                (S (List.length (column_lines col))) 0
                (List.length (column_lines col)) ltac:(lia) ltac:(lia))
      as (found & Hf & Hin).
    rewrite Hf. cbn [bind spread get].
    destruct (IH (acc ++ found)) as (all & Hall & Hsub & Hnone).
    + intros c Hc. apply Hcols. right. exact Hc.
    + intros line Hl. apply in_app_or in Hl. destruct Hl as [Hl | Hl].
      * exact (Hacc line Hl).
      * apply (Hcols col (or_introl eq_refl)). exact (Hin line Hl).
    + exists all. split; [exact Hall|]. split; [exact Hsub|].
      intros Hno. rewrite (Hnone Hno).
      assert (found = []) as ->; [|apply app_nil_r].
      assert (Hz : binarySearch (lineCmp poly)
                     (S (List.length (column_lines col))) (column_lines col) 0
                     (List.length (column_lines col)) = Ok (Some [])).
      { apply binarySearch_no_match; [lia | lia |].
        intros k x _ Hx. apply Hno. apply (Hcols col (or_introl eq_refl)).
        exact (nth_error_In _ _ Hx). }
      rewrite Hz in Hf. now injection Hf as <-.
Qed.

Lemma last_line_exists {B : Type} (x : B) (l : list B) :
  exists y, at_ (x :: l) (List.length (x :: l) - 1) = Some y /\ In y (x :: l).
Proof.
  destruct (at_lt_Some (x :: l) (List.length (x :: l) - 1)
              ltac:(simpl; lia)) as [y Hy].
  exists y. split; [exact Hy | exact (nth_error_In _ _ Hy)].
Qed.

(** A bound that finds nothing contributes no word and does not throw. *)
Lemma wordsOfBound_nothingFound (response : DocIntResponse) (bound : Bounds) :
  nothingFound response bound -> wordsOfBound response bound = Ok [].
Proof.
  intros (pg & Hpg & Hnone). unfold wordsOfBound. rewrite Hpg. cbn [get bind].
  destruct (splitIntoColumns_total (lines pg)) as (columns & Hcols & Hsub).
  rewrite Hcols. cbn [bind].
  destruct (intersectingLines_total
              (getRelevantColumns columns (bounds_polygon bound))
              (bounds_polygon bound) (lines pg) [])
    as (found & Hfound & Hin & Hno).
  { intros col Hc. apply Hsub. unfold getRelevantColumns in Hc.
    apply filter_In in Hc. exact (proj1 Hc). }
  { intros line []. }
  destruct Hnone as [Hcol | [Hline | [Hspans Hword]]].
  - rewrite (Hcol columns Hcols). reflexivity.
  - rewrite Hfound. cbn [bind]. rewrite (Hno Hline). reflexivity.
  - rewrite Hfound. cbn [bind].
    destruct found as [|firstLine others]; [reflexivity|].
    destruct (line_spans firstLine) as [|firstSpan spans] eqn:Hfirst.
    { exfalso. exact (Hspans firstLine (Hin _ (or_introl eq_refl)) Hfirst). }
    cbn [at_ nth_error get bind].
    destruct (last_line_exists firstLine others) as (lastLine & Hlast & Hlin).
    rewrite Hlast. cbn [get bind].
    destruct (line_spans lastLine) as [|lastSpan spans'] eqn:Hlasts.
    { exfalso. exact (Hspans lastLine (Hin _ Hlin) Hlasts). }
    cbn [at_ nth_error get bind].
    rewrite offsetBinarySearch_scheme.
    destruct (binarySearch_total
                (wordCmp (offset firstSpan, (offset lastSpan + length lastSpan)%Z))
                (words pg) (S (List.length (words pg))) 0 (List.length (words pg))
                ltac:(lia) ltac:(lia))
      as (ws & Hws & Hwin).
    rewrite Hws. cbn [spread get bind]. f_equal. clear Hws.
    induction ws as [|w ws IHws]; [reflexivity|].
    simpl.
    destruct (comparePolygons (word_polygon w) (bounds_polygon bound) =? 0)%Z eqn:E.
    + apply Z.eqb_eq in E. exfalso.
      exact (Hword w (Hwin w (or_introl eq_refl)) E).
    + apply IHws. intros x Hx. apply Hwin. right. exact Hx.
Qed.

Lemma excerptWords_none (response : DocIntResponse) (bounds : list Bounds)
    (acc : list Word) :
  (forall bound, In bound bounds -> wordsOfBound response bound = Ok []) ->
  fold_left
    (fun acc bound =>
       let* excerptWords := acc in
       let* found := wordsOfBound response bound in
       Ok (excerptWords ++ found))
    bounds (Ok acc) = Ok acc.
Proof.
  induction bounds as [|bound rest IH]; intros H; [reflexivity|].
  simpl. rewrite (H bound) by (left; reflexivity). simpl.
  rewrite app_nil_r. apply IH. intros b Hb. apply H. right. exact Hb.
Qed.

Lemma not_found_text_not_empty : not_found_text <> ""%string.
Proof. discriminate. Qed.

(** C2, as the code has it.  [returnTextPolygonsFromDI] returns an empty
    array when the located excerpt is empty or blank.
    [findTextFromBoundingRegions] does not throw when none of its bounds
    finds anything (no intersecting column, line or word on an existing
    page); it then returns its placeholder text, and it never returns the
    empty string. *)
Theorem not_found_outcomes :
  (forall text di,
     let found := excerpt (excerptToSummary text di) in
     found = ""%string \/ trim found = ""%string ->
     returnTextPolygonsFromDI text di = Ok []) /\
  (forall response bounds,
     (forall bound, In bound bounds -> nothingFound response bound) ->
     findTextFromBoundingRegions response bounds = Ok not_found_text) /\
  (forall response bounds,
     findTextFromBoundingRegions response bounds <> Ok ""%string).
Proof.
  split; [|split].
  - intros text di found [H | H]; unfold returnTextPolygonsFromDI;
      fold found; rewrite H.
    + reflexivity.
    + simpl. now rewrite orb_true_r.
  - intros response bounds H. unfold findTextFromBoundingRegions.
    rewrite excerptWords_none; [reflexivity|].
    intros bound Hb. apply wordsOfBound_nothingFound. exact (H bound Hb).
  - intros response bounds. unfold findTextFromBoundingRegions.
    destruct (fold_left _ bounds (Ok [])) as [excerptWords| |]; simpl;
      try discriminate.
    destruct (string_eqb (join " " (map word_content excerptWords)) "") eqn:E.
    + intros H. injection H as H. exact (not_found_text_not_empty H).
    + intros H. injection H as H. rewrite H in E. discriminate.
Qed.

(** ** Selection pipeline: a selection without a paragraph *)

Lemma excerpt_loop_throw (pageNumber : nat) (response : DocIntResponse)
    (complexSelection : list PolygonC) :
  fold_left
    (fun acc c =>
       let* excerpt := acc in
       let complexSelectionOnPage := {| page := pageNumber; polygon := c |} in
       let paragraphId :=
         findParagraphFromBoundingPolygonC response complexSelectionOnPage in
       let* text := findTextFromPolygonC response complexSelectionOnPage paragraphId in
       Ok (excerpt ++ text)%string)
    complexSelection Throw = Throw.
Proof.
  induction complexSelection as [|c rest IH]; [reflexivity | exact IH].
Qed.

(** When the first complex polygon of the selection has no paragraph, or
    more than one, [findUserSelection] throws. *)
Lemma findUserSelection_without_paragraph (pageNumber : nat)
    (selectionRects : list DOMRect) (view : Viewport) (response : DocIntResponse)
    (c : PolygonC) (rest : list PolygonC) :
  combinePolygonsC (selectionInInches selectionRects view) = c :: rest ->
  findParagraphFromBoundingPolygonC response {| page := pageNumber; polygon := c |}
  = None ->
  findUserSelection pageNumber selectionRects view response = Throw.
Proof.
  intros Hc Hp. unfold findUserSelection. rewrite Hc. simpl. rewrite Hp.
  rewrite findTextFromPolygonC_undefined_paragraph. simpl.
  now rewrite excerpt_loop_throw.
Qed.

(** ** Checking the preconditions on concrete sequences *)

Lemma nondecreasing_at {B : Type} (f : B -> Z) (l : list B) :
  nondecreasing (map f l) = true ->
  forall a b x y,
    (a < b)%nat -> at_ l a = Some x -> at_ l b = Some y -> (f x <= f y)%Z.
Proof.
  induction l as [|h t IH]; intros Hn a b x y Hab Ha Hb.
  - destruct a; discriminate.
  - simpl in Hn. apply andb_true_iff in Hn. destruct Hn as [Hh Ht].
    destruct b as [|b]; [lia|]. destruct a as [|a].
    + simpl in Ha. injection Ha as <-.
      rewrite forallb_forall in Hh. apply Z.leb_le. apply Hh.
      apply in_map. exact (nth_error_In t b Hb).
    + apply (IH Ht a b); [lia | exact Ha | exact Hb].
Qed.

Lemma partitionedAround_check {B : Type} (cmp : B -> Z) (entries : list B) :
  nondecreasing (map (entryVsQuery cmp) entries) = true ->
  partitionedAround cmp entries.
Proof.
  intros H a b x y. exact (nondecreasing_at (entryVsQuery cmp) entries H a b x y).
Qed.

Lemma sortedByOffset_check (ws : list Word) :
  nondecreasing (map (fun word => offset (word_span word)) ws) = true ->
  sortedByOffset ws.
Proof.
  intros H a b x y.
  exact (nondecreasing_at (fun word => offset (word_span word)) ws H a b x y).
Qed.

(** * Further properties of the utilities *)

(** ** Rounding to decimals: order and error *)

(** X2. [round] keeps the order of numbers. *)
Theorem round_monotone (v w : Q) (precision : nat) :
  v <= w -> round v precision <= round w precision.
Proof.
  intros H. unfold round. cbv zeta.
  apply scaled_round_le.
  - apply pow10_pos.
  - exact H.
Qed.

(** X1. [round] returns a number within half a unit of the last kept
    decimal of its argument, up to the rounding of doubles: the slack is
    [2 ^ -51] of the magnitude of the argument (and of one unit of the last
    decimal). *)
Theorem round_error_bound (value : Q) (precision : nat) :
  (precision <= 22)%nat ->
  Qabs (round value precision - value)
  <= (1 # 2) / inject_Z (10 ^ Z.of_nat precision)
     + (Qabs value + 1 / inject_Z (10 ^ Z.of_nat precision)) / inject_Z (2 ^ 51).
Proof.
  intros Hp. destruct (round_roundedTo value precision Hp) as (k & Er & Ek).
  set (M := inject_Z (10 ^ Z.of_nat precision)) in *.
  assert (HM : 0 < M).
  { unfold M. replace 0 with (inject_Z 0) by reflexivity.
    rewrite <- Zlt_Qlt. apply Z.pow_pos_nonneg; lia. }
  pose proof (to_double_error (inject_Z k / M)) as Eq.
  rewrite <- Er in Eq.
  set (r := round value precision) in *.
  set (q := inject_Z k / M) in *.
  assert (EK : inject_Z k - value * M == (q - value) * M).
  { unfold q. field. lra. }
  rewrite EK in Ek. rewrite !Qabs_Qmult, (Qabs_pos M) in Ek by lra.
  assert (Hq : Qabs (q - value) <= (1 # 2) / M + Qabs value / inject_Z (2 ^ 53)).
  { apply Qle_trans
      with (((1 # 2) + Qabs value * M / inject_Z (2 ^ 53)) / M).
    - apply Qle_shift_div_l; [exact HM | exact Ek].
    - apply Qle_lteq. right. field. split; [discriminate | lra]. }
  set (h := 1 / M) in *.
  assert (Eh : (1 # 2) / M == h * (1 # 2)) by (unfold h; field; lra).
  rewrite Eh in *.
  pose proof (Qabs_nonneg value) as Av. pose proof (Qabs_nonneg q) as Aq.
  assert (Hh : 0 < h) by (unfold h; apply Qlt_shift_div_l; lra).
  assert (Bq : Qabs q <= Qabs value + Qabs (q - value)).
  { assert (E : q == value + (q - value)) by ring.
    rewrite E at 1. apply Qabs_triangle. }
  set (A := Qabs value) in *. set (B := Qabs q) in *.
  set (D := Qabs (q - value)) in *.
  assert (Er' : Qabs (r - value) <= Qabs (r - q) + D).
  { assert (E : r - value == (r - q) + (q - value)) by ring.
    rewrite E. apply Qabs_triangle. }
  set (R := Qabs (r - value)) in *. set (S := Qabs (r - q)) in *.
  unfold Qdiv in *.
  change (/ inject_Z (2 ^ 53)) with (1 # 9007199254740992) in *.
  change (/ inject_Z (2 ^ 51)) with (1 # 2251799813685248).
  lra.
Qed.

(** ** The comparator on axis-aligned quadrilaterals *)

(** X4. Swapping the arguments of [comparePolygons] negates the result, a
    quadrilateral compares 0 with itself, and the result is 0 exactly when
    the extents overlap on both axes. *)
Theorem comparePolygons_antisymmetric (poly refPoly : Polygon) :
  axis_aligned poly -> axis_aligned refPoly ->
  comparePolygons refPoly poly = (- comparePolygons poly refPoly)%Z /\
  comparePolygons poly poly = 0%Z /\
  (comparePolygons poly refPoly = 0%Z <->
   ~ bottom_y poly < top_y refPoly /\ ~ bottom_y refPoly < top_y poly /\
   ~ right_x poly < left_x refPoly /\ ~ right_x refPoly < left_x poly).
Proof.
  intros (Hp & Hpy & Hpx) (Hr & Hry & Hrx).
  rewrite !comparePolygons_unfold by assumption.
  destruct (Qltb (bottom_y poly) (top_y refPoly)) eqn:E1;
  destruct (Qltb (bottom_y refPoly) (top_y poly)) eqn:E2;
  destruct (Qltb (right_x poly) (left_x refPoly)) eqn:E3;
  destruct (Qltb (right_x refPoly) (left_x poly)) eqn:E4;
  destruct (Qltb (bottom_y poly) (top_y poly)) eqn:E5;
  destruct (Qltb (right_x poly) (left_x poly)) eqn:E6;
  repeat match goal with
  | H : Qltb _ _ = true |- _ => apply Qltb_lt in H
  | H : Qltb _ _ = false |- _ => apply Qltb_nlt in H
  end;
  try (exfalso; lra);
  (split; [reflexivity|]; split; [reflexivity|]; split;
   [intros H; first [discriminate H | repeat split; assumption]
   | intros (H1 & H2 & H3 & H4); first [reflexivity | contradiction]]).
Qed.

(** ** The binary searches without a precondition on the order *)

Lemma skipn_at {B : Type} (l : list B) (k : nat) (x : B) :
  at_ l k = Some x -> skipn k l = x :: skipn (S k) l.
Proof.
  unfold at_. revert k. induction l as [|h t IH]; intros [|k] H;
    simpl in *; try discriminate.
  - now injection H as ->.
  - exact (IH k H).
Qed.

(** The backward expansion returns the start of the run of intersecting
    entries that ends just before [axis]. *)
Lemma firstIntersectionIndex_run {B : Type} (cmp : B -> Z) (entries : list B)
    (axis i : nat) :
  firstIntersectionIndex cmp entries axis = Ok i ->
  (i <= axis)%nat /\
  (forall k x, (i <= k < axis)%nat -> at_ entries k = Some x -> cmp x = 0%Z) /\
  (forall x, (0 < i)%nat -> at_ entries (i - 1) = Some x -> cmp x <> 0%Z).
Proof.
  revert i. induction axis as [|axis IH]; intros i H.
  - simpl in H. injection H as <-. repeat split; intros; lia.
  - simpl in H. destruct (at_ entries axis) as [e|] eqn:He; [|discriminate].
    simpl in H. destruct (cmp e =? 0)%Z eqn:E.
    + apply Z.eqb_eq in E. destruct (IH i H) as (H1 & H2 & H3).
      split; [lia|]. split; [|exact H3].
      intros k x Hk Hx. destruct (Nat.eq_dec k axis) as [->|Hne].
      * rewrite He in Hx. now injection Hx as <-.
      * apply (H2 k x); [lia | exact Hx].
    + apply Z.eqb_neq in E. injection H as <-.
      split; [lia|]. split; [intros; lia|].
      intros x _ Hx. simpl in Hx. rewrite Nat.sub_0_r in Hx.
      rewrite He in Hx. now injection Hx as <-.
Qed.

(** The forward expansion runs over intersecting entries only and stops at
    the end of the sequence or before an entry that does not intersect. *)
Lemma lastIntersectionFrom_spec {B : Type} (cmp : B -> Z) (rest : list B)
    (axis : nat) :
  let j := lastIntersectionFrom cmp rest axis in
  (axis <= j <= axis + List.length rest)%nat /\
  (forall k x, (k < j - axis)%nat -> at_ rest k = Some x -> cmp x = 0%Z) /\
  (forall x, at_ rest (j - axis) = Some x -> cmp x <> 0%Z).
Proof.
  revert axis. induction rest as [|e rest IH]; intros axis; cbv zeta.
  - simpl. split; [lia|]. split; intros; [lia|].
    destruct (axis - axis)%nat; discriminate.
  - simpl. destruct (cmp e =? 0)%Z eqn:E.
    + apply Z.eqb_eq in E. destruct (IH (S axis)) as (H1 & H2 & H3).
      set (j := lastIntersectionFrom cmp rest (S axis)) in *.
      split; [lia|]. split.
      * intros [|k] x Hk Hx; [simpl in Hx; now injection Hx as <-|].
        apply (H2 k x); [lia | exact Hx].
      * intros x Hx. replace (j - axis)%nat with (S (j - S axis)) in Hx by lia.
        exact (H3 x Hx).
    + apply Z.eqb_neq in E. split; [lia|]. split; [intros; lia|].
      intros x Hx. rewrite Nat.sub_diag in Hx. simpl in Hx.
      now injection Hx as <-.
Qed.

(** Whatever the order of the entries and the window, a result of the
    search scheme is empty or a maximal run of consecutive entries that all
    intersect the query. *)
Lemma binarySearch_sound {B : Type} (cmp : B -> Z) (fuel : nat)
    (entries : list B) (start end_ : nat) (found : list B) :
  binarySearch cmp fuel entries start end_ = Ok (Some found) ->
  found = [] \/
  exists i j,
    (i < j <= List.length entries)%nat /\
    found = slice entries i j /\
    (forall k x, (i <= k < j)%nat -> at_ entries k = Some x -> cmp x = 0%Z) /\
    (forall x, (0 < i)%nat -> at_ entries (i - 1) = Some x -> cmp x <> 0%Z) /\
    (forall x, at_ entries j = Some x -> cmp x <> 0%Z).
Proof.
  revert start end_. induction fuel as [|fuel IH]; intros start end_ H;
    [discriminate|].
  simpl in H.
  destruct (end_ =? 0)%nat; [injection H as <-; now left|].
  destruct (start =? end_)%nat; [injection H as <-; now left|].
  destruct (at_ entries (midpoint start end_)) as [e|] eqn:He; [|discriminate].
  simpl in H.
  destruct (cmp e <? 0)%Z; [exact (IH _ _ H)|].
  destruct (cmp e =? 0)%Z eqn:E; [|exact (IH _ _ H)].
  apply Z.eqb_eq in E.
  destruct (firstIntersectionIndex cmp entries (midpoint start end_))
    as [i| |] eqn:Hi; try discriminate.
  simpl in H. injection H as <-.
  destruct (firstIntersectionIndex_run cmp entries _ i Hi) as (H1 & H2 & H3).
  set (axis := midpoint start end_) in *.
  pose proof (at_Some_lt _ _ _ He) as Hlen.
  pose proof (lastIntersectionFrom_spec cmp (skipn (S axis) entries) axis) as Hl.
  cbv zeta in Hl. fold (lastIntersectionIndex cmp entries axis) in Hl.
  set (j := lastIntersectionIndex cmp entries axis) in *.
  rewrite length_skipn in Hl. destruct Hl as (L1 & L2 & L3).
  right. exists i, (j + 1)%nat.
  split; [lia|]. split; [reflexivity|]. split; [|split; [exact H3|]].
  - intros k x Hk Hx.
    destruct (Nat.lt_ge_cases k axis) as [Hlt|Hge]; [apply (H2 k x); [lia|exact Hx]|].
    destruct (Nat.eq_dec k axis) as [->|Hne];
      [rewrite He in Hx; now injection Hx as <-|].
    apply (L2 (k - S axis)%nat x); [lia|].
    unfold at_. rewrite nth_error_skipn.
    replace (S axis + (k - S axis))%nat with k by lia. exact Hx.
  - intros x Hx. apply L3. unfold at_. rewrite nth_error_skipn.
    replace (S axis + (j - axis))%nat with (j + 1)%nat by lia. exact Hx.
Qed.

(** X5. On any input, sorted or not, a list that [polygonBinarySearch] or
    [offsetBinarySearch] returns is empty or a maximal run of consecutive
    entries that all compare 0 with the query: the searches may miss
    entries of an unsorted sequence, but they never return an entry that
    does not intersect the query. *)
Theorem binary_searches_return_only_intersections :
  (forall fuel lines start end_ poly found,
     polygonBinarySearch fuel lines start end_ poly = Ok (Some found) ->
     found = [] \/
     exists i j,
       (i < j <= List.length lines)%nat /\
       found = slice lines i j /\
       (forall k line, (i <= k < j)%nat -> at_ lines k = Some line ->
          comparePolygons poly (line_polygon line) = 0%Z) /\
       (forall line, (0 < i)%nat -> at_ lines (i - 1) = Some line ->
          comparePolygons poly (line_polygon line) <> 0%Z) /\
       (forall line, at_ lines j = Some line ->
          comparePolygons poly (line_polygon line) <> 0%Z)) /\
  (forall fuel words start end_ offsetRange found,
     offsetBinarySearch fuel words start end_ offsetRange = Ok (Some found) ->
     found = [] \/
     exists i j,
       (i < j <= List.length words)%nat /\
       found = slice words i j /\
       (forall k word, (i <= k < j)%nat -> at_ words k = Some word ->
          compareOffsets offsetRange (offset (word_span word)) = 0%Z) /\
       (forall word, (0 < i)%nat -> at_ words (i - 1) = Some word ->
          compareOffsets offsetRange (offset (word_span word)) <> 0%Z) /\
       (forall word, at_ words j = Some word ->
          compareOffsets offsetRange (offset (word_span word)) <> 0%Z)).
Proof.
  split.
  - intros fuel ls start end_ poly found H.
    rewrite polygonBinarySearch_scheme in H.
    exact (binarySearch_sound (lineCmp poly) _ _ _ _ _ H).
  - intros fuel ws start end_ offsetRange found H.
    rewrite offsetBinarySearch_scheme in H.
    exact (binarySearch_sound (wordCmp offsetRange) _ _ _ _ _ H).
Qed.

(** The depth of the search is logarithmic in the window. *)
Lemma binarySearch_log_fuel {B : Type} (cmp : B -> Z) (entries : list B)
    (fuel start end_ : nat) :
  (start <= end_ <= List.length entries)%nat ->
  (end_ - start < 2 ^ fuel)%nat ->
  exists found, binarySearch cmp (S fuel) entries start end_ = Ok (Some found).
Proof.
  revert start end_.
  induction fuel as [|fuel IH]; intros start end_ Hw Hf.
  - simpl in Hf. assert (start = end_) as -> by lia.
    exists []. apply binarySearch_empty_window.
  - change (binarySearch cmp (S (S fuel)) entries start end_)
      with (if (end_ =? 0)%nat then Ok (Some [])
            else if (start =? end_)%nat then Ok (Some [])
            else
              let axis := midpoint start end_ in
              let* entry := get (at_ entries axis) in
              if (cmp entry <? 0)%Z
              then binarySearch cmp (S fuel) entries start axis
              else if (cmp entry =? 0)%Z then
                let* first := firstIntersectionIndex cmp entries axis in
                Ok (Some (slice entries first
                            (lastIntersectionIndex cmp entries axis + 1)))
              else binarySearch cmp (S fuel) entries (axis + 1) end_).
    destruct (end_ =? 0)%nat eqn:E0; [exists []; reflexivity|].
    destruct (start =? end_)%nat eqn:Ese; [exists []; reflexivity|].
    apply Nat.eqb_neq in E0, Ese. cbv zeta.
    assert (Hmid : midpoint start end_ = (start + (end_ - start) / 2)%nat).
    { unfold midpoint.
      replace (Z.of_nat end_ - Z.of_nat start)%Z with (Z.of_nat (end_ - start))
        by lia.
      change 2%Z with (Z.of_nat 2). rewrite <- Nat2Z.inj_div. lia. }
    pose proof (Nat.div_mod_eq (end_ - start) 2) as Hdm.
    pose proof (Nat.mod_upper_bound (end_ - start) 2 ltac:(lia)) as Hmod.
    assert (Hpow : (2 ^ S fuel = 2 * 2 ^ fuel)%nat) by reflexivity.
    destruct (at_lt_Some entries (midpoint start end_) ltac:(lia)) as [x Hx].
    rewrite Hx. cbn [get bind].
    destruct (cmp x <? 0)%Z; [apply IH; lia|].
    destruct (cmp x =? 0)%Z; [|apply IH; lia].
    destruct (firstIntersectionIndex_total cmp entries (midpoint start end_)
                ltac:(lia)) as [i Hi].
    rewrite Hi. cbn [bind]. eexists. reflexivity.
Qed.

(** X6. A search over a window of fewer than [2 ^ n] entries makes at most
    [n + 1] calls: with that much fuel it returns. *)
Theorem binary_searches_logarithmic_depth :
  (forall lines fuel start end_ poly,
     (start <= end_ <= List.length lines)%nat ->
     (end_ - start < 2 ^ fuel)%nat ->
     exists found,
       polygonBinarySearch (S fuel) lines start end_ poly = Ok (Some found)) /\
  (forall words fuel start end_ offsetRange,
     (start <= end_ <= List.length words)%nat ->
     (end_ - start < 2 ^ fuel)%nat ->
     exists found,
       offsetBinarySearch (S fuel) words start end_ offsetRange = Ok (Some found)).
Proof.
  split.
  - intros ls fuel start end_ poly Hw Hf. rewrite polygonBinarySearch_scheme.
    exact (binarySearch_log_fuel _ _ _ _ _ Hw Hf).
  - intros ws fuel start end_ offsetRange Hw Hf.
    rewrite offsetBinarySearch_scheme.
    exact (binarySearch_log_fuel _ _ _ _ _ Hw Hf).
Qed.

(** ** The column partitioner on any page *)

Lemma firstn_slice {B : Type} (l : list B) (a b : nat) :
  (a <= b)%nat -> firstn a l ++ slice l a b = firstn b l.
Proof.
  unfold slice. revert l b. induction a as [|a IH]; intros l b H.
  - simpl. now rewrite Nat.sub_0_r.
  - destruct l as [|h t].
    + simpl. now rewrite !firstn_nil.
    + destruct b as [|b]; [lia|]. simpl. f_equal. apply IH. lia.
Qed.

Lemma slice_length {B : Type} (l : list B) (a b : nat) :
  List.length (slice l a b) = Nat.min (b - a) (List.length l - a).
Proof.
  unfold slice. now rewrite length_firstn, length_skipn.
Qed.

Lemma columnBreaks_step (lines : list Line) (k : nat) (current next : Line) :
  at_ lines k = Some current -> at_ lines (S k) = Some next ->
  columnBreaks (skipn k lines)
  = ((if adjacent (line_polygon next) (line_polygon current) None
      then 0 else 1) + columnBreaks (skipn (S k) lines))%nat.
Proof.
  intros Hc Hn. rewrite (skipn_at _ _ _ Hc), (skipn_at _ _ _ Hn). reflexivity.
Qed.

Lemma columnBreaks_last (lines : list Line) (k : nat) :
  (k + 1 = List.length lines)%nat -> columnBreaks (skipn k lines) = O.
Proof.
  intros H. destruct (at_lt_Some lines k ltac:(lia)) as [x Hx].
  rewrite (skipn_at _ _ _ Hx), skipn_all2 by lia. reflexivity.
Qed.

(** The invariant of the loop: the columns pushed so far hold the lines
    before [firstLineOfCol], in order. *)
Lemma splitLoop_partition (lines : list Line) (count currentLine : nat)
    (cols : list Column) (firstLineOfCol : nat) :
  (currentLine + count = List.length lines)%nat ->
  (firstLineOfCol <= currentLine)%nat ->
  List.concat (map column_lines cols) = firstn firstLineOfCol lines ->
  (forall col, In col cols -> column_lines col <> []) ->
  exists cols' firstLineOfCol',
    splitLoop lines count currentLine (cols, firstLineOfCol)
    = Ok (cols', firstLineOfCol') /\
    List.concat (map column_lines cols') = firstn firstLineOfCol' lines /\
    (forall col, In col cols' -> column_lines col <> []) /\
    ((0 < count)%nat ->
     firstLineOfCol' = List.length lines /\
     List.length cols'
     = (List.length cols + 1 + columnBreaks (skipn currentLine lines))%nat).
Proof.
  revert currentLine cols firstLineOfCol.
  induction count as [|count IH];
    intros currentLine cols firstLineOfCol Hn Hf Hcat Hne.
  - exists cols, firstLineOfCol. repeat split; auto. lia. lia.
  - simpl. unfold splitStep.
    set (col := {| column_polygon :=
                     combinePolygons
                       (map line_polygon
                          (slice lines firstLineOfCol (currentLine + 1)));
                   column_lines := slice lines firstLineOfCol (currentLine + 1) |}).
    assert (Hcat' : List.concat (map column_lines (cols ++ [col]))
                    = firstn (currentLine + 1) lines).
    { rewrite map_app, concat_app, Hcat. simpl. rewrite app_nil_r.
      apply firstn_slice. lia. }
    assert (Hne' : forall c, In c (cols ++ [col]) -> column_lines c <> []).
    { intros c Hc. apply in_app_or in Hc. destruct Hc as [Hc | [<- | []]];
        [exact (Hne c Hc)|].
      simpl. intros Hnil.
      pose proof (slice_length lines firstLineOfCol (currentLine + 1)) as Hl.
      rewrite Hnil in Hl. simpl in Hl. lia. }
    destruct (currentLine =? List.length lines - 1)%nat eqn:E.
    + apply Nat.eqb_eq in E. cbn [bind].
      assert (count = O) as -> by lia.
      exists (cols ++ [col]), (currentLine + 1)%nat.
      split; [reflexivity|]. split; [exact Hcat'|]. split; [exact Hne'|].
      intros _. split; [lia|].
      rewrite length_app, columnBreaks_last by lia. simpl. lia.
    + apply Nat.eqb_neq in E.
      destruct (at_lt_Some lines (currentLine + 1) ltac:(lia)) as [next Hnext].
      destruct (at_lt_Some lines currentLine ltac:(lia)) as [current Hcur].
      rewrite Hnext, Hcur. cbn [get bind].
      replace (currentLine + 1)%nat with (S currentLine) in Hnext by lia.
      rewrite (columnBreaks_step _ _ _ _ Hcur Hnext).
      destruct (adjacent (line_polygon next) (line_polygon current) None);
        cbn [negb bind].
      * destruct (IH (S currentLine) cols firstLineOfCol)
          as (cols' & first' & Hs & Hc' & Hn' & Hlen); [lia | lia | exact Hcat | exact Hne |].
        exists cols', first'. split; [exact Hs|]. split; [exact Hc'|].
        split; [exact Hn'|]. intros _.
        destruct (Hlen ltac:(lia)) as [-> ->]. split; [reflexivity | lia].
      * destruct (IH (S currentLine) (cols ++ [col]) (currentLine + 1)%nat)
          as (cols' & first' & Hs & Hc' & Hn' & Hlen);
          [lia | lia | exact Hcat' | exact Hne' |].
        exists cols', first'. split; [exact Hs|]. split; [exact Hc'|].
        split; [exact Hn'|]. intros _.
        destruct (Hlen ltac:(lia)) as [-> ->]. split; [reflexivity|].
        rewrite length_app. simpl. lia.
Qed.

(** X7. [splitIntoColumns] never throws.  Its columns, read one after the
    other, give back the lines in their order; there is one column more
    than there are lines not adjacent to the line before them; and a column
    is empty only when there is no line at all. *)
Theorem splitIntoColumns_partitions_lines (lines : list Line) :
  exists columns,
    splitIntoColumns lines = Ok columns /\
    List.concat (map column_lines columns) = lines /\
    List.length columns = (1 + columnBreaks lines)%nat /\
    (lines <> [] -> forall col, In col columns -> column_lines col <> []).
Proof.
  destruct lines as [|l1 [|l2 rest]].
  - eexists. split; [reflexivity|]. repeat split. intros H. now destruct H.
  - eexists. split; [reflexivity|]. repeat split.
    intros _ col [<- | []]. discriminate.
  - set (ls := l1 :: l2 :: rest).
    destruct (splitLoop_partition ls (List.length ls) 0 [] 0)
      as (cols & first & Hs & Hcat & Hne & Hlen);
      [reflexivity | lia | reflexivity | intros col [] |].
    exists cols. unfold splitIntoColumns. fold ls. rewrite Hs. cbn [bind fst].
    destruct (Hlen ltac:(simpl; lia)) as [-> Hl].
    split; [reflexivity|]. split; [rewrite Hcat; apply firstn_all|].
    split; [exact Hl|]. intros _. exact Hne.
Qed.

(** ** Bounds to text on any document *)

(** What one bound contributes: nothing when the search cannot end, words
    of its page that compare 0 with its polygon when it returns. *)
Lemma wordsOfBound_outcome (response : DocIntResponse) (bound : Bounds) :
  match wordsOfBound response bound with
  | Ok ws =>
      exists pg,
        page_at response (bounds_pageNumber bound) = Some pg /\
        forall word, In word ws ->
          In word (words pg) /\
          comparePolygons (word_polygon word) (bounds_polygon bound) = 0%Z
  | Throw => True
  | OutOfFuel => False
  end.
Proof.
  unfold wordsOfBound.
  destruct (page_at response (bounds_pageNumber bound)) as [pg|] eqn:Hpg;
    [|exact I].
  cbn [get bind].
  destruct (splitIntoColumns_total (lines pg)) as (columns & Hcols & Hsub).
  rewrite Hcols. cbn [bind].
  destruct (intersectingLines_total
              (getRelevantColumns columns (bounds_polygon bound))
              (bounds_polygon bound) (lines pg) [])
    as (found & Hfound & _ & _).
  { intros col Hc. apply Hsub. unfold getRelevantColumns in Hc.
    apply filter_In in Hc. exact (proj1 Hc). }
  { intros line []. }
  rewrite Hfound. cbn [bind].
  destruct found as [|firstLine others].
  { exists pg. split; [reflexivity | intros word []]. }
  destruct (at_ (line_spans firstLine) 0) as [firstSpan|]; [|exact I].
  cbn [get bind].
  destruct (at_ (firstLine :: others) (List.length (firstLine :: others) - 1))
    as [lastLine|]; [|exact I].
  cbn [get bind].
  destruct (at_ (line_spans lastLine) 0) as [lastSpan|]; [|exact I].
  cbn [get bind].
  rewrite offsetBinarySearch_scheme.
  destruct (binarySearch_total
              (wordCmp (offset firstSpan, (offset lastSpan + length lastSpan)%Z))
              (words pg) (S (List.length (words pg))) 0 (List.length (words pg))
              ltac:(lia) ltac:(lia))
    as (ws & Hws & Hwin).
  rewrite Hws. cbn [spread get bind].
  exists pg. split; [reflexivity|].
  intros word Hw. apply filter_In in Hw. destruct Hw as [Hw Hz].
  split; [exact (Hwin word Hw) | now apply Z.eqb_eq].
Qed.

Lemma excerptWords_throw (response : DocIntResponse) (bounds : list Bounds) :
  fold_left
    (fun acc bound =>
       let* excerptWords := acc in
       let* found := wordsOfBound response bound in
       Ok (excerptWords ++ found))
    bounds Throw = Throw.
Proof.
  induction bounds as [|bound rest IH]; [reflexivity | exact IH].
Qed.

Lemma excerptWords_outcome (response : DocIntResponse) (bounds : list Bounds)
    (acc : list Word) :
  match
    fold_left
      (fun acc bound =>
         let* excerptWords := acc in
         let* found := wordsOfBound response bound in
         Ok (excerptWords ++ found))
      bounds (Ok acc)
  with
  | Ok ws =>
      (forall bound, In bound bounds ->
         page_at response (bounds_pageNumber bound) <> None) /\
      (forall word, In word ws -> In word acc \/ foundUnder response bounds word)
  | Throw => True
  | OutOfFuel => False
  end.
Proof.
  revert acc. induction bounds as [|bound rest IH]; intros acc.
  - simpl. split; [intros bound [] | auto].
  - cbn [fold_left bind].
    pose proof (wordsOfBound_outcome response bound) as Hb.
    destruct (wordsOfBound response bound) as [found| |];
      [|rewrite excerptWords_throw; exact I | contradiction].
    cbn [bind]. specialize (IH (acc ++ found)).
    destruct (fold_left _ rest (Ok (acc ++ found))) as [ws| |];
      [|exact I | contradiction].
    destruct IH as [Hpages Hwords]. destruct Hb as (pg & Hpg & Hin).
    split.
    + intros b [<- | Hb]; [congruence | exact (Hpages b Hb)].
    + intros word Hw. destruct (Hwords word Hw) as [Ha | (b & pg' & Hb & Hp & Hi)].
      * apply in_app_or in Ha. destruct Ha as [Ha | Ha]; [left; exact Ha|].
        right. exists bound, pg. destruct (Hin word Ha) as [H1 H2].
        split; [left; reflexivity|]. split; [exact Hpg|]. split; assumption.
      * right. exists b, pg'. split; [right; exact Hb|]. split; [exact Hp | exact Hi].
Qed.

(** X8. [findTextFromBoundingRegions] always ends: it returns a string or it
    throws, and it throws when one of the bounds names a page the document
    does not have. *)
Theorem findTextFromBoundingRegions_missing_page
    (response : DocIntResponse) (bounds : list Bounds) :
  findTextFromBoundingRegions response bounds <> OutOfFuel /\
  ((exists bound, In bound bounds /\
                  page_at response (bounds_pageNumber bound) = None) ->
   findTextFromBoundingRegions response bounds = Throw).
Proof.
  unfold findTextFromBoundingRegions.
  pose proof (excerptWords_outcome response bounds []) as H.
  destruct (fold_left _ bounds (Ok [])) as [ws| |]; cbn [bind].
  - split; [discriminate|]. intros (bound & Hb & Hnone).
    exfalso. exact (proj1 H bound Hb Hnone).
  - split; [discriminate | reflexivity].
  - contradiction.
Qed.

(** X9. A string that [findTextFromBoundingRegions] returns is the placeholder
    or the contents, joined by spaces, of words that each lie on the page
    of one of the bounds and compare 0 with the polygon of that bound. *)
Theorem findTextFromBoundingRegions_words_intersect
    (response : DocIntResponse) (bounds : list Bounds) (text : string) :
  findTextFromBoundingRegions response bounds = Ok text ->
  exists excerptWords,
    (forall word, In word excerptWords -> foundUnder response bounds word) /\
    text = (if string_eqb (join " " (map word_content excerptWords)) ""
            then not_found_text
            else join " " (map word_content excerptWords)).
Proof.
  unfold findTextFromBoundingRegions.
  pose proof (excerptWords_outcome response bounds []) as H.
  destruct (fold_left _ bounds (Ok [])) as [ws| |]; cbn [bind];
    intros Heq; try discriminate.
  injection Heq as <-. exists ws. split; [|reflexivity].
  intros word Hw. destruct (proj2 H word Hw) as [[] | Hf]. exact Hf.
Qed.

(** ** The words of a complex polygon: when the call throws *)

(** X10. [findTextFromPolygonC] returns a string exactly when the page named by
    the polygon exists, has regions, and the paragraph index is defined and
    inside them; in every other case it throws. *)
Theorem findTextFromPolygonC_throws_unless_region
    (response : DocIntResponse) (polyC : PolygonOnPage) (paragraph : option nat) :
  let present :=
    exists pg pageRegions index region,
      page_at response (page polyC) = Some pg /\
      regions pg = Some pageRegions /\
      paragraph = Some index /\
      at_ pageRegions index = Some region in
  ((exists text, findTextFromPolygonC response polyC paragraph = Ok text)
   <-> present) /\
  (findTextFromPolygonC response polyC paragraph = Throw <-> ~ present).
Proof.
  cbv zeta. unfold findTextFromPolygonC.
  destruct (page_at response (page polyC)) as [pg|] eqn:Hpg; cbn [get bind].
  2:{ split; split.
      - intros [t H]. discriminate.
      - intros (pg & rs & i & r & H & _). discriminate.
      - intros _ (pg & rs & i & r & H & _). discriminate.
      - reflexivity. }
  destruct (regions pg) as [rs|] eqn:Hrs; cbn [get bind].
  2:{ split; split.
      - intros [t H]. discriminate.
      - intros (pg' & rs & i & r & H & Hr & _). congruence.
      - intros _ (pg' & rs & i & r & H & Hr & _). congruence.
      - reflexivity. }
  destruct paragraph as [index|].
  2:{ cbn [get bind]. split; split.
      - intros [t H]. discriminate.
      - intros (pg' & rs' & i & r & _ & _ & H & _). discriminate.
      - intros _ (pg' & rs' & i & r & _ & _ & H & _). discriminate.
      - reflexivity. }
  destruct (at_ rs index) as [region|] eqn:Hregion; cbn [get bind].
  - split; split.
    + intros _. exists pg, rs, index, region. repeat split; assumption.
    + intros _. eexists. reflexivity.
    + intros H. discriminate.
    + intros H. exfalso. apply H. exists pg, rs, index, region.
      repeat split; assumption.
  - split; split.
    + intros [t H]. discriminate.
    + intros (pg' & rs' & i & r & H1 & H2 & H3 & H4).
      injection H1 as <-. rewrite Hrs in H2. injection H2 as <-.
      injection H3 as <-. congruence.
    + intros _ (pg' & rs' & i & r & H1 & H2 & H3 & H4).
      injection H1 as <-. rewrite Hrs in H2. injection H2 as <-.
      injection H3 as <-. congruence.
    + reflexivity.
Qed.

(** ** The selection pipeline as a whole *)

Lemma string_app_assoc (a b c : string) :
  ((a ++ b) ++ c)%string = (a ++ (b ++ c))%string.
Proof.
  induction a as [|ch a IH]; [reflexivity|]. simpl. now rewrite IH.
Qed.

Lemma string_app_nil (a : string) : (a ++ "")%string = a.
Proof.
  induction a as [|ch a IH]; [reflexivity|]. simpl. now rewrite IH.
Qed.

Lemma findTextFromPolygonC_ends (response : DocIntResponse)
    (polyC : PolygonOnPage) (paragraph : option nat) :
  findTextFromPolygonC response polyC paragraph <> OutOfFuel.
Proof.
  unfold findTextFromPolygonC.
  destruct (page_at response (page polyC)) as [pg|]; cbn [get bind];
    [|discriminate].
  destruct (regions pg) as [rs|]; cbn [get bind]; [|discriminate].
  destruct (match paragraph with
            | Some index => at_ rs index
            | None => None
            end); cbn [get bind]; discriminate.
Qed.

Lemma excerpt_loop_glues (pageNumber : nat) (response : DocIntResponse)
    (complexSelection : list PolygonC) (texts : list string) (acc : string) :
  Forall2
    (fun c text =>
       findTextFromPolygonC response {| page := pageNumber; polygon := c |}
         (findParagraphFromBoundingPolygonC response
            {| page := pageNumber; polygon := c |}) = Ok text)
    complexSelection texts ->
  fold_left
    (fun acc c =>
       let* excerpt := acc in
       let complexSelectionOnPage := {| page := pageNumber; polygon := c |} in
       let paragraphId :=
         findParagraphFromBoundingPolygonC response complexSelectionOnPage in
       let* text := findTextFromPolygonC response complexSelectionOnPage paragraphId in
       Ok (excerpt ++ text)%string)
    complexSelection (Ok acc) = Ok (acc ++ glued texts)%string.
Proof.
  intros H. revert acc. induction H as [|c text cs ts Hc _ IH]; intros acc.
  - simpl. now rewrite string_app_nil.
  - cbn [fold_left bind]. rewrite Hc. cbn [bind]. rewrite IH.
    simpl. now rewrite string_app_assoc.
Qed.

Lemma excerpt_loop_unmatched (pageNumber : nat) (response : DocIntResponse)
    (complexSelection : list PolygonC) (acc : string) :
  (exists c, In c complexSelection /\
             findParagraphFromBoundingPolygonC response
               {| page := pageNumber; polygon := c |} = None) ->
  fold_left
    (fun acc c =>
       let* excerpt := acc in
       let complexSelectionOnPage := {| page := pageNumber; polygon := c |} in
       let paragraphId :=
         findParagraphFromBoundingPolygonC response complexSelectionOnPage in
       let* text := findTextFromPolygonC response complexSelectionOnPage paragraphId in
       Ok (excerpt ++ text)%string)
    complexSelection (Ok acc) = Throw.
Proof.
  revert acc. induction complexSelection as [|c rest IH]; intros acc (x & Hx & Hp).
  - destruct Hx.
  - cbn [fold_left bind].
    pose proof (findTextFromPolygonC_ends response
                  {| page := pageNumber; polygon := c |}
                  (findParagraphFromBoundingPolygonC response
                     {| page := pageNumber; polygon := c |})) as Hends.
    destruct Hx as [<- | Hx].
    + rewrite Hp, findTextFromPolygonC_undefined_paragraph. cbn [bind].
      apply excerpt_loop_throw.
    + destruct (findTextFromPolygonC response
                  {| page := pageNumber; polygon := c |}
                  (findParagraphFromBoundingPolygonC response
                     {| page := pageNumber; polygon := c |})) as [text| |];
        cbn [bind].
      * apply IH. exists x. split; assumption.
      * apply excerpt_loop_throw.
      * now destruct Hends.
Qed.

(** X11. [findUserSelection] throws as soon as one complex polygon of the
    selection, at any position, resolves to no paragraph (no matching
    region, or more than one). *)
Theorem findUserSelection_throws_on_unresolved_polygon (pageNumber : nat)
    (selectionRects : list DOMRect) (view : Viewport) (response : DocIntResponse) :
  (exists c,
     In c (combinePolygonsC (selectionInInches selectionRects view)) /\
     findParagraphFromBoundingPolygonC response
       {| page := pageNumber; polygon := c |} = None) ->
  findUserSelection pageNumber selectionRects view response = Throw.
Proof.
  intros H.
  pose proof (excerpt_loop_unmatched pageNumber response _ ""%string H) as E.
  unfold findUserSelection. cbv zeta in *. now rewrite E.
Qed.

(** X12. When every complex polygon of the selection yields a text, the
    excerpt is these texts one after the other with nothing between them,
    and the outcome is that of [returnTextPolygonsFromDI] on this excerpt:
    the polygons drawn by the user do not reach the result.  The function
    returns the excerpt with no bounds when the excerpt is blank or located
    without a fragment, and throws when it is located with a fragment. *)
Theorem findUserSelection_glues_texts (pageNumber : nat)
    (selectionRects : list DOMRect) (view : Viewport) (response : DocIntResponse)
    (texts : list string) :
  Forall2
    (fun c text =>
       findTextFromPolygonC response {| page := pageNumber; polygon := c |}
         (findParagraphFromBoundingPolygonC response
            {| page := pageNumber; polygon := c |}) = Ok text)
    (combinePolygonsC (selectionInInches selectionRects view)) texts ->
  findUserSelection pageNumber selectionRects view response
  = (let* bounds := returnTextPolygonsFromDI (glued texts) response in
     Ok (glued texts, bounds)) /\
  findUserSelection pageNumber selectionRects view response
  = (let summary := excerptToSummary (glued texts) response in
     if blank (excerpt summary) then Ok (glued texts, [])
     else
       match polygons summary with
       | [] => Ok (glued texts, [])
       | _ :: _ => Throw
       end).
Proof.
  intros H.
  pose proof (excerpt_loop_glues pageNumber response _ _ ""%string H) as E.
  assert (G : findUserSelection pageNumber selectionRects view response
              = (let* bounds := returnTextPolygonsFromDI (glued texts) response in
                 Ok (glued texts, bounds))).
  { unfold findUserSelection. cbv zeta in *. now rewrite E. }
  split; [exact G|].
  rewrite G, returnTextPolygonsFromDI_outcome. cbv zeta.
  destruct (blank (excerpt (excerptToSummary (glued texts) response)));
    [reflexivity|].
  destruct (polygons (excerptToSummary (glued texts) response)); reflexivity.
Qed.




(** ** Stitching: what [forceOverlap] does and does not change *)








Lemma qmax_same (x : Q) : qmax x x = x.
Proof. unfold qmax. now destruct (Qltb x x). Qed.

Lemma qmin_same (x : Q) : qmin x x = x.
Proof. unfold qmin. now destruct (Qltb x x). Qed.

(** X15. With [forceOverlap], head and tail without a body: the head that is
    emitted still has eight numbers, differs from the input at most in its
    two bottom y-values, is not shorter than the input, and leaves no gap
    above the tail. *)
Theorem forceOverlap_head_reaches_tail (page : nat) (head tail : Polygon) :
  List.length head = 8%nat -> List.length tail = 8%nat ->
  exists stitched,
    convertPolyC true page
      {| head := Some head; body := None; tail := Some tail |} []
    = [ {| bounds_pageNumber := page; bounds_polygon := stitched |};
        {| bounds_pageNumber := page; bounds_polygon := flattenPolygon4 tail |} ] /\
    List.length stitched = 8%nat /\
    (forall i, i <> 5%nat -> i <> 7%nat -> nth i stitched 0 = nth i head 0) /\
    bottomOf head <= bottomOf stitched /\
    ~ bottomOf stitched < topOf tail.
Proof.
  intros Hh Ht.
  destruct (eight head Hh) as (h0 & h1 & h2 & h3 & h4 & h5 & h6 & h7 & ->).
  destruct (eight tail Ht) as (t0 & t1 & t2 & t3 & t4 & t5 & t6 & t7 & ->).
  unfold convertPolyC, bottomOf, topOf. cbn.
  destruct (Qltb (qmax h5 h7) (qmin t1 t3)) eqn:E.
  - apply Qltb_lt in E. eexists. split; [reflexivity|]. cbn.
    split; [reflexivity|]. split; [|split].
    + intros i H5 H7. do 8 (destruct i as [|i]; [try reflexivity; contradiction|]).
      simpl. destruct i; reflexivity.
    + rewrite qmax_same. lra.
    + rewrite qmax_same. lra.
  - apply Qltb_nlt in E. eexists. split; [reflexivity|]. cbn.
    split; [reflexivity|]. split; [reflexivity|]. split; [lra | exact E].
Qed.

(** X16. With [forceOverlap], a body between an optional head and an optional
    tail: the body that is emitted still has eight numbers, keeps its
    x-values, is moved up at its top and down at its bottom or not at all,
    and leaves no gap below the head nor above the tail. *)
Theorem forceOverlap_body_reaches_neighbours
    (page : nat) (head : option Polygon) (body : Polygon) (tail : option Polygon) :
  List.length body = 8%nat ->
  (forall h, head = Some h -> List.length h = 8%nat) ->
  (forall t, tail = Some t -> List.length t = 8%nat) ->
  exists stitched,
    convertPolyC true page {| head := head; body := Some body; tail := tail |} []
    = partBounds page head
      ++ [ {| bounds_pageNumber := page; bounds_polygon := stitched |} ]
      ++ partBounds page (option_map flattenPolygon4 tail) /\
    List.length stitched = 8%nat /\
    (forall i, Nat.even i = true -> nth i stitched 0 = nth i body 0) /\
    topOf stitched <= topOf body /\
    bottomOf body <= bottomOf stitched /\
    (forall h, head = Some h -> ~ bottomOf h < topOf stitched) /\
    (forall t, tail = Some t -> ~ bottomOf stitched < topOf t).
Proof.
  intros Hb Hh Ht.
  destruct (eight body Hb) as (b0 & b1 & b2 & b3 & b4 & b5 & b6 & b7 & ->).
  assert (Heven : forall y1 y3 y5 y7 i, Nat.even i = true ->
            nth i [b0; y1; b2; y3; b4; y5; b6; y7] 0
            = nth i [b0; b1; b2; b3; b4; b5; b6; b7] 0).
  { intros y1 y3 y5 y7 i Hi.
    do 8 (destruct i as [|i]; [try reflexivity; discriminate|]).
    simpl. destruct i; reflexivity. }
  destruct head as [h|], tail as [t|].
  - destruct (eight h (Hh _ eq_refl)) as (h0 & h1 & h2 & h3 & h4 & h5 & h6 & h7 & ->).
    destruct (eight t (Ht _ eq_refl)) as (t0 & t1 & t2 & t3 & t4 & t5 & t6 & t7 & ->).
    unfold convertPolyC, bottomOf, topOf. cbn.
    destruct (Qltb (qmax h5 h7) (qmin b1 b3)) eqn:E1; cbn;
    destruct (Qltb (qmax b5 b7) (qmin t1 t3)) eqn:E2;
    (eexists; split; [reflexivity|]; cbn; split; [reflexivity|];
     split; [apply Heven|]);
    repeat match goal with
    | H : Qltb _ _ = true |- _ => apply Qltb_lt in H
    | H : Qltb _ _ = false |- _ => apply Qltb_nlt in H
    end;
    rewrite ?qmax_same, ?qmin_same;
    (split; [lra|]; split; [lra|]; split;
     [intros h' Hh'; injection Hh' as <-; cbn; lra
     |intros t' Ht'; injection Ht' as <-; cbn; lra]).
  - destruct (eight h (Hh _ eq_refl)) as (h0 & h1 & h2 & h3 & h4 & h5 & h6 & h7 & ->).
    unfold convertPolyC, bottomOf, topOf. cbn.
    destruct (Qltb (qmax h5 h7) (qmin b1 b3)) eqn:E1;
    (eexists; split; [reflexivity|]; cbn; split; [reflexivity|];
     split; [apply Heven|]);
    repeat match goal with
    | H : Qltb _ _ = true |- _ => apply Qltb_lt in H
    | H : Qltb _ _ = false |- _ => apply Qltb_nlt in H
    end;
    rewrite ?qmax_same, ?qmin_same;
    (split; [lra|]; split; [lra|]; split;
     [intros h' Hh'; injection Hh' as <-; cbn; lra
     |intros t' Ht'; discriminate]).
  - destruct (eight t (Ht _ eq_refl)) as (t0 & t1 & t2 & t3 & t4 & t5 & t6 & t7 & ->).
    unfold convertPolyC, bottomOf, topOf. cbn.
    destruct (Qltb (qmax b5 b7) (qmin t1 t3)) eqn:E2;
    (eexists; split; [reflexivity|]; cbn; split; [reflexivity|];
     split; [apply Heven|]);
    repeat match goal with
    | H : Qltb _ _ = true |- _ => apply Qltb_lt in H
    | H : Qltb _ _ = false |- _ => apply Qltb_nlt in H
    end;
    rewrite ?qmax_same, ?qmin_same;
    (split; [lra|]; split; [lra|]; split;
     [intros h' Hh'; discriminate
     |intros t' Ht'; injection Ht' as <-; cbn; lra]).
  - eexists. split; [reflexivity|]. cbn. split; [reflexivity|].
    split; [reflexivity|]. split; [lra|]. split; [lra|].
    split; intros x Hx; discriminate.
Qed.

(** ** The shape of the regions and the bounds of a selection *)

Lemma regions_loop_outcome (forceOverlap : bool) (page : nat)
    (regions : list RegionValue) (bounds : list Bounds) :
  let loop :=
    fold_left
      (fun acc region =>
         let* bounds := acc in
         let* region := iterate region in
         Ok (fold_left
               (fun bounds polyC => convertPolyC forceOverlap page polyC bounds)
               region bounds))
      regions (Ok bounds) in
  ((exists bounds', loop = Ok bounds') /\
   forall polyC, ~ In (RegionObject polyC) regions) \/
  (loop = Throw /\ exists polyC, In (RegionObject polyC) regions).
Proof.
  revert bounds. induction regions as [|region regions IH]; intros bounds.
  - left. split; [now exists bounds | intros polyC []].
  - cbn [fold_left bind]. destruct region as [region | polyC]; cbn [iterate bind].
    + destruct (IH (fold_left
                      (fun bounds polyC =>
                         convertPolyC forceOverlap page polyC bounds)
                      region bounds)) as [[Hok Hno] | [Hthrow (polyC & Hin)]].
      * left. split; [exact Hok|]. intros polyC [H | H]; [discriminate|].
        exact (Hno polyC H).
      * right. split; [exact Hthrow|]. exists polyC. now right.
    + right. split; [apply regions_loop_throws|]. exists polyC. now left.
Qed.

Lemma entries_loop_outcome (forceOverlap : bool)
    (entries : list CitationRegionsGiven) (bounds : list Bounds) :
  let loop :=
    fold_left
      (fun acc entry =>
         let* bounds := acc in
         fold_left
           (fun acc region =>
              let* bounds := acc in
              let* region := iterate region in
              Ok (fold_left
                    (fun bounds polyC =>
                       convertPolyC forceOverlap (given_page entry) polyC bounds)
                    region bounds))
           (given_citationRegions entry) (Ok bounds))
      entries (Ok bounds) in
  ((exists bounds', loop = Ok bounds') /\
   forall entry polyC,
     In entry entries -> ~ In (RegionObject polyC) (given_citationRegions entry)) \/
  (loop = Throw /\
   exists entry polyC,
     In entry entries /\ In (RegionObject polyC) (given_citationRegions entry)).
Proof.
  revert bounds. induction entries as [|entry entries IH]; intros bounds.
  - left. split; [now exists bounds | intros entry polyC []].
  - cbn [fold_left bind].
    destruct (regions_loop_outcome forceOverlap (given_page entry)
                (given_citationRegions entry) bounds)
      as [[(bounds' & Hok) Hno] | [Hthrow (polyC & Hin)]]; cbv zeta in *.
    + rewrite Hok.
      destruct (IH bounds') as [[Hok' Hno'] | [Hthrow' (e & polyC & He & Hin)]].
      * left. split; [exact Hok'|]. intros e polyC [<- | He].
        -- apply Hno.
        -- now apply Hno'.
      * right. split; [exact Hthrow'|]. exists e, polyC. split; [now right | exact Hin].
    + rewrite Hthrow. right. split; [apply entries_loop_throws|].
      exists entry, polyC. split; [now left | exact Hin].
Qed.

(** X25. [convertCitationRegionsToBounds] throws exactly when one of the
    regions it is handed, at any position, is a complex polygon instead of
    an array of complex polygons; in every other case it returns bounds. *)
Theorem convertCitationRegionsToBounds_throws_on_objects
    (citationRegionsPerPage : list CitationRegionsGiven) (forceOverlap : bool) :
  (convertCitationRegionsToBounds_given citationRegionsPerPage forceOverlap = Throw
   <-> exists entry polyC,
         In entry citationRegionsPerPage /\
         In (RegionObject polyC) (given_citationRegions entry)) /\
  ((forall entry polyC,
      In entry citationRegionsPerPage ->
      ~ In (RegionObject polyC) (given_citationRegions entry)) ->
   exists bounds,
     convertCitationRegionsToBounds_given citationRegionsPerPage forceOverlap
     = Ok bounds).
Proof.
  unfold convertCitationRegionsToBounds_given.
  destruct (entries_loop_outcome forceOverlap citationRegionsPerPage [])
    as [[(bounds & Hok) Hno] | [Hthrow (entry & polyC & He & Hin)]];
    cbv zeta in *.
  - rewrite Hok. split.
    + split; [discriminate|]. intros (entry & polyC & He & Hin).
      now elim (Hno entry polyC He).
    + intros _. now exists bounds.
  - rewrite Hthrow. split.
    + split; [|reflexivity]. intros _. now exists entry, polyC.
    + intros Hno. now elim (Hno entry polyC He).
Qed.

(** X24. [findUserSelection] never returns bounds: whenever it returns, the
    array of bounds is empty. *)
Theorem findUserSelection_returns_no_bounds (pageNumber : nat)
    (selectionRects : list DOMRect) (view : Viewport) (response : DocIntResponse)
    (excerpt' : string) (bounds : list Bounds) :
  findUserSelection pageNumber selectionRects view response = Ok (excerpt', bounds) ->
  bounds = [].
Proof.
  unfold findUserSelection. cbv zeta.
  destruct (fold_left _ (combinePolygonsC (selectionInInches selectionRects view))
              (Ok ""%string)) as [text| |]; cbn [bind]; try discriminate.
  rewrite returnTextPolygonsFromDI_outcome.
  destruct (blank (excerpt (excerptToSummary text response))); cbn [bind].
  - intros H. now injection H.
  - destruct (polygons (excerptToSummary text response)); cbn [bind];
      [intros H; now injection H | discriminate].
Qed.

(** ** Selections on pages without regions *)

Lemma foundParagraphs_without_regions (response : DocIntResponse)
    (polyC : PolygonOnPage) :
  (forall pg, In pg (pages (analyzeResult response)) ->
     pageNumber pg = page polyC -> regions pg = None \/ regions pg = Some []) ->
  foundParagraphs response polyC = [].
Proof.
  intros H.
  destruct (foundParagraphs_fold polyC (pages (analyzeResult response)) [])
    as [_ Hi].
  unfold foundParagraphs.
  destruct (fold_left _ (pages (analyzeResult response)) []) as [|i rest];
    [reflexivity|].
  exfalso. destruct (proj1 (Hi i) (or_introl eq_refl))
    as [[] | (pg & rs & r & Hin & Hpg & Hrs & Hr & _)].
  destruct (H pg Hin Hpg) as [Hn | Hn]; rewrite Hn in Hrs; [discriminate|].
  injection Hrs as <-. destruct i; discriminate.
Qed.

(** X19. On a document no page of which carries regions for the selected page
    (the page is missing, was not preprocessed, or has no paragraph),
    [findUserSelection] throws for every selection that yields at least one
    complex polygon. *)
Theorem findUserSelection_needs_regions (pageNumber' : nat)
    (selectionRects : list DOMRect) (view : Viewport) (response : DocIntResponse) :
  (forall pg, In pg (pages (analyzeResult response)) ->
     pageNumber pg = pageNumber' -> regions pg = None \/ regions pg = Some []) ->
  combinePolygonsC (selectionInInches selectionRects view) <> [] ->
  findUserSelection pageNumber' selectionRects view response = Throw.
Proof.
  intros Hregions Hsel.
  destruct (combinePolygonsC (selectionInInches selectionRects view))
    as [|c rest] eqn:Hc; [now destruct Hsel|].
  assert (Hnone : findParagraphFromBoundingPolygonC response
                    {| page := pageNumber'; polygon := c |} = None).
  { unfold findParagraphFromBoundingPolygonC.
    rewrite (foundParagraphs_without_regions response
               {| page := pageNumber'; polygon := c |} Hregions).
    reflexivity. }
  pose proof (excerpt_loop_unmatched pageNumber' response (c :: rest) ""%string
                (ex_intro _ c (conj (or_introl eq_refl) Hnone))) as E.
  unfold findUserSelection. cbv zeta in *. rewrite Hc. now rewrite E.
Qed.

(** ** The debug rectangle *)



(** X21. The debug polygon is the polygon [findUserSelection] computes for the
    same rectangle, before rounding: rounding its eight numbers to four
    decimals gives the page-space polygon of the selection. *)
Theorem computeDebugPolygon_rounds_to_selection (rect : DOMRect)
    (pageNumber' : nat) (view : Viewport) (poly : Polygon) :
  computeDebugPolygon (clientRectOf rect) pageNumber' (readingsOf view) = Some poly ->
  map (fun v => round v 4) poly
  = pageSpacePolygon (viewport_dx view) (viewport_dy view) rect.
Proof.
  unfold computeDebugPolygon. cbv zeta.
  match goal with |- context [if ?c then None else _] => destruct c end;
    [discriminate|].
  match goal with |- context [if ?c then None else _] => destruct c end;
    [discriminate|].
  intros H. injection H as <-. reflexivity.
Qed.

Lemma scale_round_trip (a : Q) : closeTo a (js_mul (js_div a 72) 72).
Proof.
  unfold closeTo, js_mul, js_div.
  set (q := a / 72). set (p := to_double q). set (x := to_double (p * 72)).
  pose proof (to_double_error q) as E1. fold p in E1.
  pose proof (to_double_error (p * 72)) as E2. fold x in E2.
  assert (Ea : a == q * 72) by (unfold q; field).
  rewrite Ea, !Qabs_Qmult in *.
  change (Qabs 72) with 72 in *.
  assert (Bp : Qabs p <= Qabs q + Qabs (p - q)).
  { assert (E : p == q + (p - q)) by ring. rewrite E at 1. apply Qabs_triangle. }
  assert (Bx : Qabs (x - q * 72) <= Qabs (x - p * 72) + Qabs (p - q) * 72).
  { assert (E : x - q * 72 == (x - p * 72) + (p - q) * 72) by ring.
    rewrite E. eapply Qle_trans; [apply Qabs_triangle|].
    rewrite Qabs_Qmult. change (Qabs 72) with 72. apply Qle_refl. }
  pose proof (Qabs_nonneg q) as Aq.
  set (Q0 := Qabs q) in *. set (P0 := Qabs p) in *.
  set (D1 := Qabs (p - q)) in *. set (D2 := Qabs (x - p * 72)) in *.
  set (G := Qabs (x - q * 72)) in *.
  unfold Qdiv in *.
  change (/ inject_Z (2 ^ 53)) with (1 # 9007199254740992) in *.
  change (/ inject_Z (2 ^ 51)) with (1 # 2251799813685248).
  lra.
Qed.

(** X22. Round trip from the screen to the page and back: when [selectionChange]
    stores a debug selection, [DebugOverlay] draws the four corners of the
    bounding rectangle of the range, moved by the offsets of the viewport,
    up to the rounding of the division by 72 and of the multiplication
    by 72. *)
Theorem debug_overlay_over_selection (selectionRange : SelectionRange)
    (pageNumber' : option nat) (view : DebugReadings)
    (debugSelection : DebugSelection) :
  selectionChange (Some selectionRange) pageNumber' view = Some (Some debugSelection) ->
  exists x1 y1 x2 y2,
    DebugOverlay (Some debugSelection) pageNumber'
    = Some [ (Some x1, Some y1); (Some x2, Some y1);
             (Some x2, Some y2); (Some x1, Some y2) ] /\
    closeTo (js_sub (client_left (boundingRect selectionRange)) (debug_dx view)) x1 /\
    closeTo (js_sub (client_top (boundingRect selectionRange)) (debug_dy view)) y1 /\
    closeTo (js_sub (client_right (boundingRect selectionRange)) (debug_dx view)) x2 /\
    closeTo (js_sub (client_bottom (boundingRect selectionRange)) (debug_dy view)) y2.
Proof.
  unfold selectionChange.
  destruct (collapsed selectionRange || negb (insideViewer selectionRange));
    [discriminate|].
  destruct pageNumber' as [[|pn]|]; try discriminate.
  destruct (computeDebugPolygon (boundingRect selectionRange) (S pn) view)
    as [poly|] eqn:Hpoly; [|discriminate].
  intros H. injection H as <-.
  unfold computeDebugPolygon in Hpoly. cbv zeta in Hpoly.
  match type of Hpoly with context [if ?c then None else _] => destruct c end;
    [discriminate|].
  match type of Hpoly with context [if ?c then None else _] => destruct c end;
    [discriminate|].
  injection Hpoly as <-.
  unfold DebugOverlay. cbn [debug_pageNumber debug_polygon].
  rewrite Nat.eqb_refl. cbn [negb at_ nth_error js_times option_map].
  do 4 eexists. split; [reflexivity|].
  repeat split; apply scale_round_trip.
Qed.

End Utility.

(** * The properties on the sample document *)

(** ** Running the utilities *)

Example comparePolygons_below :
  comparePolygons secondLinePolygon headOnFirstLine = 1%Z.
Proof. reflexivity. Qed.

Example comparePolygons_above :
  comparePolygons headOnFirstLine secondLinePolygon = (-1)%Z.
Proof. reflexivity. Qed.

Example comparePolygons_right :
  comparePolygons headOnFirstLine (rectangle 1 1 (14 # 10) (12 # 10)) = 2%Z.
Proof. reflexivity. Qed.

(** A column without lines has the polygon [[]]; every read of it is
    [undefined], no comparison holds and the column counts as relevant. *)
Example comparePolygons_empty_column :
  comparePolygons [] secondLinePolygon = 0%Z.
Proof. reflexivity. Qed.

Example adjacent_within_delta :
  adjacent_di [0; 0; 1; 0; 1; 1; 0; 1]
    [11 # 10; 0; 21 # 10; 0; 21 # 10; 1; 0; 1] (Some (2 # 10)) = true /\
  adjacent_di [0; 0; 1; 0; 1; 1; 0; 1]
    [11 # 10; 0; 21 # 10; 0; 21 # 10; 1; 0; 1] (Some (- (5 # 100))) = false.
Proof. split; reflexivity. Qed.

(** 1.45 is the double just below the decimal; its product by 10 rounds
    to 14.5, and [round] gives 1.5. *)
Example round_one_decimal : round (to_double (145 # 100)) 1 = 3 # 2.
Proof. vm_compute. reflexivity. Qed.

(** 52.11 / 72 is just below 0.72375 in exact arithmetic; on doubles the
    quotient times 10000 is 7237.5 and [round] gives 0.7238. *)
Example round_four_decimals :
  js_mul (js_div (to_double (5211 # 100)) 72) 10000 = 14475 # 2 /\
  round (js_div (to_double (5211 # 100)) 72) 4 = to_double (7238 # 10000).
Proof. split; vm_compute; reflexivity. Qed.

(** Rounding twice is not rounding once. *)
Example round_twice :
  round (to_double (- (27490446098542773 # 100000))) 4
  <> round (round (to_double (- (27490446098542773 # 100000))) 4) 4.
Proof. vm_compute. discriminate. Qed.

Example polygonBinarySearch_second_line :
  polygonBinarySearch 4 sampleLines 0 3 secondLinePolygon
  = Ok (Some [mkLine "second row" secondLinePolygon 11 10]).
Proof. reflexivity. Qed.

Example findTextFromBoundingRegions_second_line :
  findTextFromBoundingRegions adjacent_di combinePolygons_di sampleResponse
    [{| bounds_pageNumber := 1; bounds_polygon := secondLinePolygon |}]
  = Ok "second row"%string.
Proof. reflexivity. Qed.

Example findTextFromPolygonC_first_line :
  findTextFromPolygonC adjacent_di onSameLine_di sampleResponse
    firstLineSelection
    (findParagraphFromBoundingPolygonC adjacent_di onSameLine_di sampleResponse
       firstLineSelection)
  = Ok "First line"%string.
Proof. reflexivity. Qed.

(** A fragment handed over as [returnTextPolygonsFromDI] does makes the
    converter throw; the same complex polygon inside an array is
    converted. *)
Example convertCitationRegionsToBounds_shapes :
  convertCitationRegionsToBounds_given flattenPolygon4_di
    [ {| given_page := 1;
         given_citationRegions := [RegionObject (polygon firstLineSelection)] |} ]
    false = Throw /\
  convertCitationRegionsToBounds_given flattenPolygon4_di
    [ {| given_page := 1;
         given_citationRegions := [RegionArray [polygon firstLineSelection]] |} ]
    false
  = Ok [ {| bounds_pageNumber := 1;
            bounds_polygon := rectangle 1 1 (19 # 10) (12 # 10) |} ].
Proof. split; reflexivity. Qed.

Example findUserSelection_first_line :
  findUserSelection adjacent_di onSameLine_di flattenPolygon4_di
    combinePolygonsC_di toPolygon4_di excerptToSummary_none
    1 [firstLineRect] plainViewport sampleResponse
  = Ok ("First line"%string, []).
Proof. vm_compute. reflexivity. Qed.

(** An inverted window never closes: the same call repeats until the fuel
    is gone. *)
Example polygonBinarySearch_inverted_window :
  polygonBinarySearch 50 sampleLines 2 1 headOnFirstLine = OutOfFuel.
Proof. reflexivity. Qed.

(** ** Witnesses of the hypotheses *)


Lemma comparePolygons_reading_order_witness :
  axis_aligned secondLinePolygon /\
  axis_aligned headOnFirstLine /\
  comparePolygons secondLinePolygon headOnFirstLine = 1%Z.
Proof.
  assert (Ha : axis_aligned secondLinePolygon).
  { repeat split; unfold Qle; simpl; lia. }
  assert (Hb : axis_aligned headOnFirstLine).
  { repeat split; unfold Qle; simpl; lia. }
  split; [exact Ha|]. split; [exact Hb|].
  apply (proj1 (proj2 (comparePolygons_reading_order _ _ Ha Hb))).
  unfold Qlt. simpl. lia.
Defined.

Lemma binary_searches_return_matching_slice_witness :
  partitionedAround (lineCmp secondLinePolygon) sampleLines /\
  exists i j,
    (forall k line, at_ sampleLines k = Some line ->
       (lineCmp secondLinePolygon line = 0%Z <-> (i <= k < j)%nat)) /\
    polygonBinarySearch 4 sampleLines 0 3 secondLinePolygon
    = Ok (Some (slice sampleLines i j)).
Proof.
  assert (Hp : partitionedAround (lineCmp secondLinePolygon) sampleLines).
  { apply partitionedAround_check. reflexivity. }
  split; [exact Hp|].
  destruct (proj1 binary_searches_return_matching_slice secondLinePolygon)
    as (_ & _ & _ & H).
  destruct (H sampleLines Hp) as (i & j & Hz & Hs).
  exists i, j. split; [exact Hz|].
  apply Hs; [simpl; lia | simpl; lia | left; split; reflexivity].
Defined.

Lemma splitIntoColumns_single_column_witness :
  (forall k current next,
     at_ sampleLines k = Some current -> at_ sampleLines (S k) = Some next ->
     adjacent_di (line_polygon next) (line_polygon current) None = true) /\
  exists polygon,
    splitIntoColumns adjacent_di combinePolygons_di sampleLines
    = Ok [{| column_polygon := polygon; column_lines := sampleLines |}].
Proof.
  assert (Hadj : forall k current next,
            at_ sampleLines k = Some current -> at_ sampleLines (S k) = Some next ->
            adjacent_di (line_polygon next) (line_polygon current) None = true).
  { intros k current next Hc Hn. unfold at_ in Hc, Hn.
    destruct k as [|[|k]]; simpl in Hc, Hn.
    - injection Hc as <-. injection Hn as <-. reflexivity.
    - injection Hc as <-. injection Hn as <-. reflexivity.
    - destruct k; discriminate. }
  split; [exact Hadj|].
  exact (proj2 (proj2 (splitIntoColumns_single_column adjacent_di combinePolygons_di))
           sampleLines Hadj).
Defined.

Lemma offset_search_keeps_words_starting_in_range_witness :
  sortedByOffset sampleWords /\
  offsetBinarySearch 7 sampleWords 0 6 (11, 21)%Z
  = Ok (Some [ mkWord "second" (rectangle 1 (13 # 10) (15 # 10) (15 # 10)) 11 6;
               mkWord "row" (rectangle (16 # 10) (13 # 10) (19 # 10) (15 # 10)) 18 3 ]).
Proof.
  assert (Hs : sortedByOffset sampleWords).
  { apply sortedByOffset_check. reflexivity. }
  split; [exact Hs|].
  exact (proj1 (offset_search_keeps_words_starting_in_range sampleWords 11 21 Hs)).
Defined.

Lemma findTextFromPolygonC_extracts_words_witness :
  page_at sampleResponse (page firstLineSelection) = Some samplePage /\
  regions samplePage = Some sampleRegions /\
  exists region,
    at_ sampleRegions 0 = Some region /\
    exists candidates excerptWords,
      (forall k, at_ candidates k
                 = if (fst (wordIndices region) + k <=? snd (wordIndices region))%nat
                   then at_ (words samplePage) (fst (wordIndices region) + k)
                   else None) /\
      excerptWords
      = filter (fun word =>
                  wordInPolygonC adjacent_di onSameLine_di word
                    (polygon firstLineSelection)) candidates /\
      (forall word,
         wordInPolygonC adjacent_di onSameLine_di word (polygon firstLineSelection) = true
         <-> acceptedBy adjacent_di onSameLine_di word (polygon firstLineSelection)) /\
      findTextFromPolygonC adjacent_di onSameLine_di sampleResponse
        firstLineSelection (Some 0%nat)
      = Ok (join " " (map word_content excerptWords)).
Proof.
  split; [reflexivity|]. split; [reflexivity|].
  eexists. split; [reflexivity|].
  exact (findTextFromPolygonC_extracts_words adjacent_di onSameLine_di
           sampleResponse firstLineSelection 0 samplePage sampleRegions _
           eq_refl eq_refl eq_refl).
Defined.

Lemma convertCitationRegionsToBounds_forceOverlap_witness :
  List.length headOnFirstLine = 8%nat /\
  List.length tailOnSecondLine = 8%nat /\
  convertPolyC flattenPolygon4_di true 1
    {| head := Some headOnFirstLine; body := None; tail := Some tailOnSecondLine |} []
  = [ {| bounds_pageNumber := 1;
         bounds_polygon :=
           [15 # 10; 1; 19 # 10; 1; 19 # 10; 13 # 10; 15 # 10; 13 # 10] |};
      {| bounds_pageNumber := 1;
         bounds_polygon := flattenPolygon4_di tailOnSecondLine |} ].
Proof.
  split; [reflexivity|]. split; [reflexivity|].
  exact (proj1 (proj2 (convertCitationRegionsToBounds_forceOverlap flattenPolygon4_di))
           1%nat headOnFirstLine tailOnSecondLine eq_refl eq_refl).
Defined.

Lemma selection_rectangles_to_page_space_witness :
  (forall coords, List.length coords = 8%nat -> toPolygon4_di coords = coords) /\
  selectionInInches toPolygon4_di [collapsedRect; decimalRect] plainViewport
  = [ [ 1; to_double (7238 # 10000); 3; to_double (7238 # 10000);
        3; to_double (17238 # 10000); 1; to_double (17238 # 10000) ] ] /\
  Forall2
    (fun rect polygon =>
       Forall2 (roundedTo 4)
         (inPageSpace (viewport_dx plainViewport) (viewport_dy plainViewport) rect)
         polygon)
    [decimalRect]
    (selectionInInches toPolygon4_di [collapsedRect; decimalRect] plainViewport).
Proof.
  split; [reflexivity|].
  destruct (selection_rectangles_to_page_space toPolygon4_di
              [collapsedRect; decimalRect] plainViewport (fun _ _ => eq_refl))
    as [E F].
  split; [rewrite E; vm_compute; reflexivity | exact F].
Defined.


Lemma not_found_outcomes_witness :
  (excerpt (excerptToSummary_none "missing" sampleResponse) = ""%string /\
   returnTextPolygonsFromDI flattenPolygon4_di excerptToSummary_none
     "missing" sampleResponse = Ok []) /\
  (forall bound, In bound [emptyAreaBounds] ->
     nothingFound adjacent_di combinePolygons_di sampleResponse bound) /\
  findTextFromBoundingRegions adjacent_di combinePolygons_di sampleResponse
    [emptyAreaBounds] = Ok not_found_text.
Proof.
  pose proof (not_found_outcomes adjacent_di flattenPolygon4_di combinePolygons_di
                excerptToSummary_none) as (H1 & H2 & _).
  assert (Hn : forall bound, In bound [emptyAreaBounds] ->
            nothingFound adjacent_di combinePolygons_di sampleResponse bound).
  { intros bound [<- | []]. exists samplePage. split; [reflexivity|].
    right. left. intros line [<- | [<- | [<- | []]]]; discriminate. }
  split; [split; [reflexivity|]|split; [exact Hn|]].
  - apply H1. left. reflexivity.
  - apply H2. exact Hn.
Defined.

(** ** Where the code departs from the design document *)

(** The selection over the second line matches both regions; the first
    match found is region 0, and the function returns nothing. *)
Lemma findParagraph_ambiguous_selection_returns_nothing :
  foundParagraphs adjacent_di onSameLine_di sampleResponse secondLineSelection
  = [0%nat; 1%nat] /\
  findParagraphFromBoundingPolygonC adjacent_di onSameLine_di sampleResponse
    secondLineSelection = None.
Proof. split; reflexivity. Qed.

(** Bounds that meet no word yield the placeholder text, not the empty
    string; and a selection that matches no paragraph region makes
    [findUserSelection] throw. *)
Lemma not_found_is_neither_empty_nor_silent :
  (findTextFromBoundingRegions adjacent_di combinePolygons_di sampleResponse
     [emptyAreaBounds] = Ok "could not find matching line(s)"%string /\
   findTextFromBoundingRegions adjacent_di combinePolygons_di sampleResponse
     [emptyAreaBounds] <> Ok ""%string) /\
  (map (fun c =>
          foundParagraphs adjacent_di onSameLine_di sampleResponse
            {| polygon := c; page := 1 |})
       (combinePolygonsC_di
          (selectionInInches toPolygon4_di [emptyAreaRect] plainViewport))
   = [[]] /\
   findUserSelection adjacent_di onSameLine_di flattenPolygon4_di
     combinePolygonsC_di toPolygon4_di excerptToSummary_none
     1 [emptyAreaRect] plainViewport sampleResponse = Throw).
Proof.
  split; split; try reflexivity. vm_compute. discriminate.
Qed.

(** ** Witnesses of the further properties *)

Lemma round_error_bound_witness :
  (1 <= 22)%nat /\
  Qabs (round (to_double (145 # 100)) 1 - to_double (145 # 100))
  <= (1 # 2) / inject_Z (10 ^ Z.of_nat 1)
     + (Qabs (to_double (145 # 100)) + 1 / inject_Z (10 ^ Z.of_nat 1))
       / inject_Z (2 ^ 51).
Proof.
  assert (H : (1 <= 22)%nat) by lia.
  split; [exact H | exact (round_error_bound (to_double (145 # 100)) 1 H)].
Defined.

Lemma round_monotone_witness :
  1 # 3 <= 1 # 2 /\ round (1 # 3) 4 <= round (1 # 2) 4.
Proof.
  assert (H : 1 # 3 <= 1 # 2) by (unfold Qle; simpl; lia).
  split; [exact H | exact (round_monotone _ _ 4 H)].
Defined.

Lemma comparePolygons_antisymmetric_witness :
  axis_aligned secondLinePolygon /\
  axis_aligned headOnFirstLine /\
  comparePolygons headOnFirstLine secondLinePolygon
  = (- comparePolygons secondLinePolygon headOnFirstLine)%Z.
Proof.
  assert (Ha : axis_aligned secondLinePolygon).
  { repeat split; unfold Qle; simpl; lia. }
  assert (Hb : axis_aligned headOnFirstLine).
  { repeat split; unfold Qle; simpl; lia. }
  split; [exact Ha|]. split; [exact Hb|].
  exact (proj1 (comparePolygons_antisymmetric _ _ Ha Hb)).
Defined.

Lemma binary_searches_return_only_intersections_witness :
  polygonBinarySearch 4 sampleLines 0 3 secondLinePolygon
  = Ok (Some [mkLine "second row" secondLinePolygon 11 10]) /\
  ([mkLine "second row" secondLinePolygon 11 10] = [] \/
   exists i j,
     (i < j <= List.length sampleLines)%nat /\
     [mkLine "second row" secondLinePolygon 11 10] = slice sampleLines i j /\
     (forall k line, (i <= k < j)%nat -> at_ sampleLines k = Some line ->
        comparePolygons secondLinePolygon (line_polygon line) = 0%Z) /\
     (forall line, (0 < i)%nat -> at_ sampleLines (i - 1) = Some line ->
        comparePolygons secondLinePolygon (line_polygon line) <> 0%Z) /\
     (forall line, at_ sampleLines j = Some line ->
        comparePolygons secondLinePolygon (line_polygon line) <> 0%Z)).
Proof.
  split; [reflexivity|].
  exact (proj1 binary_searches_return_only_intersections
           4%nat sampleLines 0%nat 3%nat secondLinePolygon _ eq_refl).
Defined.

Lemma binary_searches_logarithmic_depth_witness :
  (0 <= 3 <= List.length sampleLines)%nat /\
  (3 - 0 < 2 ^ 2)%nat /\
  exists found,
    polygonBinarySearch 3 sampleLines 0 3 secondLinePolygon = Ok (Some found).
Proof.
  assert (Hw : (0 <= 3 <= List.length sampleLines)%nat) by (simpl; lia).
  assert (Hf : (3 - 0 < 2 ^ 2)%nat) by (simpl; lia).
  split; [exact Hw|]. split; [exact Hf|].
  exact (proj1 binary_searches_logarithmic_depth
           sampleLines 2%nat 0%nat 3%nat secondLinePolygon Hw Hf).
Defined.

Lemma splitIntoColumns_partitions_lines_witness :
  sampleLines <> [] /\
  exists columns,
    splitIntoColumns adjacent_di combinePolygons_di sampleLines = Ok columns /\
    List.concat (map column_lines columns) = sampleLines /\
    List.length columns = (1 + columnBreaks adjacent_di sampleLines)%nat /\
    (sampleLines <> [] -> forall col, In col columns -> column_lines col <> []).
Proof.
  split; [discriminate|].
  exact (splitIntoColumns_partitions_lines adjacent_di combinePolygons_di sampleLines).
Defined.

Lemma findTextFromBoundingRegions_missing_page_witness :
  (exists bound, In bound [secondLineBounds; missingPageBounds] /\
                 page_at sampleResponse (bounds_pageNumber bound) = None) /\
  findTextFromBoundingRegions adjacent_di combinePolygons_di sampleResponse
    [secondLineBounds; missingPageBounds] = Throw.
Proof.
  assert (H : exists bound, In bound [secondLineBounds; missingPageBounds] /\
                            page_at sampleResponse (bounds_pageNumber bound) = None).
  { exists missingPageBounds. split; [right; left; reflexivity | reflexivity]. }
  split; [exact H|].
  exact (proj2 (findTextFromBoundingRegions_missing_page adjacent_di
                  combinePolygons_di sampleResponse _) H).
Defined.

Lemma findTextFromBoundingRegions_words_intersect_witness :
  findTextFromBoundingRegions adjacent_di combinePolygons_di sampleResponse
    [secondLineBounds] = Ok "second row"%string /\
  exists excerptWords,
    (forall word, In word excerptWords ->
       foundUnder sampleResponse [secondLineBounds] word) /\
    "second row"%string
    = (if string_eqb (join " " (map word_content excerptWords)) ""
       then not_found_text
       else join " " (map word_content excerptWords)).
Proof.
  assert (E : findTextFromBoundingRegions adjacent_di combinePolygons_di
                sampleResponse [secondLineBounds] = Ok "second row"%string)
    by (vm_compute; reflexivity).
  split; [exact E|].
  exact (findTextFromBoundingRegions_words_intersect adjacent_di
           combinePolygons_di sampleResponse [secondLineBounds]
           "second row"%string E).
Defined.

Lemma findUserSelection_throws_on_unresolved_polygon_witness :
  (exists c,
     In c (combinePolygonsC_di
             (selectionInInches toPolygon4_di [firstLineRect; emptyAreaRect]
                plainViewport)) /\
     findParagraphFromBoundingPolygonC adjacent_di onSameLine_di sampleResponse
       {| page := 1; polygon := c |} = None) /\
  findUserSelection adjacent_di onSameLine_di flattenPolygon4_di
    combinePolygonsC_di toPolygon4_di excerptToSummary_none
    1 [firstLineRect; emptyAreaRect] plainViewport sampleResponse = Throw.
Proof.
  assert (H : exists c,
            In c (combinePolygonsC_di
                    (selectionInInches toPolygon4_di [firstLineRect; emptyAreaRect]
                       plainViewport)) /\
            findParagraphFromBoundingPolygonC adjacent_di onSameLine_di
              sampleResponse {| page := 1; polygon := c |} = None).
  { exists {| head := Some (pageSpacePolygon (viewport_dx plainViewport)
                              (viewport_dy plainViewport) emptyAreaRect);
              body := None; tail := None |}.
    split; [right; left; reflexivity | reflexivity]. }
  split; [exact H|].
  exact (findUserSelection_throws_on_unresolved_polygon adjacent_di onSameLine_di
           flattenPolygon4_di combinePolygonsC_di toPolygon4_di
           excerptToSummary_none 1%nat _ plainViewport sampleResponse H).
Defined.

Lemma findUserSelection_glues_texts_witness :
  Forall2
    (fun c text =>
       findTextFromPolygonC adjacent_di onSameLine_di sampleResponse
         {| page := 1; polygon := c |}
         (findParagraphFromBoundingPolygonC adjacent_di onSameLine_di
            sampleResponse {| page := 1; polygon := c |}) = Ok text)
    (combinePolygonsC_di
       (selectionInInches toPolygon4_di [firstLineRect] plainViewport))
    ["First line"%string] /\
  findUserSelection adjacent_di onSameLine_di flattenPolygon4_di
    combinePolygonsC_di toPolygon4_di excerptToSummary_first_line
    1 [firstLineRect] plainViewport sampleResponse
  = (let* bounds :=
       returnTextPolygonsFromDI flattenPolygon4_di excerptToSummary_first_line
         (glued ["First line"%string]) sampleResponse in
     Ok (glued ["First line"%string], bounds)) /\
  findUserSelection adjacent_di onSameLine_di flattenPolygon4_di
    combinePolygonsC_di toPolygon4_di excerptToSummary_first_line
    1 [firstLineRect] plainViewport sampleResponse = Throw.
Proof.
  assert (H : Forall2
            (fun c text =>
               findTextFromPolygonC adjacent_di onSameLine_di sampleResponse
                 {| page := 1; polygon := c |}
                 (findParagraphFromBoundingPolygonC adjacent_di onSameLine_di
                    sampleResponse {| page := 1; polygon := c |}) = Ok text)
            (combinePolygonsC_di
               (selectionInInches toPolygon4_di [firstLineRect] plainViewport))
            ["First line"%string]).
  { apply Forall2_cons; [vm_compute; reflexivity | apply Forall2_nil]. }
  split; [exact H|].
  exact (findUserSelection_glues_texts adjacent_di onSameLine_di
           flattenPolygon4_di combinePolygonsC_di toPolygon4_di
           excerptToSummary_first_line 1%nat _ plainViewport sampleResponse _ H).
Defined.


Lemma forceOverlap_head_reaches_tail_witness :
  List.length headOnFirstLine = 8%nat /\
  List.length tailOnSecondLine = 8%nat /\
  exists stitched,
    convertPolyC flattenPolygon4_di true 1
      {| head := Some headOnFirstLine; body := None;
         tail := Some tailOnSecondLine |} []
    = [ {| bounds_pageNumber := 1; bounds_polygon := stitched |};
        {| bounds_pageNumber := 1;
           bounds_polygon := flattenPolygon4_di tailOnSecondLine |} ] /\
    List.length stitched = 8%nat /\
    (forall i, i <> 5%nat -> i <> 7%nat ->
       nth i stitched 0 = nth i headOnFirstLine 0) /\
    bottomOf headOnFirstLine <= bottomOf stitched /\
    ~ bottomOf stitched < topOf tailOnSecondLine.
Proof.
  split; [reflexivity|]. split; [reflexivity|].
  exact (forceOverlap_head_reaches_tail flattenPolygon4_di 1%nat
           headOnFirstLine tailOnSecondLine eq_refl eq_refl).
Defined.

Lemma forceOverlap_body_reaches_neighbours_witness :
  List.length secondLinePolygon = 8%nat /\
  exists stitched,
    convertPolyC flattenPolygon4_di true 1
      {| head := Some headOnFirstLine; body := Some secondLinePolygon;
         tail := None |} []
    = partBounds 1 (Some headOnFirstLine)
      ++ [ {| bounds_pageNumber := 1; bounds_polygon := stitched |} ]
      ++ partBounds 1 (option_map flattenPolygon4_di None) /\
    List.length stitched = 8%nat /\
    (forall i, Nat.even i = true -> nth i stitched 0 = nth i secondLinePolygon 0) /\
    topOf stitched <= topOf secondLinePolygon /\
    bottomOf secondLinePolygon <= bottomOf stitched /\
    (forall h, Some headOnFirstLine = Some h -> ~ bottomOf h < topOf stitched) /\
    (forall t, None = Some t -> ~ bottomOf stitched < topOf t).
Proof.
  split; [reflexivity|].
  refine (forceOverlap_body_reaches_neighbours flattenPolygon4_di 1%nat
            (Some headOnFirstLine) secondLinePolygon None eq_refl _ _).
  - intros h H. injection H as <-. reflexivity.
  - intros t H. discriminate H.
Defined.

Lemma findUserSelection_needs_regions_witness :
  (forall pg, In pg (pages (analyzeResult unprocessedResponse)) ->
     pageNumber pg = 1%nat -> regions pg = None \/ regions pg = Some []) /\
  combinePolygonsC_di (selectionInInches toPolygon4_di [firstLineRect] plainViewport)
  <> [] /\
  findUserSelection adjacent_di onSameLine_di flattenPolygon4_di
    combinePolygonsC_di toPolygon4_di excerptToSummary_none
    1 [firstLineRect] plainViewport unprocessedResponse = Throw.
Proof.
  assert (Hr : forall pg, In pg (pages (analyzeResult unprocessedResponse)) ->
                 pageNumber pg = 1%nat -> regions pg = None \/ regions pg = Some []).
  { intros pg [<- | []] _. left. reflexivity. }
  assert (Hs : combinePolygonsC_di
                 (selectionInInches toPolygon4_di [firstLineRect] plainViewport)
               <> []).
  { intros H. discriminate H. }
  split; [exact Hr|]. split; [exact Hs|].
  exact (findUserSelection_needs_regions adjacent_di onSameLine_di
           flattenPolygon4_di combinePolygonsC_di toPolygon4_di
           excerptToSummary_none 1%nat _ plainViewport unprocessedResponse Hr Hs).
Defined.


Lemma computeDebugPolygon_rounds_to_selection_witness :
  computeDebugPolygon (clientRectOf decimalRect) 1 (readingsOf plainViewport)
  = Some [ 1; js_div (to_double (5211 # 100)) 72;
           3; js_div (to_double (5211 # 100)) 72;
           3; js_div (js_add (to_double (5211 # 100)) 72) 72;
           1; js_div (js_add (to_double (5211 # 100)) 72) 72 ] /\
  map (fun v => round v 4)
    [ 1; js_div (to_double (5211 # 100)) 72;
      3; js_div (to_double (5211 # 100)) 72;
      3; js_div (js_add (to_double (5211 # 100)) 72) 72;
      1; js_div (js_add (to_double (5211 # 100)) 72) 72 ]
  = pageSpacePolygon (viewport_dx plainViewport) (viewport_dy plainViewport)
      decimalRect.
Proof.
  assert (E : computeDebugPolygon (clientRectOf decimalRect) 1
                (readingsOf plainViewport)
              = Some [ 1; js_div (to_double (5211 # 100)) 72;
                       3; js_div (to_double (5211 # 100)) 72;
                       3; js_div (js_add (to_double (5211 # 100)) 72) 72;
                       1; js_div (js_add (to_double (5211 # 100)) 72) 72 ])
    by (vm_compute; reflexivity).
  split; [exact E|].
  exact (computeDebugPolygon_rounds_to_selection decimalRect 1 plainViewport _ E).
Defined.

Lemma debug_overlay_over_selection_witness :
  selectionChange (Some sampleRange) (Some 1%nat) (readingsOf plainViewport)
  = Some (Some {| debug_pageNumber := 1;
                  debug_polygon := [1; 5; 3; 5; 3; 6; 1; 6] |}) /\
  exists x1 y1 x2 y2,
    DebugOverlay
      (Some {| debug_pageNumber := 1;
               debug_polygon := [1; 5; 3; 5; 3; 6; 1; 6] |}) (Some 1%nat)
    = Some [ (Some x1, Some y1); (Some x2, Some y1);
             (Some x2, Some y2); (Some x1, Some y2) ] /\
    closeTo (js_sub (client_left (boundingRect sampleRange))
               (debug_dx (readingsOf plainViewport))) x1 /\
    closeTo (js_sub (client_top (boundingRect sampleRange))
               (debug_dy (readingsOf plainViewport))) y1 /\
    closeTo (js_sub (client_right (boundingRect sampleRange))
               (debug_dx (readingsOf plainViewport))) x2 /\
    closeTo (js_sub (client_bottom (boundingRect sampleRange))
               (debug_dy (readingsOf plainViewport))) y2.
Proof.
  assert (E : selectionChange (Some sampleRange) (Some 1%nat)
                (readingsOf plainViewport)
              = Some (Some {| debug_pageNumber := 1;
                              debug_polygon := [1; 5; 3; 5; 3; 6; 1; 6] |}))
    by (vm_compute; reflexivity).
  split; [exact E|].
  exact (debug_overlay_over_selection sampleRange (Some 1%nat)
           (readingsOf plainViewport) _ E).
Defined.

Lemma findUserSelection_returns_no_bounds_witness :
  findUserSelection adjacent_di onSameLine_di flattenPolygon4_di
    combinePolygonsC_di toPolygon4_di excerptToSummary_none
    1 [firstLineRect] plainViewport sampleResponse
  = Ok ("First line"%string, []) /\
  @nil Bounds = [].
Proof.
  assert (E : findUserSelection adjacent_di onSameLine_di flattenPolygon4_di
                combinePolygonsC_di toPolygon4_di excerptToSummary_none
                1 [firstLineRect] plainViewport sampleResponse
              = Ok ("First line"%string, [])) by (vm_compute; reflexivity).
  split; [exact E|].
  exact (findUserSelection_returns_no_bounds adjacent_di onSameLine_di
           flattenPolygon4_di combinePolygonsC_di toPolygon4_di
           excerptToSummary_none 1%nat [firstLineRect] plainViewport
           sampleResponse _ _ E).
Defined.

Lemma convertCitationRegionsToBounds_throws_on_objects_witness :
  (exists entry polyC,
     In entry
       [ {| given_page := 1;
            given_citationRegions :=
              [ RegionArray [polygon secondLineSelection];
                RegionObject (polygon firstLineSelection) ] |} ] /\
     In (RegionObject polyC) (given_citationRegions entry)) /\
  convertCitationRegionsToBounds_given flattenPolygon4_di
    [ {| given_page := 1;
         given_citationRegions :=
           [ RegionArray [polygon secondLineSelection];
             RegionObject (polygon firstLineSelection) ] |} ]
    false = Throw.
Proof.
  assert (H : exists entry polyC,
            In entry
              [ {| given_page := 1;
                   given_citationRegions :=
                     [ RegionArray [polygon secondLineSelection];
                       RegionObject (polygon firstLineSelection) ] |} ] /\
            In (RegionObject polyC) (given_citationRegions entry)).
  { eexists. exists (polygon firstLineSelection).
    split; [left; reflexivity | right; left; reflexivity]. }
  split; [exact H|].
  exact (proj2 (proj1 (convertCitationRegionsToBounds_throws_on_objects
                         flattenPolygon4_di _ false)) H).
Defined.
